(** * kobomanager: catalog, device reconciliation and transfer engine

    A shallow embedding of [lib/library.py], [lib/kobodevice.py] and
    [lib/transfermanager.py], with the properties of the design document
    stated and settled against it.

    Conventions of the embedding:
    - Python [str] is [string]; integers are [Z]; SQLite booleans are [bool].
    - A method that can raise returns an [outcome]; [try/except] is [catch].
    - The operating system is the environment: what the code observes of
      the host file system is a record of observations ([HostFS]); what it
      writes onto the removable storage is a finite map from paths to file
      contents. *)

From Stdlib Require Import ZArith Ascii String List Lia Bool.
From stdpp Require Import base option list gmap strings.

Local Open Scope Z_scope.

#[local] Set Warnings "-clear-no-such-hyp".

(** ** Python string and path primitives *)

Module Py.

(** [str.lower()] on the ASCII range. *)
Definition lower_ascii (c : ascii) : ascii :=
  let n := nat_of_ascii c in
  if (Nat.leb 65 n && Nat.leb n 90)%bool then ascii_of_nat (n + 32) else c.

Fixpoint lower (s : string) : string :=
  match s with
  | EmptyString => EmptyString
  | String c s' => String (lower_ascii c) (lower s')
  end.

(** [s.startswith(p)] *)
Definition startswith (s p : string) : bool := String.prefix p s.

(** [s.endswith(suffix)] *)
Definition endswith (s suffix : string) : bool :=
  String.prefix (String.rev suffix) (String.rev s).

(** [s.endswith(tuple(suffixes))] *)
Definition endswith_any (s : string) (suffixes : list string) : bool :=
  existsb (endswith s) suffixes.

(** [x in xs] for a list of strings. *)
Definition str_in (x : string) (xs : list string) : bool :=
  existsb (String.eqb x) xs.

(** [s[1:]] *)
Definition tail (s : string) : string :=
  match s with
  | EmptyString => EmptyString
  | String _ s' => s'
  end.

(** [s.rfind(c)], [-1] when [c] does not occur. *)
Fixpoint rfind_from (c : ascii) (s : string) (i : Z) (last : Z) : Z :=
  match s with
  | EmptyString => last
  | String a s' => rfind_from c s' (i + 1) (if Ascii.eqb a c then i else last)
  end.

Definition rfind (c : ascii) (s : string) : Z := rfind_from c s 0 (-1).

(** [s[i:j]] for [0 <= i]. *)
Definition slice (s : string) (i j : Z) : string :=
  String.substring (Z.to_nat i) (Z.to_nat (j - i)) s.

Definition slice_from (s : string) (i : Z) : string :=
  String.substring (Z.to_nat i) (String.length s) s.

Definition zlen (s : string) : Z := Z.of_nat (String.length s).

(** [os.path.splitext] ([genericpath._splitext] with [sep = "/"] and
    [extsep = "."]): the extension starts at the last dot of the last
    component, unless that component has only leading dots before it. *)
Definition all_dots (s : string) : bool :=
  forallb (Ascii.eqb ".") (list_ascii_of_string s).

Definition splitext (p : string) : string * string :=
  let sepIndex := rfind "/" p in
  let dotIndex := rfind "." p in
  if dotIndex >? sepIndex then
    if all_dots (slice p (sepIndex + 1) dotIndex)
    then (p, "")
    else (slice p 0 dotIndex, slice_from p dotIndex)
  else (p, "").

(** [os.path.join(a, *ps)] of [posixpath]. *)
Definition join2 (path b : string) : string :=
  if startswith b "/" then b
  else if (String.eqb path "" || endswith path "/")%bool then path +:+ b
  else path +:+ "/" +:+ b.

Definition join (a : string) (ps : list string) : string :=
  fold_left join2 ps a.

(** [str.rstrip("/")] *)
Fixpoint lstrip_slash (s : string) : string :=
  match s with
  | String "/" s' => lstrip_slash s'
  | _ => s
  end.

Definition rstrip_slash (s : string) : string :=
  String.rev (lstrip_slash (String.rev s)).

(** [os.path.dirname] of [posixpath]. *)
Definition dirname (p : string) : string :=
  let i := rfind "/" p + 1 in
  let head := slice p 0 i in
  if (negb (String.eqb head "") && negb (String.eqb (lstrip_slash head) ""))%bool
  then rstrip_slash head else head.

(** [os.path.expanduser] for the forms ["~"] and ["~/..."], with the home
    directory [home] of the current user; every other path is returned as
    it is. *)
Definition expanduser (home p : string) : string :=
  match p with
  | String "~" rest =>
      if (String.eqb rest "" || startswith rest "/")%bool
      then (let r := rstrip_slash home +:+ rest in if String.eqb r "" then "/" else r)
      else p
  | _ => p
  end.

(** [pathlib.PurePosixPath]: whether the path is anchored at the root, and
    its components, empty and ["."] components dropped. *)
Record ppath := PPath { anchored : bool; parts : list string }.

Fixpoint split_go (cur : string) (s : string) : list string :=
  match s with
  | EmptyString => [String.rev cur]
  | String c s' =>
      if Ascii.eqb c "/" then String.rev cur :: split_go "" s'
      else split_go (String c cur) s'
  end.

(** [s.split("/")] *)
Definition split_slash (s : string) : list string := split_go "" s.

Definition keep_part (x : string) : bool :=
  (negb (String.eqb x "") && negb (String.eqb x "."))%bool.

Definition Path (s : string) : ppath :=
  PPath (startswith s "/") (filter (fun x => keep_part x = true) (split_slash s)).

Fixpoint strip_parts (pre l : list string) : option (list string) :=
  match pre, l with
  | [], _ => Some l
  | p :: pre', x :: l' => if String.eqb p x then strip_parts pre' l' else None
  | _ :: _, [] => None
  end.

(** [Path(p).relative_to(other)]: [None] is the [ValueError] raised when
    [other] is not a component-wise prefix of [p]. *)
Definition relative_to (p : ppath) (other : string) : option ppath :=
  let o := Path other in
  if Bool.eqb (anchored p) (anchored o) then
    match strip_parts (parts o) (parts p) with
    | Some rest => Some (PPath false rest)
    | None => None
    end
  else None.

Fixpoint concat_with (sep : string) (l : list string) : string :=
  match l with
  | [] => ""
  | [x] => x
  | x :: l' => x +:+ sep +:+ concat_with sep l'
  end.

(** [str(path)] *)
Definition path_str (p : ppath) : string :=
  match parts p with
  | [] => if anchored p then "/" else "."
  | ps => (if anchored p then "/" else "") +:+ concat_with "/" ps
  end.

End Py.

(** ** Shared vocabulary: exceptions, outcomes, log events, configuration *)

Inductive exn := ValueError | OSError | SqliteError | ArchiveError.

Inductive outcome (A : Type) :=
| Returned (a : A)
| Raised (e : exn).
Arguments Returned {A} a.
Arguments Raised {A} e.

Inductive level := DEBUG | INFO | WARNING | ERROR.

(** A call of [logging.<level>(...)]: the message (without the values
    formatted into it), the strings and the numbers formatted into it.
    Byte counts are kept as they are, before [_bytes_to_mb] rounds them.
    [Slept] is [time.sleep]. *)
Inductive event :=
| Log (lv : level) (msg : string) (strs : list string) (nums : list Z)
| Slept (seconds : Z).

(** The options read from [kobomanager.conf] ([Config.DEFAULT_CONFIG] lists
    them); the two JSON lists are held decoded. *)
Record Config := {
  cfg_device_path : string;
  cfg_device_db : string;
  cfg_device_sdcard : string;
  cfg_library_db : string;
  cfg_library_paths : list string;
  cfg_transferable_formats : list string
}.

(** What the code observes of the host file system and of the operating
    system around it. *)
Record HostFS := {
  home : string;                                   (* of os.path.expanduser *)
  path_exists : string -> bool;                    (* os.path.exists *)
  getsize : string -> Z;                           (* os.path.getsize *)
  walk : string -> list (string * list string);    (* os.walk(top): root and files of each directory *)
  file_data : string -> option string;             (* bytes of a readable regular file *)
  archive_members : string -> outcome (list (string * string));
                                                   (* namelist() of an archive with each member's bytes,
                                                      or what opening it raises: ArchiveError stands for
                                                      BadZipFile and rarfile.Error *)
  makedirs_ok : string -> bool;                    (* whether os.makedirs(d, exist_ok=True) succeeds *)
  sqlite_opens : string -> bool;                   (* whether sqlite3.connect(path) succeeds *)
  remove_ok : string -> bool                       (* whether os.remove(path) succeeds on a file
                                                      that is there; otherwise it raises OSError *)
}.

(** ** lib/library.py *)

(** A row of the [books] relation. *)
Record book := {
  file_path : string;
  file_name : string;
  file_extension : string;
  read : bool;
  deleted : bool;
  transferable : bool
}.

Definition set_read (v : bool) (b : book) : book :=
  {| file_path := file_path b; file_name := file_name b; file_extension := file_extension b;
     read := v; deleted := deleted b; transferable := transferable b |}.

Definition set_deleted (v : bool) (b : book) : book :=
  {| file_path := file_path b; file_name := file_name b; file_extension := file_extension b;
     read := read b; deleted := v; transferable := transferable b |}.

Definition set_transferable (v : bool) (b : book) : book :=
  {| file_path := file_path b; file_name := file_name b; file_extension := file_extension b;
     read := read b; deleted := deleted b; transferable := v |}.

Definition bkey : Type := string * string.

Definition key_of (b : book) : bkey := (file_path b, file_name b).

(** [WHERE file_path = ? AND file_name = ?] *)
Definition same_key (p n : string) (b : book) : bool :=
  (String.eqb (file_path b) p && String.eqb (file_name b) n)%bool.

(** [WHERE file_path = ? AND file_name = ? AND file_extension = ?], also the
    conflict test of [UNIQUE(file_path, file_name, file_extension)]. *)
Definition same_row (p n e : string) (b : book) : bool :=
  (same_key p n b && String.eqb (file_extension b) e)%bool.

(** The connection of a [Library] object together with the store behind
    it. [books] is the relation in rowid order. [faults] schedules
    [sqlite3.Error]: each executed statement takes the head, [true] makes
    the statement raise; past the end of the schedule statements succeed.
    [llog] is the stream of the [logging] module, one for the process; it
    is kept here because the methods of [Library] write to it too. *)
Record LibState := {
  conn : bool;
  books : list book;
  faults : list bool;
  llog : list event
}.

Definition with_books (bs : list book) (s : LibState) : LibState :=
  {| conn := conn s; books := bs; faults := faults s; llog := llog s |}.
Definition with_faults (fs : list bool) (s : LibState) : LibState :=
  {| conn := conn s; books := books s; faults := fs; llog := llog s |}.
Definition with_conn (c : bool) (s : LibState) : LibState :=
  {| conn := c; books := books s; faults := faults s; llog := llog s |}.
Definition with_llog (l : list event) (s : LibState) : LibState :=
  {| conn := conn s; books := books s; faults := faults s; llog := l |}.

(** State passing for the methods of [Library]. *)
Definition L (A : Type) : Type := LibState -> A * LibState.

Definition lret {A} (a : A) : L A := fun s => (a, s).
Definition lbind {A B} (m : L A) (k : A -> L B) : L B :=
  fun s => let (a, s') := m s in k a s'.

Declare Scope lib_scope.
Delimit Scope lib_scope with lib.
Notation "'let*' x ':=' m 'in' k" := (lbind m (fun x => k))
  (at level 10, x pattern, m at level 100, k at level 200) : lib_scope.
Notation "m ';;' k" := (lbind m (fun _ => k))
  (at level 100, k at level 200, right associativity) : lib_scope.

Definition llogging (lv : level) (msg : string) (strs : list string) : L unit :=
  fun s => (tt, with_llog (llog s ++ [Log lv msg strs []]) s).

(** A loop whose body updates local variables [st]. *)
Fixpoint lfold {A St} (body : St -> A -> L St) (l : list A) (st : St) : L St :=
  match l with
  | [] => lret st
  | x :: l' => lbind (body st x) (lfold body l')
  end.

(** *** The SQL statements of the class, as functions on the relation *)

Definition stmt (A : Type) : Type := list book -> A * list book.

(** One of the [CREATE TABLE/INDEX IF NOT EXISTS] statements; the cursor's
    [rowcount] is [-1] after a statement that is not DML. *)
Definition sql_create : stmt Z := fun bs => (-1, bs).

(** [SELECT file_path, file_name FROM books] *)
Definition sql_select_keys : stmt (list bkey) :=
  fun bs => (List.map key_of bs, bs).

(** [SELECT deleted FROM books WHERE file_path = ? AND file_name = ?] *)
Definition sql_select_deleted (p n : string) : stmt (list bool) :=
  fun bs => (List.map deleted (List.filter (same_key p n) bs), bs).

Definition update_where (c : book -> bool) (f : book -> book) : stmt Z :=
  fun bs => (Z.of_nat (length (List.filter c bs)),
             List.map (fun b => if c b then f b else b) bs).

(** [UPDATE books SET deleted = TRUE WHERE file_path = ? AND file_name = ?] *)
Definition sql_mark_deleted (p n : string) : stmt Z :=
  update_where (same_key p n) (set_deleted true).

(** [INSERT OR IGNORE INTO books (file_path, file_name, file_extension,
    deleted, transferable) VALUES (?, ?, ?, FALSE, ?)]; [read] takes its
    default. *)
Definition sql_insert_or_ignore (p n e : string) (t : bool) : stmt Z :=
  fun bs =>
    if existsb (same_row p n e) bs then (0, bs)
    else (1, bs ++ [ {| file_path := p; file_name := n; file_extension := e;
                        read := false; deleted := false; transferable := t |} ]).

(** [UPDATE books SET deleted = FALSE, transferable = ? WHERE file_path = ?
    AND file_name = ?] *)
Definition sql_restore (t : bool) (p n : string) : stmt Z :=
  update_where (same_key p n) (fun b => set_transferable t (set_deleted false b)).

(** [SELECT file_path, file_name, file_extension FROM books WHERE deleted =
    FALSE [AND transferable = TRUE]] *)
Definition sql_select_details (only_transferable : bool) : stmt (list (string * string * string)) :=
  fun bs =>
    (List.map (fun b => (file_path b, file_name b, file_extension b))
       (List.filter (fun b => (negb (deleted b) &&
                               (if only_transferable then transferable b else true))%bool) bs),
     bs).

(** [UPDATE books SET read = TRUE WHERE file_path = ? AND file_name = ? AND
    file_extension = ?] *)
Definition sql_mark_read (p n e : string) : stmt Z :=
  update_where (same_row p n e) (set_read true).

(** [Library.execute_query]: [None] is the [False] it returns when there is
    no connection or when the statement raises [sqlite3.Error]; otherwise
    the fetched rows of a [SELECT], or the row count after the commit. *)
Definition execute_query {A} (q : stmt A) : L (option A) :=
  fun s =>
    if negb (conn s) then
      (None, with_llog (llog s ++ [Log ERROR "Not connected to library database." [] []]) s)
    else
      match faults s with
      | true :: rest =>
          (None, with_llog (llog s ++ [Log ERROR "Error executing query" [] []])
                   (with_faults rest s))
      | false :: rest =>
          let (r, bs) := q (books s) in (Some r, with_books bs (with_faults rest s))
      | [] =>
          let (r, bs) := q (books s) in (Some r, with_books bs s)
      end.

(** Python's reading of the values [execute_query] returns. *)

(** [rows_affected == 0]: [False == 0] holds in Python. *)
Definition py_eq_zero (r : option Z) : bool :=
  match r with
  | None => true
  | Some n => n =? 0
  end.

(** [rows_affected > 0]: [False > 0] does not hold. *)
Definition py_gt_zero (r : option Z) : bool :=
  match r with
  | None => false
  | Some n => n >? 0
  end.

(** [result and result[0][0] == v] *)
Definition first_is (v : bool) (r : option (list bool)) : bool :=
  match r with
  | Some (d :: _) => Bool.eqb d v
  | _ => false
  end.

(** [not r] for a row count or [False] *)
Definition py_not (r : option Z) : bool :=
  match r with
  | None => true
  | Some n => n =? 0
  end.

Section Library.

Variable cfg : Config.
Variable fs : HostFS.

Local Open Scope lib_scope.

(** The attributes set by [Library.__init__]. *)
Definition library_db_path : string := Py.expanduser (home fs) (cfg_library_db cfg).

Definition library_paths : list string :=
  List.map (Py.expanduser (home fs)) (cfg_library_paths cfg).

Definition supported_formats : list string :=
  [".epub"; ".mobi"; ".pdf"; ".azw3"; ".cbz"; ".zip"; ".rar"].

Definition transferable_formats : list string :=
  List.map (fun f => "." +:+ f) (cfg_transferable_formats cfg).

(** [file_extension.lower() in [f[1:] for f in self.transferable_formats]] *)
Definition is_transferable (file_extension : string) : bool :=
  Py.str_in (Py.lower file_extension) (List.map Py.tail transferable_formats).

(** [Library.initialize] *)
Fixpoint run_queries (qs : list (stmt Z)) : L bool :=
  match qs with
  | [] => lret true
  | q :: qs' =>
      let* r := execute_query q in
      if py_not r then lret false else run_queries qs'
  end.

Definition initialize : L bool :=
  llogging INFO "Library database initialized." [] ;;
  run_queries [sql_create; sql_create; sql_create; sql_create; sql_create].

(** [Library.connect]. The [try] has one handler, for [sqlite3.Error]: an
    [OSError] of [os.makedirs] leaves the method as an exception. A store
    that did not exist holds no rows. *)
Definition connect : LibState -> outcome bool * LibState :=
  fun s =>
    let db_dir := Py.dirname library_db_path in
    if (negb (path_exists fs db_dir) && negb (makedirs_ok fs db_dir))%bool then
      (Raised OSError, s)
    else
      let db_exists := path_exists fs library_db_path in
      if sqlite_opens fs library_db_path then
        let s1 := with_conn true s in
        let (_, s2) := llogging INFO "Connected to library database" [library_db_path] s1 in
        if negb db_exists then
          let (_, s3) := llogging INFO "New library database created. Initializing..." [] s2 in
          let (ok, s4) := initialize s3 in
          if negb ok then (Returned false, s4) else (Returned true, s4)
        else (Returned true, s2)
      else
        let (_, s1) := llogging ERROR "Error connecting to library database" [] s in
        (Returned false, with_conn false s1).

(** [Library.disconnect] *)
Definition disconnect : L bool :=
  fun s =>
    if conn s then
      (true, snd (llogging INFO "Disconnected from library database." [] (with_conn false s)))
    else (false, s).

(** [Library.add_or_update_book]. Nothing in the [try] raises: the
    statements go through [execute_query], which handles [sqlite3.Error]
    itself. *)
Definition add_or_update_book (file_path file_name file_extension : string)
    (transferable : bool) : L bool :=
  let* rows_affected :=
    execute_query (sql_insert_or_ignore file_path file_name file_extension transferable) in
  (if py_eq_zero rows_affected then
     let* result := execute_query (sql_select_deleted file_path file_name) in
     (if first_is true result then
        llogging INFO "Book restored"
          [Py.join file_path [file_name +:+ "." +:+ file_extension]]
      else lret tt) ;;
     let* _ := execute_query (sql_restore transferable file_path file_name) in
     lret tt
   else lret tt) ;;
  lret (py_gt_zero rows_affected).

(** [Library.get_all_books] *)
Definition get_all_books : L (gset bkey) :=
  let* result := execute_query sql_select_keys in
  match result with
  | Some rows => lret (list_to_set rows)
  | None => lret ∅
  end.

(** [Library.get_all_books_with_details] *)
Definition get_all_books_with_details (only_transferable : bool)
  : L (list (string * string * string)) :=
  let* result := execute_query (sql_select_details only_transferable) in
  match result with
  | Some rows => lret rows
  | None => lret []
  end.

(** [Library.get_book_full_path] *)
Definition get_book_full_path (file_path file_name file_extension : string) : string :=
  Py.join file_path [file_name +:+ "." +:+ file_extension].

(** [Library.get_book_size] *)
Definition get_book_size (file_path file_name file_extension : string) : Z :=
  let full_path := get_book_full_path file_path file_name file_extension in
  if path_exists fs full_path then getsize fs full_path else 0.

(** [Library.mark_book_as_read] *)
Definition mark_book_as_read (file_path file_name file_extension : string) : L (option Z) :=
  execute_query (sql_mark_read file_path file_name file_extension).

(** The two statements that mark the rows of a key deleted, with the
    warning between them (twice in [scan_library]). *)
Definition mark_missing (file_path file_name : string) (shown : string) : L unit :=
  let* result := execute_query (sql_select_deleted file_path file_name) in
  (if first_is false result then
     llogging WARNING "Book not found on disk" [shown]
   else lret tt) ;;
  let* _ := execute_query (sql_mark_deleted file_path file_name) in
  lret tt.

(** The local variables [all_books] and [processed_books] of
    [scan_library]. *)
Definition scan_vars : Type := gset bkey * gset bkey.

(** The body of [for file in files] in [scan_library]. *)
Definition scan_file (root : string) (st : scan_vars) (file : string) : L scan_vars :=
  let '(all_books, processed_books) := st in
  let file_lower := Py.lower file in
  let file_name := fst (Py.splitext file) in
  let file_extension := Py.tail (snd (Py.splitext file)) in
  let full_file_path := Py.join root [file_name +:+ "." +:+ file_extension] in
  let book_key : bkey := (root, file_name) in
  if Py.endswith_any file_lower supported_formats then
    let transferable := is_transferable file_extension in
    if path_exists fs full_file_path then
      if decide (book_key ∉ processed_books) then
        let all_books :=
          if decide (book_key ∈ all_books) then all_books ∖ {[book_key]} else all_books in
        let* added := add_or_update_book root file_name file_extension transferable in
        (if added then llogging INFO "Added book to library" [full_file_path]
         else lret tt) ;;
        lret (all_books, processed_books ∪ {[book_key]})
      else lret st
    else
      if decide (book_key ∈ all_books) then
        mark_missing root file_name full_file_path ;;
        lret st
      else lret st
  else lret st.

(** The body of [for root, _, files in os.walk(expanded_path)]. *)
Definition scan_directory (st : scan_vars) (entry : string * list string) : L scan_vars :=
  lfold (scan_file (fst entry)) (snd entry) st.

(** The body of [for library_path in self.library_paths]. *)
Definition scan_root (st : scan_vars) (library_path : string) : L scan_vars :=
  let expanded_path := Py.expanduser (home fs) library_path in
  if negb (path_exists fs expanded_path) then
    llogging WARNING "Library path does not exist" [expanded_path] ;;
    lret st
  else lfold scan_directory (walk fs expanded_path) st.

(** The body of the closing loop [for file_path, file_name in all_books]. *)
Definition scan_remaining (_ : unit) (k : bkey) : L unit :=
  mark_missing (fst k) (snd k) (Py.join (fst k) [snd k]).

(** [Library.scan_library]. The closing loop visits the keys left in
    [all_books] in the order of [elements]. *)
Definition scan_library : L bool :=
  llogging INFO "Scanning library paths for ebook files..." [] ;;
  let* all_books := get_all_books in
  let processed_books : gset bkey := ∅ in
  let* st := lfold scan_root library_paths (all_books, processed_books) in
  lfold scan_remaining (elements (fst st)) tt ;;
  llogging INFO "Finished scanning library paths." [] ;;
  lret true.

End Library.

(** ** The device, the removable storage and the process state *)

(** The content database of the reader, read through the connection of a
    [KoboDevice]: [content] maps a [ContentID] (the key of the relation) to
    its [ReadStatus]. [kfaults] schedules [sqlite3.Error] as [faults]
    does. *)
Record KoboState := {
  kconn : bool;
  content : gmap string Z;
  kfaults : list bool
}.

(** Everything a run can change. [sdcard] holds the regular files written
    under the mount point of the removable storage, by path; directories
    are implicit. [readings] are the results of the coming calls of
    [os.statvfs] on the storage: [Some] free byte count, or [None] when the
    call raises (also past the end of the list). *)
Record World := {
  lib : LibState;
  kobo : KoboState;
  sdcard : gmap string string;
  readings : list (option Z)
}.

Definition with_lib (l : LibState) (w : World) : World :=
  {| lib := l; kobo := kobo w; sdcard := sdcard w; readings := readings w |}.
Definition with_kobo (k : KoboState) (w : World) : World :=
  {| lib := lib w; kobo := k; sdcard := sdcard w; readings := readings w |}.
Definition with_sdcard (m : gmap string string) (w : World) : World :=
  {| lib := lib w; kobo := kobo w; sdcard := m; readings := readings w |}.
Definition with_readings (r : list (option Z)) (w : World) : World :=
  {| lib := lib w; kobo := kobo w; sdcard := sdcard w; readings := r |}.

(** The log of the process. *)
Definition wlog (w : World) : list event := llog (lib w).

(** State passing with exceptions, for [KoboDevice] and [TransferManager]. *)
Definition M (A : Type) : Type := World -> outcome A * World.

Definition mret {A} (a : A) : M A := fun w => (Returned a, w).
Definition mraise {A} (e : exn) : M A := fun w => (Raised e, w).
Definition mbind {A B} (m : M A) (k : A -> M B) : M B :=
  fun w =>
    match m w with
    | (Returned a, w') => k a w'
    | (Raised e, w') => (Raised e, w')
    end.

(** [try: m except <handled>: h] *)
Definition catch {A} (m : M A) (handled : exn -> bool) (h : exn -> M A) : M A :=
  fun w =>
    match m w with
    | (Raised e, w') => if handled e then h e w' else (Raised e, w')
    | r => r
    end.

(** A call of a [Library] method. *)
Definition lift {A} (m : L A) : M A :=
  fun w => let (a, s) := m (lib w) in (Returned a, with_lib s w).

Declare Scope world_scope.
Delimit Scope world_scope with world.
Notation "'let*' x ':=' m 'in' k" := (mbind m (fun x => k))
  (at level 10, x pattern, m at level 100, k at level 200) : world_scope.
Notation "m ';;' k" := (mbind m (fun _ => k))
  (at level 100, k at level 200, right associativity) : world_scope.

Definition logging (lv : level) (msg : string) (strs : list string) (nums : list Z) : M unit :=
  fun w => (Returned tt, with_lib (with_llog (llog (lib w) ++ [Log lv msg strs nums]) (lib w)) w).

(** [time.sleep(seconds)] *)
Definition sleep (seconds : Z) : M unit :=
  fun w => (Returned tt, with_lib (with_llog (llog (lib w) ++ [Slept seconds]) (lib w)) w).

Fixpoint mfold {A St} (body : St -> A -> M St) (l : list A) (st : St) : M St :=
  match l with
  | [] => mret st
  | x :: l' => mbind (body st x) (mfold body l')
  end.

(** A book as the catalog hands it out: path, name, extension. *)
Definition bookref : Type := string * string * string.

Section Device.

Variable cfg : Config.
Variable fs : HostFS.

Local Open Scope world_scope.

(** ** lib/kobodevice.py *)

(** The attributes set by [KoboDevice.__init__]. *)
Definition device_sdcard : string := cfg_device_sdcard cfg.
Definition sdcard_path : string := Py.join device_sdcard ["kobomanager"].

(** [KoboDevice.execute_query] for [SELECT ReadStatus FROM content WHERE
    ContentID = ?]: [None] is the [None] it returns without a connection
    or on [sqlite3.Error], otherwise the fetched rows. *)
Definition kobo_select_read_status (content_id : string) : M (option (list Z)) :=
  fun w =>
    let k := kobo w in
    if negb (kconn k) then
      (Returned None, snd (logging ERROR "Not connected to database." [] [] w))
    else
      let rows := match content k !! content_id with Some st => [st] | None => [] end in
      match kfaults k with
      | true :: rest =>
          let w1 := with_kobo {| kconn := kconn k; content := content k; kfaults := rest |} w in
          (Returned None, snd (logging ERROR "Error executing query" [] [] w1))
      | false :: rest =>
          (Returned (Some rows),
           with_kobo {| kconn := kconn k; content := content k; kfaults := rest |} w)
      | [] => (Returned (Some rows), w)
      end.

(** The loop [for lib_path in library.library_paths: if
    file_path.startswith(lib_path): ... break]. *)
Definition find_library_path (file_path : string) : option string :=
  List.find (fun lib_path => Py.startswith file_path lib_path) (library_paths cfg fs).

(** [Path(file_path).relative_to(correct_library_path)], which raises
    [ValueError]. *)
Definition relative_path_of (file_path correct_library_path : string) : M Py.ppath :=
  match Py.relative_to (Py.Path file_path) correct_library_path with
  | Some r => mret r
  | None => mraise ValueError
  end.

(** The f-string that forms the content identifier. *)
Definition content_id_of (relative_path : Py.ppath) (file_name file_extension : string) : string :=
  "file:///mnt/sd/kobomanager/" +:+ Py.path_str relative_path +:+ "/" +:+ file_name
    +:+ "." +:+ file_extension.

(** [KoboDevice.book_exists_and_unread] *)
Definition book_exists_and_unread (file_path file_name file_extension : string) : M bool :=
  match find_library_path file_path with
  | None =>
      logging ERROR "File path is not in any library path." [file_path] [] ;;
      mret false
  | Some correct_library_path =>
      let* relative_path := relative_path_of file_path correct_library_path in
      let content_id := content_id_of relative_path file_name file_extension in
      let* result := kobo_select_read_status content_id in
      match result with
      | Some (read_status :: _) =>
          logging INFO "Book exists in Kobo database. Read status" [content_id] [read_status] ;;
          mret (read_status =? 0)
      | _ =>
          logging INFO "Book does not exist in Kobo database." [content_id] [] ;;
          mret false
      end
  end.

(** [KoboDevice.mark_book_as_read_in_kobo]; it returns [False] on one path
    and nothing ([None]) on the others. [os.remove] is applied to a path
    that [os.path.exists] has just confirmed; when it raises [OSError]
    the handler logs the error and the file stays where it is. *)
Definition mark_book_as_read_in_kobo (file_path file_name file_extension : string)
  : M (option bool) :=
  match find_library_path file_path with
  | None =>
      logging ERROR "File path is not in any library path." [file_path] [] ;;
      mret (Some false)
  | Some correct_library_path =>
      let* relative_path := relative_path_of file_path correct_library_path in
      let content_id := content_id_of relative_path file_name file_extension in
      let* result := kobo_select_read_status content_id in
      match result with
      | Some (read_status :: _) =>
          if negb (read_status =? 0) then
            logging INFO "Book is marked as read in Kobo database. Updating local library and deleting file from sdcard."
              [content_id] [] ;;
            let* _ := lift (mark_book_as_read file_path file_name file_extension) in
            let file_to_delete :=
              Py.join sdcard_path [Py.path_str relative_path; file_name +:+ "." +:+ file_extension] in
            (fun w =>
               match sdcard w !! file_to_delete with
               | Some _ =>
                   if remove_ok fs file_to_delete then
                     logging INFO "Deleted file from SD card" [file_to_delete] []
                       (with_sdcard (delete file_to_delete (sdcard w)) w)
                   else
                     logging ERROR "Error deleting file" [file_to_delete] [] w
               | None =>
                   logging WARNING "File not found on SD card" [file_to_delete] [] w
               end) ;;
            mret None
          else
            logging INFO "Book is not marked as read in Kobo database." [content_id] [] ;;
            mret None
      | _ =>
          logging INFO "Book not found in Kobo database." [content_id] [] ;;
          mret None
      end
  end.

End Device.

Section Transfer.

Variable cfg : Config.
Variable fs : HostFS.

Local Open Scope world_scope.

(** ** lib/transfermanager.py *)

(** [TransferManager.get_available_space] *)
Definition get_available_space : M Z :=
  fun w =>
    match readings w with
    | Some available_space_bytes :: rest =>
        (Returned available_space_bytes,
         snd (logging DEBUG "Available space on SD card" [] [available_space_bytes]
                (with_readings rest w)))
    | None :: rest =>
        (Returned 0, snd (logging ERROR "Error getting available space" [device_sdcard cfg] []
                            (with_readings rest w)))
    | [] =>
        (Returned 0, snd (logging ERROR "Error getting available space" [device_sdcard cfg] [] w))
    end.

(** [open(destination_path, "wb")] followed by the copy of the bytes; a
    path that ends in a separator names a directory and cannot be opened
    for writing. [os.makedirs] before it has nothing to do: directories
    are implicit in [sdcard]. *)
Definition write_file (destination_path data : string) : M unit :=
  fun w =>
    if Py.endswith destination_path "/" then (Raised OSError, w)
    else (Returned tt, with_sdcard (<[destination_path := data]> (sdcard w)) w).

(** The body of [for member in ..._ref.namelist()]. *)
Definition extract_member (destination_dir : string) (_ : unit) (member : string * string)
  : M unit :=
  let destination_path := Py.join destination_dir [fst member] in
  write_file destination_path (snd member).

(** [with zipfile.ZipFile(...) as zip_ref: for member in ...] and the same
    with [rarfile.RarFile]. *)
Definition extract_all (archive : string) (destination_dir : string) : M unit :=
  match archive_members fs archive with
  | Returned members => mfold (extract_member destination_dir) members tt
  | Raised e => mraise e
  end.

(** [TransferManager.extract_archive] *)
Definition extract_archive (archive_path archive_name archive_extension destination_dir : string)
  : M bool :=
  let archive := Py.join archive_path [archive_name +:+ "." +:+ archive_extension] in
  catch
    ((if String.eqb archive_extension "zip" then extract_all archive destination_dir
      else if String.eqb archive_extension "rar" then extract_all archive destination_dir
      else mret tt) ;;
     logging INFO "Extracted archive" [archive; destination_dir] [] ;;
     mret true)
    (fun e => match e with ArchiveError => true | _ => false end)
    (fun _ => logging ERROR "Error extracting archive" [archive] [] ;; mret false).

(** [shutil.copy2(src, dst)] *)
Definition copy2 (src dst : string) : M unit :=
  match file_data fs src with
  | Some data => write_file dst data
  | None => mraise OSError
  end.

(** [TransferManager.transfer_book] *)
Definition transfer_book (file_path file_name file_extension destination_dir : string)
  : M bool :=
  let full_file_path := get_book_full_path file_path file_name file_extension in
  catch
    (let* done :=
       (if Py.str_in (Py.lower file_extension) ["zip"; "rar"] then
          extract_archive file_path file_name file_extension destination_dir
        else
          let destination_path :=
            Py.join destination_dir [file_name +:+ "." +:+ file_extension] in
          copy2 full_file_path destination_path ;;
          mret true) in
     if negb done then mret false
     else
       logging INFO "Transferred" [full_file_path; destination_dir] [] ;;
       mret true)
    (fun _ => true)
    (fun _ => logging ERROR "Error transferring" [full_file_path] [] ;; mret false).

(** [books_by_directory[destination_dir].append(book)], after the entry
    is created when the key is new; a [dict] keeps its keys in insertion
    order. *)
Fixpoint dict_append (d : list (string * list bookref)) (k : string) (b : bookref)
  : list (string * list bookref) :=
  match d with
  | [] => [(k, [b])]
  | (k', bs) :: d' =>
      if String.eqb k' k then (k', (bs ++ [b])%list) :: d'
      else (k', bs) :: dict_append d' k b
  end.

(** The body of the grouping loop of [transfer_books]. *)
Definition group_book (books_by_directory : list (string * list bookref)) (b : bookref)
  : M (list (string * list bookref)) :=
  let '(file_path, file_name, file_extension) := b in
  match find_library_path cfg fs file_path with
  | None =>
      logging ERROR "File path is not in any library path." [file_path] [] ;;
      mret books_by_directory
  | Some correct_library_path =>
      let* relative_path := relative_path_of file_path correct_library_path in
      let destination_dir := Py.join (sdcard_path cfg) [Py.path_str relative_path] in
      mret (dict_append books_by_directory destination_dir b)
  end.

Definition book_size (b : bookref) : Z :=
  let '(file_path, file_name, file_extension) := b in
  get_book_size fs file_path file_name file_extension.

(** [directory_size], summed over [books_in_dir]. *)
Definition directory_size (books_in_dir : list bookref) : Z :=
  fold_left (fun acc b => acc + book_size b) books_in_dir 0.

(** [min(...)] of a generator; it raises [ValueError] when there is
    nothing to compare. *)
Definition py_min (l : list Z) : M Z :=
  match l with
  | [] => mraise ValueError
  | x :: l' => mret (fold_left Z.min l' x)
  end.

(** The body of [for file_path, file_name, file_extension in books_in_dir]
    in [transfer_books]; [available_space] is the local variable of that
    name, and the result is its value when the body ends. *)
Definition transfer_one (destination_dir : string) (available_space : Z) (b : bookref)
  : M Z :=
  let '(file_path, file_name, file_extension) := b in
  let* unread := book_exists_and_unread cfg fs file_path file_name file_extension in
  if unread then
    logging INFO "Skipping already existing or read book"
      [get_book_full_path file_path file_name file_extension] [] ;;
    mret available_space
  else
    let current_book_size := get_book_size fs file_path file_name file_extension in
    if current_book_size >? available_space then
      logging WARNING "Not enough space on SD card for book. Skipping book."
        [file_name] [current_book_size; available_space] ;;
      mret available_space
    else if negb (is_transferable cfg file_extension) then
      logging INFO "Skipping file with unsupported format"
        [get_book_full_path file_path file_name file_extension] [] ;;
      mret available_space
    else
      let* copied := transfer_book file_path file_name file_extension destination_dir in
      if copied then
        sleep 1 ;;
        get_available_space
      else mret available_space.

(** The part of the body of [for destination_dir, books_in_dir in
    books_by_directory.items()] after the directory-level check: the
    capacity is measured again into [available_space], and the books of
    the directory are gone through. *)
Definition enter_directory (entry : string * list bookref) : M Z :=
  let '(destination_dir, books_in_dir) := entry in
  let* available_space := get_available_space in
  let* smallest := py_min (List.map book_size books_in_dir) in
  if available_space <? smallest then
    logging WARNING "Not enough space on SD card for any book in directory. Skipping directory."
      [destination_dir] [available_space] ;;
    mret available_space
  else mfold (transfer_one destination_dir) books_in_dir available_space.

(** The body of [for destination_dir, books_in_dir in
    books_by_directory.items()]; [available_space] is the local variable
    of [transfer_books], and the result is its value when the body
    ends. *)
Definition transfer_directory (available_space : Z) (entry : string * list bookref)
  : M Z :=
  let directory_size := directory_size (snd entry) in
  if directory_size >? available_space then
    logging WARNING "Not enough space on SD card for directory. Skipping directory."
      [fst entry] [directory_size; available_space] ;;
    mret available_space
  else enter_directory entry.

(** [TransferManager.transfer_books] *)
Definition transfer_books : M unit :=
  let* books := lift (get_all_books_with_details true) in
  let* available_space := get_available_space in
  let* books_by_directory := mfold group_book books [] in
  let* _ := mfold transfer_directory books_by_directory available_space in
  logging INFO "Finished transferring books." [] [] ;;
  mret tt.

End Transfer.

(** ** The rest of lib/kobodevice.py, and lib/kobomanager.py *)

(** A call of a [Library] method that can raise. *)
Definition lift_outcome {A} (m : LibState -> outcome A * LibState) : M A :=
  fun w => let (r, s) := m (lib w) in (r, with_lib s w).

Module KoboDevice.
Section Methods.

Variable cfg : Config.
Variable fs : HostFS.

Local Open Scope world_scope.

(** The attributes set by [KoboDevice.__init__] beside [device_sdcard]
    and [sdcard_path]. *)
Definition device_path : string := cfg_device_path cfg.
Definition device_db : string := cfg_device_db cfg.
Definition db_path : string := Py.join device_path [device_db].

(** [KoboDevice.check_sdcard_path] *)
Definition check_sdcard_path : M bool :=
  if negb (path_exists fs (device_sdcard cfg)) then
    logging ERROR "Kobo device not found at" [device_sdcard cfg] [] ;;
    mret false
  else mret true.

(** [KoboDevice.create__sdcard_kobomanager_directory]; the [OSError] of
    [os.makedirs] is handled here. *)
Definition create__sdcard_kobomanager_directory : M bool :=
  if negb (path_exists fs (sdcard_path cfg)) then
    if makedirs_ok fs (sdcard_path cfg) then
      logging INFO "Created directory" [sdcard_path cfg] [] ;;
      mret true
    else
      logging ERROR "Error creating directory" [sdcard_path cfg] [] ;;
      mret false
  else
    logging INFO "Directory already exists" [sdcard_path cfg] [] ;;
    mret true.

(** [KoboDevice.check_device_path] *)
Definition check_device_path : M bool :=
  if negb (path_exists fs device_path) then
    logging ERROR "Kobo device not found at" [device_path] [] ;;
    mret false
  else mret true.

(** [KoboDevice.check_device_db] *)
Definition check_device_db : M bool :=
  if negb (path_exists fs db_path) then
    logging ERROR "Incompatible Kobo device. Database not found at" [db_path] [] ;;
    mret false
  else mret true.

Definition set_kconn (c : bool) (w : World) : World :=
  with_kobo {| kconn := c; content := content (kobo w); kfaults := kfaults (kobo w) |} w.

(** [KoboDevice.connect] *)
Definition connect : M bool :=
  let* present := check_device_db in
  if negb present then mret false
  else if sqlite_opens fs db_path then
    (fun w => logging INFO "Connected to database" [db_path] [] (set_kconn true w)) ;;
    mret true
  else
    logging ERROR "Error connecting to database" [] [] ;;
    mret false.

(** [KoboDevice.disconnect] *)
Definition disconnect : M bool :=
  fun w =>
    if kconn (kobo w) then
      (Returned true, snd (logging INFO "Disconnected from database." [] [] (set_kconn false w)))
    else (Returned false, w).

End Methods.
End KoboDevice.

Module KoboManager.
Section Methods.

Variable cfg : Config.
Variable fs : HostFS.

Local Open Scope world_scope.

(** The body of the loop over [books] at the end of [run]. *)
Definition reconcile (_ : unit) (b : bookref) : M unit :=
  let '(file_path, file_name, file_extension) := b in
  mark_book_as_read_in_kobo cfg fs file_path file_name file_extension ;;
  mret tt.

(** [KoboManager.run]: the exit code, or the exception that leaves it
    ([OSError] from [Library.connect], [ValueError] from
    [transfer_books] and from [mark_book_as_read_in_kobo]). *)
Definition run : M Z :=
  logging INFO "Starting KoboManager..." [] [] ;;
  let* ok := KoboDevice.check_device_path cfg fs in
  if negb ok then mret 1 else
  let* ok := KoboDevice.check_device_db cfg fs in
  if negb ok then mret 1 else
  let* ok := KoboDevice.check_sdcard_path cfg fs in
  if negb ok then mret 1 else
  let* ok := KoboDevice.create__sdcard_kobomanager_directory cfg fs in
  if negb ok then mret 1 else
  let* ok := KoboDevice.connect cfg fs in
  if negb ok then mret 1 else
  let* ok := lift_outcome (connect cfg fs) in
  if negb ok then mret 1 else
  let* ok := lift (scan_library cfg fs) in
  if negb ok then mret 1 else
  transfer_books cfg fs ;;
  let* books := lift (get_all_books_with_details false) in
  mfold reconcile books tt ;;
  let* ok := KoboDevice.disconnect in
  if negb ok then mret 1 else
  let* ok := lift disconnect in
  if negb ok then mret 1 else
  logging INFO "KoboManager finished." [] [] ;;
  mret 0.

End Methods.
End KoboManager.

(** ** Notions the properties are stated with *)

(** The content identifier [book_exists_and_unread] and
    [mark_book_as_read_in_kobo] compute for a book, when they get as far
    as computing one: the first library path that is a prefix of the
    book's directory, the directory relative to it, and the f-string. *)
Definition book_content_id (cfg : Config) (fs : HostFS)
    (file_path file_name file_extension : string) : option string :=
  match find_library_path cfg fs file_path with
  | None => None
  | Some correct_library_path =>
      match Py.relative_to (Py.Path file_path) correct_library_path with
      | None => None
      | Some relative_path => Some (content_id_of relative_path file_name file_extension)
      end
  end.

(** The path [mark_book_as_read_in_kobo] removes from the removable
    storage. *)
Definition book_sdcard_file (cfg : Config) (fs : HostFS)
    (file_path file_name file_extension : string) : option string :=
  match find_library_path cfg fs file_path with
  | None => None
  | Some correct_library_path =>
      match Py.relative_to (Py.Path file_path) correct_library_path with
      | None => None
      | Some relative_path =>
          Some (Py.join (sdcard_path cfg)
                  [Py.path_str relative_path; file_name +:+ "." +:+ file_extension])
      end
  end.

(** The next statement on the device database will be executed: there is
    a connection and no [sqlite3.Error] is due. *)
Definition kobo_ready (k : KoboState) : Prop :=
  kconn k = true /\ hd false (kfaults k) = false.

(** The same for the catalog store. *)
Definition lib_ready (s : LibState) : Prop :=
  conn s = true /\ hd false (faults s) = false.

(** No statement on the catalog store fails from here on. *)
Definition healthy (s : LibState) : Prop :=
  conn s = true /\ faults s = [].

(** The rows of the catalog. *)
Definition catalog (w : World) : list book := books (lib w).

(** [m] leaves the component [proj] of the world as it found it, however
    it ends. *)
Definition keeps {A X} (proj : World -> X) (m : M A) : Prop :=
  forall w, proj (snd (m w)) = proj w.

(** Statements that only read. *)
Definition read_only {A} (q : stmt A) : Prop := forall bs, snd (q bs) = bs.

(** The body of the per-book loop with its gates in the order of the
    design document (unread on the device, then the extension, then the
    size), for comparison with [transfer_one]. *)
Definition transfer_one_spec_order (cfg : Config) (fs : HostFS) (destination_dir : string)
    (available_space : Z) (b : bookref) : M Z :=
  let '(file_path, file_name, file_extension) := b in
  mbind (book_exists_and_unread cfg fs file_path file_name file_extension) (fun unread =>
  if unread then
    mbind (logging INFO "Skipping already existing or read book"
             [get_book_full_path file_path file_name file_extension] [])
          (fun _ => mret available_space)
  else if negb (is_transferable cfg file_extension) then
    mbind (logging INFO "Skipping file with unsupported format"
             [get_book_full_path file_path file_name file_extension] [])
          (fun _ => mret available_space)
  else
    let current_book_size := get_book_size fs file_path file_name file_extension in
    if current_book_size >? available_space then
      mbind (logging WARNING "Not enough space on SD card for book. Skipping book."
               [file_name] [current_book_size; available_space])
            (fun _ => mret available_space)
    else
      mbind (transfer_book fs file_path file_name file_extension destination_dir) (fun copied =>
      if copied then mbind (sleep 1) (fun _ => get_available_space cfg)
      else mret available_space)).

(** What a log entry of [get_available_space] says the call returned. *)
Definition reading_of (ev : event) : option Z :=
  match ev with
  | Log DEBUG msg _ [v] =>
      if String.eqb msg "Available space on SD card" then Some v else None
  | Log ERROR msg _ _ =>
      if String.eqb msg "Error getting available space" then Some 0 else None
  | _ => None
  end.

(** The result of the most recent call of [get_available_space], read off
    the log. *)
Definition last_reading (l : list event) : option Z :=
  fold_left (fun acc ev => match reading_of ev with Some v => Some v | None => acc end) l None.

(** The same, of the log of a world. *)
Definition measured (w : World) : option Z := last_reading (wlog w).

(** The loop over the directories as the design document has it: the
    directory-level check compares with [snapshot], the capacity measured
    once before the loop, which no later measurement replaces. *)
Definition transfer_directory_snapshot (cfg : Config) (fs : HostFS) (snapshot : Z)
    (_ : unit) (entry : string * list bookref) : M unit :=
  let directory_size := directory_size fs (snd entry) in
  if directory_size >? snapshot then
    mbind (logging WARNING "Not enough space on SD card for directory. Skipping directory."
             [fst entry] [directory_size; snapshot])
          (fun _ => mret tt)
  else mbind (enter_directory cfg fs entry) (fun _ => mret tt).

(** [transfer_books] with that loop. *)
Definition transfer_books_snapshot (cfg : Config) (fs : HostFS) : M unit :=
  mbind (lift (get_all_books_with_details true)) (fun books =>
  mbind (get_available_space cfg) (fun snapshot =>
  mbind (mfold (group_book cfg fs) books []) (fun books_by_directory =>
  mbind (mfold (transfer_directory_snapshot cfg fs snapshot) books_by_directory tt) (fun _ =>
  mbind (logging INFO "Finished transferring books." [] []) (fun _ => mret tt))))).

(** Path, name and extension of a row: what the [UNIQUE] constraint is
    on. The scan addresses rows by [key_of], without the extension. *)
Definition ident (b : book) : string * string * string :=
  (file_path b, file_name b, file_extension b).

(** What [add_or_update_book] does to the relation when its statements
    succeed. *)
Definition add_or_update_rows (p n e : string) (t : bool) (bs : list book) : list book :=
  let (rows_affected, bs1) := sql_insert_or_ignore p n e t bs in
  if rows_affected =? 0 then snd (sql_restore t p n bs1) else bs1.

(** What [mark_missing] does to the relation when its statements
    succeed. *)
Definition mark_missing_rows (k : bkey) (bs : list book) : list book :=
  snd (sql_mark_deleted (fst k) (snd k) bs).

(** A file met by the walk: the directory [os.walk] reports it in, and its
    name; with what the body of the inner loop computes from them. *)
Definition visit : Type := string * string.

(** [file_name], [file_extension], [book_key] and the test on
    [file_lower] in the body of the inner loop. *)
Definition v_name (v : visit) : string := fst (Py.splitext (snd v)).

Definition v_ext (v : visit) : string := Py.tail (snd (Py.splitext (snd v))).

Definition v_key (v : visit) : bkey := (fst v, v_name v).

Definition v_supported (v : visit) : bool :=
  Py.endswith_any (Py.lower (snd v)) supported_formats.

Section ScanRows.

Variable cfg : Config.
Variable fs : HostFS.

(** [os.path.exists(full_file_path)] *)
Definition v_on_disk (v : visit) : bool :=
  path_exists fs (Py.join (fst v) [v_name v +:+ "." +:+ v_ext v]).

(** The file is one the scan records: supported format, and present. *)
Definition v_live (v : visit) : bool := (v_supported v && v_on_disk v)%bool.

(** The body of the inner loop of [scan_library], on the relation. *)
Definition visit_rows (st : scan_vars * list book) (v : visit) : scan_vars * list book :=
  let '((all_books, processed_books), bs) := st in
  if v_supported v then
    if v_on_disk v then
      if decide (v_key v ∉ processed_books) then
        ((all_books ∖ {[v_key v]}, processed_books ∪ {[v_key v]}),
         add_or_update_rows (fst v) (v_name v) (v_ext v) (is_transferable cfg (v_ext v)) bs)
      else st
    else
      if decide (v_key v ∈ all_books) then
        ((all_books, processed_books), mark_missing_rows (v_key v) bs)
      else st
  else st.

(** The files of one directory of the walk, and of one library root. *)
Definition directory_visits (entry : string * list string) : list visit :=
  List.map (pair (fst entry)) (snd entry).

Definition root_visits (library_path : string) : list visit :=
  let expanded_path := Py.expanduser (home fs) library_path in
  if negb (path_exists fs expanded_path) then []
  else flat_map directory_visits (walk fs expanded_path).

(** Every file the three nested loops of [scan_library] meet, in order. *)
Definition walked : list visit := flat_map root_visits (library_paths cfg fs).

(** The relation after [scan_library], from the relation before it. *)
Definition scan_rows (bs : list book) : list book :=
  let st := fold_left visit_rows walked ((list_to_set (List.map key_of bs), ∅), bs) in
  fold_left (fun bs k => mark_missing_rows k bs) (elements (fst (fst st))) (snd st).

End ScanRows.

(** The shape of a run on a healthy store: the result [a], the relation
    [bs] afterwards, and a store that is healthy again. *)
Definition runs_to {A} (m : L A) (s : LibState) (a : A) (bs : list book) : Prop :=
  exists s', m s = (a, s') /\ books s' = bs /\ healthy s'.

(** The row [INSERT OR IGNORE] adds, and what the restoring [UPDATE] makes
    of a row. *)
Definition new_row (p n e : string) (t : bool) : book :=
  {| file_path := p; file_name := n; file_extension := e;
     read := false; deleted := false; transferable := t |}.

Definition restore_row (t : bool) (b : book) : book :=
  set_transferable t (set_deleted false b).

(** Apply [f] to the rows of key [k]. *)
Definition on_key (k : bkey) (f : book -> book) (b : book) : book :=
  if bool_decide (key_of b = k) then f b else b.

(** Path, name and extension of the row the scan records for a file. *)
Definition v_ident (v : visit) : string * string * string := (fst v, v_name v, v_ext v).

(** Rows of [c], some of them marked deleted for the time being: those
    whose key is in [pend]. *)
Definition pending (pend : gset bkey) (c : list book) : list book :=
  List.map (fun r => if bool_decide (key_of r ∈ pend) then set_deleted true r else r) c.

(** Before the scan, the catalog knows the file [v] that speaks for the
    key [k], or it has no row of that key at all. *)
Definition key_anchored (c : list book) (k : bkey) (v : visit) : Prop :=
  (exists r, In r c /\ ident r = v_ident v) \/ (forall r, In r c -> key_of r <> k).

Section ScanNotions.

Variable cfg : Config.
Variable fs : HostFS.

(** The first file among [vs] that the scan records under the key [k]: it
    is the one [add_or_update_book] is called for; later files of the same
    key are passed over. *)
Definition first_live (vs : list visit) (k : bkey) : option visit :=
  List.find (fun v => (v_live fs v && bool_decide (v_key v = k))%bool) vs.

(** The keys [processed_books] holds after the files [vs]. *)
Definition live_keys (vs : list visit) : gset bkey :=
  list_to_set (List.map v_key (List.filter (v_live fs) vs)).

(** The two sets of [scan_library] after the files [pre]: the keys met
    alive, and the keys of the catalog less those. *)
Definition sets_after (K0 : gset bkey) (pre : list visit) (st : scan_vars * list book) : Prop :=
  fst st = (K0 ∖ live_keys pre, live_keys pre).

(** The catalog [c] already says what a scan over the files [vs] would
    make it say: every key has the row of the file that speaks for it and
    all the rows of that key are live with that file's transferability;
    the rows of the keys no file speaks for are marked deleted. *)
Definition settled (vs : list visit) (c : list book) : Prop :=
  (forall k v, first_live vs k = Some v ->
     (exists r, In r c /\ ident r = v_ident v) /\
     (forall r, In r c -> key_of r = k ->
        deleted r = false /\ transferable r = is_transferable cfg (v_ext v)))
  /\
  (forall r, In r c -> first_live vs (key_of r) = None -> deleted r = true).

(** The state of the walk over a settled catalog, after the files [pre]:
    the catalog itself, but for rows that a missing file has marked and
    whose speaking file is still to come. *)
Definition fixed_inv (vs : list visit) (c : list book) (pre : list visit)
    (st : scan_vars * list book) : Prop :=
  sets_after (list_to_set (List.map key_of c)) pre st /\
  exists pend : gset bkey, pend ## live_keys pre /\ snd st = pending pend c.

(** Every key the files [vs] speak for is anchored in [c]. *)
Definition known_or_fresh (vs : list visit) (c : list book) : Prop :=
  forall k v, first_live vs k = Some v -> key_anchored c k v.

(** The state of the walk over the catalog [c], after the files [pre]:
    every file that has spoken has its row; the rows of an anchored key
    that has been spoken for are live with the file's transferability;
    rows of keys not yet spoken for are rows of [c]; no row of [c] is
    lost. *)
Definition post_inv (c : list book) (pre : list visit) (st : scan_vars * list book) : Prop :=
  sets_after (list_to_set (List.map key_of c)) pre st /\
  (forall k v, first_live pre k = Some v -> exists r, In r (snd st) /\ ident r = v_ident v) /\
  (forall k v, first_live pre k = Some v -> key_anchored c k v ->
     forall r, In r (snd st) -> key_of r = k ->
       deleted r = false /\ transferable r = is_transferable cfg (v_ext v)) /\
  (forall r, In r (snd st) -> key_of r ∉ live_keys pre ->
     exists r0, In r0 c /\ ident r0 = ident r) /\
  (forall r0, In r0 c -> exists r, In r (snd st) /\ ident r = ident r0).

End ScanNotions.

(** The columns no statement of the scan writes to, once a row is
    there. *)
Definition id_read (b : book) : string * string * string * bool := (ident b, read b).

(** [bs'] has the rows of [bs] in their places, with the same path, name,
    extension and [read], followed by new rows, which are unread. *)
Definition kept (bs bs' : list book) : Prop :=
  exists extra,
    List.map id_read bs' = (List.map id_read bs ++ extra)%list /\
    Forall (fun x => snd x = false) extra.

(** [m] keeps the rows in that sense, in every state of the store. *)
Definition lkeeps {A} (m : L A) : Prop :=
  forall s, kept (books s) (books (snd (m s))).

(** [m] keeps the property [I] of the store, however its statements
    fare. *)
Definition lstable {A} (I : LibState -> Prop) (m : L A) : Prop :=
  forall s, I s -> I (snd (m s)).

(** [m] keeps the property [I] of the world, however it ends. *)
Definition mstable {A} (I : World -> Prop) (m : M A) : Prop :=
  forall w, I w -> I (snd (m w)).

(** The [UNIQUE(file_path, file_name, file_extension)] constraint. *)
Definition unique_rows (bs : list book) : Prop := NoDup (List.map ident bs).

(** The rows of the reader's content database. *)
Definition device_rows (w : World) : gmap string Z := content (kobo w).

(** Every row of [bs] is still in its place in [bs'], with its path, name
    and extension, and still read if it was. *)
Definition never_lost (bs bs' : list book) : Prop :=
  forall i r, bs !! i = Some r ->
    exists r', bs' !! i = Some r' /\ ident r' = ident r /\ (read r = true -> read r' = true).

(** The state of the walk after the files [pre]: every file that has
    spoken has its row, live and with the file's transferability. *)
Definition live_inv (cfg : Config) (fs : HostFS) (c : list book) (pre : list visit)
    (st : scan_vars * list book) : Prop :=
  sets_after fs (list_to_set (List.map key_of c)) pre st /\
  (forall k v, first_live fs pre k = Some v ->
     exists r, In r (snd st) /\ ident r = v_ident v /\
               deleted r = false /\ transferable r = is_transferable cfg (v_ext v)).

(** What [mark_book_as_read] does to a row. *)
Definition mark_read_row (p n e : string) (b : book) : book :=
  if same_row p n e b then set_read true b else b.

(** [m] returns in every state: it raises nothing. *)
Definition returns {A} (m : M A) : Prop :=
  forall w, exists a w', m w = (Returned a, w').

(** Every file of [sd] is still on the removable storage of [w]; its
    bytes may have been replaced. *)
Definition files_kept (sd : gmap string string) (w : World) : Prop :=
  forall f, is_Some (sd !! f) -> is_Some (sdcard w !! f).

(** [Path(file_path).relative_to(correct_library_path)] does not raise for
    the book: the library root that the prefix test picks for its
    directory, if any, is a prefix of it component by component. *)
Definition groupable (cfg : Config) (fs : HostFS) (b : bookref) : bool :=
  match find_library_path cfg fs (fst (fst b)) with
  | None => true
  | Some correct_library_path =>
      match Py.relative_to (Py.Path (fst (fst b))) correct_library_path with
      | Some _ => true
      | None => false
      end
  end.

(** What the grouping loop of [transfer_books] keeps of
    [books_by_directory]: no directory without a book, and only books for
    which [relative_to] does not raise. *)
Definition groups_ok (cfg : Config) (fs : HostFS) (g : list (string * list bookref)) : Prop :=
  Forall (fun entry => snd entry <> [] /\
                       Forall (fun b => groupable cfg fs b = true) (snd entry)) g.

(** The directory on the removable storage that the grouping loop of
    [transfer_books] files a book under, when it files it. *)
Definition destination_of (cfg : Config) (fs : HostFS) (b : bookref) : option string :=
  match find_library_path cfg fs (fst (fst b)) with
  | None => None
  | Some correct_library_path =>
      match Py.relative_to (Py.Path (fst (fst b))) correct_library_path with
      | Some relative_path => Some (Py.join (sdcard_path cfg) [Py.path_str relative_path])
      | None => None
      end
  end.

(** [books_by_directory.get(d, [])] *)
Definition group_of (g : list (string * list bookref)) (d : string) : list bookref :=
  match List.find (fun entry => String.eqb (fst entry) d) g with
  | Some entry => snd entry
  | None => []
  end.

(** [w'] is [w] with entries added to the log, and nothing else
    changed. *)
Definition only_logged (w w' : World) : Prop :=
  exists l, w' = with_lib (with_llog (llog (lib w) ++ l) (lib w)) w.

(** What the four checks of [run] before the first connection ask of the
    host: the mount point of the reader, its database, the mount point of
    the removable storage, and the working directory there or the
    possibility of creating it. *)
Definition device_in_place (cfg : Config) (fs : HostFS) : bool :=
  (path_exists fs (KoboDevice.device_path cfg) && path_exists fs (KoboDevice.db_path cfg)
   && path_exists fs (device_sdcard cfg)
   && (path_exists fs (sdcard_path cfg) || makedirs_ok fs (sdcard_path cfg)))%bool.

(** ** Sample configurations, file systems and worlds *)

Module Sample.

Definition config (transferable : list string) : Config :=
  {| cfg_device_path := "/run/media/u/KOBOeReader";
     cfg_device_db := ".kobo/KoboReader.sqlite";
     cfg_device_sdcard := "/sd";
     cfg_library_db := "/home/u/.config/kobomanager/kobomanager.sqlite";
     cfg_library_paths := ["/lib"];
     cfg_transferable_formats := transferable |}.

Definition lookup_file {A} (files : list (string * A)) (p : string) : option A :=
  snd <$> List.find (fun f => String.eqb (fst f) p) files.

(** A host with the regular files [files] (path and bytes), of which
    [archives] can be opened as archives with the listed members, and
    whose library root ["/lib"] has the directories [tree] (directory and
    file names, as [os.walk] yields them). *)
Definition host (files : list (string * string))
    (archives : list (string * list (string * string)))
    (tree : list (string * list string)) : HostFS :=
  {| home := "/home/u";
     path_exists := fun p =>
       (Py.str_in p ["/lib"; "/home/u/.config/kobomanager"] || Py.str_in p (List.map fst files))%bool;
     getsize := fun p =>
       match lookup_file files p with
       | Some d => Py.zlen d
       | None => 0
       end;
     walk := fun top => if String.eqb top "/lib" then tree else [];
     file_data := lookup_file files;
     archive_members := fun p =>
       match lookup_file archives p with
       | Some ms => Returned ms
       | None => Raised ArchiveError
       end;
     makedirs_ok := fun _ => true;
     sqlite_opens := fun _ => true;
     remove_ok := fun _ => true |}.

Definition row (p n e : string) (r d t : bool) : book :=
  {| file_path := p; file_name := n; file_extension := e;
     read := r; deleted := d; transferable := t |}.

Definition store (bs : list book) (fl : list bool) : LibState :=
  {| conn := true; books := bs; faults := fl; llog := [] |}.

Definition world (bs : list book) (rows : list (string * Z)) (sd : list (string * string))
    (rd : list (option Z)) : World :=
  {| lib := store bs [];
     kobo := {| kconn := true; content := list_to_map rows; kfaults := [] |};
     sdcard := list_to_map sd;
     readings := rd |}.

End Sample.

(** A host on which the directory of the catalog store is missing and
    cannot be created. *)
Definition locked_host : HostFS :=
  {| home := "/home/u";
     path_exists := fun _ => false;
     getsize := fun _ => 0;
     walk := fun _ => [];
     file_data := fun _ => None;
     archive_members := fun _ => Raised OSError;
     makedirs_ok := fun _ => false;
     sqlite_opens := fun _ => true;
     remove_ok := fun _ => true |}.

(** A host on which the catalog store cannot be opened. *)
Definition unopenable_host : HostFS :=
  {| home := "/home/u";
     path_exists := fun _ => true;
     getsize := fun _ => 0;
     walk := fun _ => [];
     file_data := fun _ => None;
     archive_members := fun _ => Raised OSError;
     makedirs_ok := fun _ => true;
     sqlite_opens := fun _ => false;
     remove_ok := fun _ => true |}.

(** A device that holds the row of [/lib/sf/dune.epub] with [status]. *)
Definition dune_world (status : Z) (sd : list (string * string)) : World :=
  Sample.world [Sample.row "/lib/sf" "dune" "epub" false false true]
    [("file:///mnt/sd/kobomanager/sf/dune.epub", status)] sd [].

(** A library with one comic archive, which is not on the device yet, and
    a removable storage with room for it. *)
Definition comic_members : list (string * string) :=
  [("page1.jpg", "jpeg-1"); ("page2.jpg", "jpeg-2")].

Definition comic_host : HostFS :=
  Sample.host [("/lib/comics/comic.cbz", "PK-container-bytes")]
    [("/lib/comics/comic.cbz", comic_members)]
    [("/lib/comics", ["comic.cbz"])].

Definition comic_world : World :=
  Sample.world [Sample.row "/lib/comics" "comic" "cbz" false false true] [] []
    [Some 100; Some 100; Some 82].

(** A directory with a small transferable book and a large one whose
    extension is not in the transferable set although its catalog row says
    [transferable]. *)
Definition gates_host : HostFS :=
  Sample.host [("/lib/a/small.epub", "1"); ("/lib/a/big.pdf", "12345")] [] [].

Definition gates_world : World :=
  Sample.world [Sample.row "/lib/a" "small" "epub" false false true;
                Sample.row "/lib/a" "big" "pdf" false false true] [] []
    [Some 10; Some 3; Some 2].

(** Two directories: [a] with one book of six bytes, [b] with two books
    of three bytes each. Ten bytes are free at first, four after the copy
    into [a]. *)
Definition two_dirs_host : HostFS :=
  Sample.host [("/lib/a/x.epub", "xxxxxx"); ("/lib/b/y.epub", "yyy"); ("/lib/b/z.epub", "zzz")]
    [] [].

Definition two_dirs_world : World :=
  Sample.world [Sample.row "/lib/a" "x" "epub" false false true;
                Sample.row "/lib/b" "y" "epub" false false true;
                Sample.row "/lib/b" "z" "epub" false false true] [] []
    [Some 10; Some 10; Some 4; Some 4; Some 1].

Definition dir_b : string * list bookref :=
  ("/sd/kobomanager/b", [("/lib/b", "y", "epub"); ("/lib/b", "z", "epub")]).

(** A library root with two books. *)
Definition two_books_host : HostFS :=
  Sample.host [("/lib/a.epub", "aaa"); ("/lib/b.epub", "bbb")] []
    [("/lib", ["a.epub"; "b.epub"])].

(** A library root that holds the files [names], each with the bytes
    ["data"]. *)
Definition flat_host (names : list string) : HostFS :=
  Sample.host (List.map (fun f => (Py.join "/lib" [f], "data")) names) [] [("/lib", names)].

(** A host with the reader mounted, its database and the removable
    storage in place, and a library root that holds the files [names],
    each with the bytes ["data"]. *)
Definition device_host (names : list string) : HostFS :=
  {| home := "/home/u";
     path_exists := fun p =>
       (Py.str_in p ["/run/media/u/KOBOeReader";
                     "/run/media/u/KOBOeReader/.kobo/KoboReader.sqlite";
                     "/sd"; "/sd/kobomanager"; "/lib"; "/home/u/.config/kobomanager";
                     "/home/u/.config/kobomanager/kobomanager.sqlite"]
        || Py.str_in p (List.map (fun f => Py.join "/lib" [f]) names))%bool;
     getsize := fun p =>
       if Py.str_in p (List.map (fun f => Py.join "/lib" [f]) names) then 4 else 0;
     walk := fun top => if String.eqb top "/lib" then [("/lib", names)] else [];
     file_data := fun p =>
       if Py.str_in p (List.map (fun f => Py.join "/lib" [f]) names) then Some "data" else None;
     archive_members := fun _ => Raised ArchiveError;
     makedirs_ok := fun _ => true;
     sqlite_opens := fun _ => true;
     remove_ok := fun _ => true |}.

(** A host on which nothing can be removed from the removable storage
    (a card mounted read-only, say). *)
Definition stuck_host : HostFS :=
  {| home := "/home/u";
     path_exists := fun p => Py.str_in p ["/lib"; "/home/u/.config/kobomanager"];
     getsize := fun _ => 0;
     walk := fun _ => [];
     file_data := fun _ => None;
     archive_members := fun _ => Raised ArchiveError;
     makedirs_ok := fun _ => true;
     sqlite_opens := fun _ => true;
     remove_ok := fun _ => false |}.

(** The state of a process that has not connected to anything, with one
    book on the device, finished there. *)
Definition fresh_world : World :=
  {| lib := {| conn := false; books := []; faults := []; llog := [] |};
     kobo := {| kconn := false;
                content := {[ "file:///mnt/sd/kobomanager/./a.epub" := 2 ]};
                kfaults := [] |};
     sdcard := ∅;
     readings := [Some 100; Some 100; Some 96; Some 92] |}.

(** * Properties *)

(** ** The string and path primitives on examples *)

Example lower_ex : Py.lower "Book.EPUB" = "book.epub".
Proof. reflexivity. Qed.

Example splitext_ex1 : Py.splitext "a.b.epub" = ("a.b", ".epub").
Proof. reflexivity. Qed.

Example splitext_ex2 : Py.splitext "..epub" = ("..epub", "").
Proof. reflexivity. Qed.

Example splitext_ex3 : Py.splitext "noext" = ("noext", "").
Proof. reflexivity. Qed.

Example join_ex : Py.join "/sd/kobomanager" ["sub"; "b.epub"] = "/sd/kobomanager/sub/b.epub".
Proof. reflexivity. Qed.

Example relative_to_ex1 :
  Py.path_str <$> Py.relative_to (Py.Path "/home/u/Documents/sf/x") "/home/u/Documents" = Some "sf/x".
Proof. reflexivity. Qed.

Example relative_to_ex2 :
  Py.path_str <$> Py.relative_to (Py.Path "/home/u/Documents") "/home/u/Documents/" = Some ".".
Proof. reflexivity. Qed.

Example relative_to_ex3 :
  Py.relative_to (Py.Path "/home/u/Documents") "/home/u/Doc" = None.
Proof. reflexivity. Qed.

Example dirname_ex : Py.dirname "/home/u/.config/kobomanager/kobomanager.sqlite" = "/home/u/.config/kobomanager".
Proof. reflexivity. Qed.

Example dirname_ex2 : Py.dirname "kobomanager.sqlite" = "".
Proof. reflexivity. Qed.

(** ** [Library.connect] *)

(** When [sqlite3.connect] fails, [connect] returns [False] and leaves no
    connection. *)
Lemma connect_store_unopenable cfg fs s :
  (path_exists fs (Py.dirname (library_db_path cfg fs)) = true \/
   makedirs_ok fs (Py.dirname (library_db_path cfg fs)) = true) ->
  sqlite_opens fs (library_db_path cfg fs) = false ->
  fst (connect cfg fs s) = Returned false /\ conn (snd (connect cfg fs s)) = false.
Proof.
  intros Hdir Hopen. unfold connect. rewrite Hopen.
  destruct Hdir as [-> | ->]; simpl; rewrite ?andb_false_r; simpl; auto.
Qed.

Lemma connect_store_unopenable_witness :
  fst (connect (Sample.config []) unopenable_host (Sample.store [] [])) = Returned false /\
  conn (snd (connect (Sample.config []) unopenable_host (Sample.store [] []))) = false.
Proof.
  apply (connect_store_unopenable (Sample.config []) unopenable_host (Sample.store [] []));
    [left; reflexivity | reflexivity].
Defined.

(** When the directory of the store is missing and [os.makedirs] fails,
    the [OSError] leaves [connect]: the only handler is for
    [sqlite3.Error]. *)
Lemma connect_directory_uncreatable cfg fs s :
  path_exists fs (Py.dirname (library_db_path cfg fs)) = false ->
  makedirs_ok fs (Py.dirname (library_db_path cfg fs)) = false ->
  connect cfg fs s = (Raised OSError, s).
Proof. intros He Hm. unfold connect. now rewrite He, Hm. Qed.

Lemma connect_directory_uncreatable_witness :
  connect (Sample.config []) locked_host (Sample.store [] []) = (Raised OSError, Sample.store [] []).
Proof.
  apply (connect_directory_uncreatable (Sample.config []) locked_host (Sample.store [] []));
    reflexivity.
Defined.

(** C9. [Library.connect] is claimed to return a failure value whenever the
    store cannot be opened or its directory cannot be created. On a host
    where the directory is missing and cannot be created, the call raises
    [OSError] instead of returning. *)
Theorem C9_connect_raises_when_directory_uncreatable :
  fst (connect (Sample.config []) locked_host (Sample.store [] [])) = Raised OSError.
Proof. reflexivity. Qed.

(** ** [KoboDevice.book_exists_and_unread] *)

Lemma kobo_select_ready cid w :
  kobo_ready (kobo w) ->
  exists w', kobo_select_read_status cid w =
               (Returned (Some (match content (kobo w) !! cid with
                                | Some st => [st]
                                | None => []
                                end)), w')
             /\ lib w' = lib w /\ sdcard w' = sdcard w /\ content (kobo w') = content (kobo w).
Proof.
  intros [Hc Hf]. unfold kobo_select_read_status. rewrite Hc. simpl.
  destruct (kfaults (kobo w)) as [|[] rest] eqn:E; simpl in Hf; try discriminate;
    eexists; split; try reflexivity; simpl; auto.
Qed.

Lemma book_exists_and_unread_ready cfg fs p n e w root rel :
  kobo_ready (kobo w) ->
  find_library_path cfg fs p = Some root ->
  Py.relative_to (Py.Path p) root = Some rel ->
  exists w',
    book_exists_and_unread cfg fs p n e w =
      (Returned (match content (kobo w) !! content_id_of rel n e with
                 | Some st => st =? 0
                 | None => false
                 end), w')
    /\ books (lib w') = books (lib w) /\ sdcard w' = sdcard w.
Proof.
  intros Hready Hroot Hrel.
  unfold book_exists_and_unread. rewrite Hroot. unfold relative_path_of. rewrite Hrel.
  unfold mbind at 1. unfold mret at 1. unfold mbind at 1.
  destruct (kobo_select_ready (content_id_of rel n e) w Hready) as (w' & -> & Hl & Hs & _).
  destruct (content (kobo w) !! content_id_of rel n e) as [st|]; simpl;
    (eexists; split; [reflexivity|]); simpl; rewrite Hl, Hs; auto.
Qed.

Lemma kobo_select_not_ready cid w :
  kconn (kobo w) = false \/ hd false (kfaults (kobo w)) = true ->
  exists w', kobo_select_read_status cid w = (Returned None, w').
Proof.
  unfold kobo_select_read_status. intros [Hc|Hf].
  - rewrite Hc. eexists. reflexivity.
  - destruct (kconn (kobo w)); cbn [negb]; [|eexists; reflexivity].
    destruct (kfaults (kobo w)) as [|[] rest]; cbn in Hf; try discriminate.
    eexists. reflexivity.
Qed.




Example book_exists_and_unread_row_unread :
  fst (book_exists_and_unread (Sample.config ["epub"]) (Sample.host [] [] [])
         "/lib/sf" "dune" "epub" (dune_world 0 [])) = Returned true.
Proof. reflexivity. Qed.

Example book_exists_and_unread_row_read :
  fst (book_exists_and_unread (Sample.config ["epub"]) (Sample.host [] [] [])
         "/lib/sf" "dune" "epub" (dune_world 2 [])) = Returned false.
Proof. reflexivity. Qed.

Example book_exists_and_unread_row_absent :
  fst (book_exists_and_unread (Sample.config ["epub"]) (Sample.host [] [] [])
         "/lib/sf" "arrakis" "epub" (dune_world 0 [])) = Returned false.
Proof. reflexivity. Qed.

(** ** [KoboDevice.mark_book_as_read_in_kobo] *)

Lemma execute_query_ready {A} (q : stmt A) s :
  lib_ready s ->
  exists s', execute_query q s = (Some (fst (q (books s))), s')
             /\ books s' = snd (q (books s)) /\ llog s' = llog s /\ conn s' = conn s.
Proof.
  intros [Hc Hf]. unfold execute_query. rewrite Hc. simpl.
  destruct (faults s) as [|[] rest]; simpl in Hf; try discriminate;
    destruct (q (books s)) as [r bs]; eexists; (split; [reflexivity|]); simpl; auto.
Qed.

Lemma execute_query_not_ready {A} (q : stmt A) s :
  conn s = false \/ hd false (faults s) = true ->
  fst (execute_query q s) = None /\ books (snd (execute_query q s)) = books s.
Proof.
  unfold execute_query. intros [Hc|Hf].
  - rewrite Hc. cbn. auto.
  - destruct (conn s); cbn [negb]; [|cbn; auto].
    destruct (faults s) as [|[] rest]; cbn in Hf; try discriminate. cbn. auto.
Qed.

Lemma mbind_returned {A B} (m : M A) (k : A -> M B) w a w' :
  m w = (Returned a, w') -> mbind m k w = k a w'.
Proof. intros H. unfold mbind. now rewrite H. Qed.

Lemma mbind_raised {A B} (m : M A) (k : A -> M B) w e w' :
  m w = (Raised e, w') -> mbind m k w = (Raised e, w').
Proof. intros H. unfold mbind. now rewrite H. Qed.

Lemma lift_run {A} (m : L A) w a s :
  m (lib w) = (a, s) -> lift m w = (Returned a, with_lib s w).
Proof. intros H. unfold lift. now rewrite H. Qed.

(** One step of a sequence whose first action is known to return. *)
Ltac mstep H := rewrite (mbind_returned _ _ _ _ _ H).
Ltac mstep_refl := erewrite mbind_returned by reflexivity.

Lemma mark_book_as_read_in_kobo_row_read cfg fs p n e w root rel st :
  kobo_ready (kobo w) ->
  find_library_path cfg fs p = Some root ->
  Py.relative_to (Py.Path p) root = Some rel ->
  content (kobo w) !! content_id_of rel n e = Some st ->
  st <> 0 ->
  let f := Py.join (sdcard_path cfg) [Py.path_str rel; n +:+ "." +:+ e] in
  exists w',
    mark_book_as_read_in_kobo cfg fs p n e w = (Returned None, w') /\
    (lib_ready (lib w) ->
     books (lib w') =
       List.map (fun b => if same_row p n e b then set_read true b else b) (books (lib w))) /\
    (conn (lib w) = false \/ hd false (faults (lib w)) = true ->
     books (lib w') = books (lib w)) /\
    sdcard w' = (if remove_ok fs f then delete f (sdcard w) else sdcard w) /\
    exists l, wlog w' =
      (l ++ [match sdcard w !! f with
             | Some _ =>
                 if remove_ok fs f then Log INFO "Deleted file from SD card" [f] []
                 else Log ERROR "Error deleting file" [f] []
             | None => Log WARNING "File not found on SD card" [f] []
             end])%list.
Proof.
  intros Hk Hroot Hrel Hrow Hst f.
  unfold mark_book_as_read_in_kobo. rewrite Hroot. unfold relative_path_of. rewrite Hrel.
  mstep_refl.
  destruct (kobo_select_ready (content_id_of rel n e) w Hk) as (w1 & Hsel & Hl1 & Hs1 & _).
  mstep Hsel. rewrite Hrow.
  destruct (Z.eqb_spec st 0) as [|_]; [contradiction|]. cbn [negb].
  mstep_refl.
  set (w2 := with_lib _ w1).
  assert (Hready2 : lib_ready (lib w) -> lib_ready (lib w2)).
  { subst w2. cbn. rewrite Hl1. auto. }
  assert (Hnot2 : conn (lib w) = false \/ hd false (faults (lib w)) = true ->
                  conn (lib w2) = false \/ hd false (faults (lib w2)) = true).
  { subst w2. cbn. rewrite Hl1. auto. }
  assert (Hb2 : books (lib w2) = books (lib w)).
  { subst w2. cbn. now rewrite Hl1. }
  unfold mark_book_as_read.
  destruct (execute_query (sql_mark_read p n e) (lib w2)) as [r s3] eqn:Hq.
  rewrite (mbind_returned _ _ _ _ _ (lift_run _ _ _ _ Hq)).
  assert (Hcat1 : lib_ready (lib w) ->
                  books s3 =
                    List.map (fun b => if same_row p n e b then set_read true b else b)
                      (books (lib w))).
  { intros H.
    destruct (execute_query_ready (sql_mark_read p n e) (lib w2) (Hready2 H))
      as (s3' & Hq' & Hb3 & _).
    rewrite Hq in Hq'. injection Hq' as _ <-. rewrite Hb3, Hb2. reflexivity. }
  assert (Hcat2 : conn (lib w) = false \/ hd false (faults (lib w)) = true ->
                  books s3 = books (lib w)).
  { intros H.
    destruct (execute_query_not_ready (sql_mark_read p n e) (lib w2) (Hnot2 H)) as [_ Hb].
    rewrite Hq in Hb. cbn [snd] in Hb. now rewrite Hb, Hb2. }
  fold f.
  unfold mbind at 1. cbn [sdcard with_lib]. subst w2. cbn [sdcard with_lib]. rewrite Hs1.
  destruct (sdcard w !! f) as [data|] eqn:Hfile; [destruct (remove_ok fs f)|];
    unfold logging, mret; (eexists; split; [reflexivity|]);
    cbn [fst snd sdcard with_sdcard with_lib lib books llog with_llog]; rewrite ?Hs1;
    (split; [exact Hcat1|]); (split; [exact Hcat2|]);
    (split; [|unfold wlog; cbn [fst snd sdcard with_sdcard with_lib lib books llog with_llog];
              eexists; reflexivity]).
  - reflexivity.
  - reflexivity.
  - destruct (remove_ok fs f); [now rewrite delete_id | reflexivity].
Qed.

Lemma mark_book_as_read_in_kobo_row_unread cfg fs p n e w root rel :
  kobo_ready (kobo w) ->
  find_library_path cfg fs p = Some root ->
  Py.relative_to (Py.Path p) root = Some rel ->
  (content (kobo w) !! content_id_of rel n e = None \/
   content (kobo w) !! content_id_of rel n e = Some 0) ->
  exists w',
    mark_book_as_read_in_kobo cfg fs p n e w = (Returned None, w') /\
    books (lib w') = books (lib w) /\ sdcard w' = sdcard w.
Proof.
  intros Hk Hroot Hrel Hrow.
  unfold mark_book_as_read_in_kobo. rewrite Hroot. unfold relative_path_of. rewrite Hrel.
  mstep_refl.
  destruct (kobo_select_ready (content_id_of rel n e) w Hk) as (w1 & Hsel & Hl1 & Hs1 & _).
  mstep Hsel.
  destruct Hrow as [-> | ->]; cbn; (eexists; split; [reflexivity|]); cbn;
    rewrite Hl1, Hs1; auto.
Qed.

(** C7 (as amended). With the device database answering the query: when
    the row of the book's content identifier exists with a status other
    than [0], [mark_book_as_read_in_kobo] returns normally;
    it runs the [UPDATE] that sets [read] on the catalog rows of that
    path, name and extension, which are set when the catalog executes the
    statement and stay as they are when it does not (the result is not
    looked at); and it goes on to the book's file in the working
    directory on the removable storage: a file that is there is removed
    when [os.remove] succeeds; when [os.remove] raises [OSError] the
    error is logged and the file stays; when the file is already missing
    a warning is logged and the storage stays as it is. When the row is
    absent or has status [0], catalog and storage are unchanged. *)
Theorem C7_mark_book_as_read_in_kobo cfg fs p n e w :
  kobo_ready (kobo w) ->
  (forall cid st f,
     book_content_id cfg fs p n e = Some cid ->
     book_sdcard_file cfg fs p n e = Some f ->
     content (kobo w) !! cid = Some st -> st <> 0 ->
     let r := mark_book_as_read_in_kobo cfg fs p n e w in
     fst r = Returned None /\
     (lib_ready (lib w) ->
      books (lib (snd r)) =
        List.map (fun b => if same_row p n e b then set_read true b else b) (books (lib w))) /\
     (conn (lib w) = false \/ hd false (faults (lib w)) = true ->
      books (lib (snd r)) = books (lib w)) /\
     (is_Some (sdcard w !! f) -> remove_ok fs f = true ->
      sdcard (snd r) = delete f (sdcard w)) /\
     (is_Some (sdcard w !! f) -> remove_ok fs f = false ->
      sdcard (snd r) = sdcard w /\
      exists l, wlog (snd r) = (l ++ [Log ERROR "Error deleting file" [f] []])%list) /\
     (sdcard w !! f = None ->
      sdcard (snd r) = sdcard w /\
      exists l, wlog (snd r) = (l ++ [Log WARNING "File not found on SD card" [f] []])%list))
  /\
  ((forall cid, book_content_id cfg fs p n e = Some cid ->
      content (kobo w) !! cid = None \/ content (kobo w) !! cid = Some 0) ->
   let r := mark_book_as_read_in_kobo cfg fs p n e w in
   books (lib (snd r)) = books (lib w) /\ sdcard (snd r) = sdcard w).
Proof.
  intros Hk.
  unfold book_content_id, book_sdcard_file.
  destruct (find_library_path cfg fs p) as [root|] eqn:Hroot.
  2:{ split; [intros cid st f H; discriminate|]. intros _.
      unfold mark_book_as_read_in_kobo. rewrite Hroot. simpl. auto. }
  destruct (Py.relative_to (Py.Path p) root) as [rel|] eqn:Hrel.
  2:{ split; [intros cid st f H; discriminate|]. intros _.
      unfold mark_book_as_read_in_kobo, relative_path_of. rewrite Hroot, Hrel. simpl. auto. }
  split.
  - intros cid st f Hcid Hf Hrow Hst. injection Hcid as <-. injection Hf as <-.
    destruct (mark_book_as_read_in_kobo_row_read cfg fs p n e w root rel st
                Hk Hroot Hrel Hrow Hst) as (w' & Hrun & Hb1 & Hb2 & Hs & l & Hlog).
    rewrite Hrun. cbn [fst snd].
    unfold Py.join in Hs, Hlog. cbn [fold_left] in Hs, Hlog.
    split; [reflexivity|]. split; [exact Hb1|]. split; [exact Hb2|].
    split; [|split].
    + intros _ Hrm. rewrite Hs, Hrm. reflexivity.
    + intros [d Hd] Hrm. rewrite Hs, Hrm. split; [reflexivity|].
      exists l. rewrite Hlog, Hd, Hrm. reflexivity.
    + intros Hnone. split.
      * rewrite Hs. destruct (remove_ok fs _); [now apply delete_id | reflexivity].
      * exists l. rewrite Hlog, Hnone. reflexivity.
  - intros Hrow. specialize (Hrow _ eq_refl).
    destruct (mark_book_as_read_in_kobo_row_unread cfg fs p n e w root rel
                Hk Hroot Hrel Hrow) as (w' & Hrun & Hb & Hs).
    rewrite Hrun. auto.
Qed.

Lemma C7_mark_book_as_read_in_kobo_witness :
  kobo_ready (kobo (dune_world 2 [("/sd/kobomanager/sf/dune.epub", "bytes")])) /\
  lib_ready (lib (dune_world 2 [("/sd/kobomanager/sf/dune.epub", "bytes")])) /\
  (let r := mark_book_as_read_in_kobo (Sample.config ["epub"]) (Sample.host [] [] [])
              "/lib/sf" "dune" "epub"
              (dune_world 2 [("/sd/kobomanager/sf/dune.epub", "bytes")]) in
   fst r = Returned None /\
   books (lib (snd r)) = [Sample.row "/lib/sf" "dune" "epub" true false true] /\
   sdcard (snd r) !! "/sd/kobomanager/sf/dune.epub" = None).
Proof.
  split; [split; reflexivity|]. split; [split; reflexivity|].
  destruct (C7_mark_book_as_read_in_kobo (Sample.config ["epub"]) (Sample.host [] [] [])
              "/lib/sf" "dune" "epub"
              (dune_world 2 [("/sd/kobomanager/sf/dune.epub", "bytes")]))
    as [H _]; [split; reflexivity |].
  destruct (H "file:///mnt/sd/kobomanager/sf/dune.epub" 2 "/sd/kobomanager/sf/dune.epub"
              eq_refl eq_refl eq_refl) as (H1 & H2 & _ & H3 & _); [discriminate|].
  split; [exact H1|]. split; [apply H2; split; reflexivity|].
  rewrite H3; [apply lookup_delete_eq | eexists; reflexivity | reflexivity].
Defined.

(** C7 (as stated) fails. The device holds the row of [/lib/sf/dune.epub]
    with status [2] and the copy is on the removable storage, but the
    [UPDATE] on the catalog raises [sqlite3.Error]: the file is removed,
    and the catalog record is still unread. *)
Lemma C7_counterexample :
  let cfg := Sample.config ["epub"] in
  let fs := Sample.host [] [] [] in
  let w := with_lib (Sample.store [Sample.row "/lib/sf" "dune" "epub" false false true] [true])
             (dune_world 2 [("/sd/kobomanager/sf/dune.epub", "bytes")]) in
  let r := mark_book_as_read_in_kobo cfg fs "/lib/sf" "dune" "epub" w in
  (book_content_id cfg fs "/lib/sf" "dune" "epub"
     = Some "file:///mnt/sd/kobomanager/sf/dune.epub" /\
   content (kobo w) !! "file:///mnt/sd/kobomanager/sf/dune.epub" = Some 2 /\
   fst r = Returned None /\
   sdcard (snd r) !! "/sd/kobomanager/sf/dune.epub" = None /\
   books (lib (snd r)) = [Sample.row "/lib/sf" "dune" "epub" false false true]) /\
  ~ (forall b, In b (books (lib (snd r))) ->
               same_row "/lib/sf" "dune" "epub" b = true -> read b = true).
Proof.
  cbv zeta. split.
  - repeat split; vm_compute; reflexivity.
  - intros H.
    specialize (H (Sample.row "/lib/sf" "dune" "epub" false false true)).
    assert (Hfalse : false = true); [|discriminate].
    apply H; [vm_compute; left; reflexivity | reflexivity].
Qed.

Example mark_book_as_read_in_kobo_file_missing :
  let r := mark_book_as_read_in_kobo (Sample.config ["epub"]) (Sample.host [] [] [])
             "/lib/sf" "dune" "epub" (dune_world 2 []) in
  fst r = Returned None /\
  wlog (snd r) =
    [Log INFO "Book is marked as read in Kobo database. Updating local library and deleting file from sdcard."
       ["file:///mnt/sd/kobomanager/sf/dune.epub"] [];
     Log WARNING "File not found on SD card" ["/sd/kobomanager/sf/dune.epub"] []].
Proof. split; reflexivity. Qed.

(** The removal fails: the record is marked read, the error is logged and
    the file is still on the removable storage. *)
Example mark_book_as_read_in_kobo_removal_fails :
  let w := dune_world 2 [("/sd/kobomanager/sf/dune.epub", "bytes")] in
  let r := mark_book_as_read_in_kobo (Sample.config ["epub"]) stuck_host
             "/lib/sf" "dune" "epub" w in
  fst r = Returned None /\
  books (lib (snd r)) = [Sample.row "/lib/sf" "dune" "epub" true false true] /\
  sdcard (snd r) = sdcard w /\
  wlog (snd r) =
    [Log INFO "Book is marked as read in Kobo database. Updating local library and deleting file from sdcard."
       ["file:///mnt/sd/kobomanager/sf/dune.epub"] [];
     Log ERROR "Error deleting file" ["/sd/kobomanager/sf/dune.epub"] []].
Proof. cbv zeta. repeat split; vm_compute; reflexivity. Qed.

(** ** Strings that cannot name a directory *)

Lemma rev_app_append s1 s2 acc :
  String.rev_app (s1 +:+ s2) acc = String.rev_app s2 (String.rev_app s1 acc).
Proof.
  revert acc. induction s1 as [|c s1 IH]; intros acc; [reflexivity|].
  cbn. apply IH.
Qed.

Lemma string_app_assoc (a b c : string) : (a +:+ b) +:+ c = a +:+ (b +:+ c).
Proof.
  induction a as [|x a IH]; [reflexivity|].
  change (String x ((a +:+ b) +:+ c) = String x (a +:+ (b +:+ c))).
  now rewrite IH.
Qed.

Lemma endswith_cbz_slash s : Py.endswith (s +:+ ".cbz") "/" = false.
Proof.
  unfold Py.endswith, String.rev. rewrite rev_app_append. reflexivity.
Qed.

Lemma join_cbz_not_directory dest n :
  Py.endswith (Py.join dest [n +:+ "." +:+ "cbz"]) "/" = false.
Proof.
  unfold Py.join. cbn [fold_left]. unfold Py.join2.
  change (n +:+ "." +:+ "cbz") with (n +:+ ".cbz").
  destruct (Py.startswith (n +:+ ".cbz") "/"); [apply endswith_cbz_slash|].
  destruct ((dest =? "")%string || Py.endswith dest "/")%bool.
  - rewrite <- string_app_assoc. apply endswith_cbz_slash.
  - rewrite <- !string_app_assoc. apply endswith_cbz_slash.
Qed.

(** ** Frame reasoning: what an action leaves as it is *)

Section Keeps.

Context {X : Type} (proj : World -> X).

Lemma keeps_mret {A} (a : A) : keeps proj (mret a).
Proof. intros w. reflexivity. Qed.

Lemma keeps_mraise {A} (e : exn) : keeps proj (@mraise A e).
Proof. intros w. reflexivity. Qed.

Lemma keeps_mbind {A B} (m : M A) (k : A -> M B) :
  keeps proj m -> (forall a, keeps proj (k a)) -> keeps proj (mbind m k).
Proof.
  intros Hm Hk w. unfold mbind. specialize (Hm w).
  destruct (m w) as [[a|e] w1]; cbn in *; [|assumption].
  rewrite Hk. assumption.
Qed.

Lemma keeps_catch {A} (m : M A) handled (h : exn -> M A) :
  keeps proj m -> (forall e, keeps proj (h e)) -> keeps proj (catch m handled h).
Proof.
  intros Hm Hh w. unfold catch. specialize (Hm w).
  destruct (m w) as [[a|e] w1]; cbn in *; [assumption|].
  destruct (handled e); [|assumption].
  rewrite Hh. assumption.
Qed.

Lemma keeps_mfold {A St} (body : St -> A -> M St) (l : list A) :
  (forall st x, keeps proj (body st x)) -> forall st, keeps proj (mfold body l st).
Proof.
  intros Hbody. induction l as [|x l IH]; intros st; cbn [mfold].
  - apply keeps_mret.
  - apply keeps_mbind; [apply Hbody | intros a; apply IH].
Qed.

Lemma keeps_if {A} (b : bool) (m1 m2 : M A) :
  keeps proj m1 -> keeps proj m2 -> keeps proj (if b then m1 else m2).
Proof. now destruct b. Qed.

End Keeps.

Create HintDb keeps discriminated.

(** Walks through the sequencing, branching and looping of an action and
    leaves the primitive actions to the hints. *)
Ltac keeps_step :=
  first
    [ solve [auto with keeps]
    | apply keeps_mret
    | apply keeps_mraise
    | apply keeps_mbind; [|intros ?]
    | apply keeps_if
    | apply keeps_catch; [|intros ?]
    | apply keeps_mfold; intros ? ?
    | match goal with
      | |- keeps _ (match ?x with _ => _ end) => destruct x
      end ].

Ltac keeps_tac := repeat keeps_step.

Lemma execute_query_read_only {A} (q : stmt A) s :
  read_only q -> books (snd (execute_query q s)) = books s.
Proof.
  intros Hq. unfold execute_query.
  destruct (conn s); cbn; [|reflexivity].
  destruct (faults s) as [|[] rest]; cbn; try reflexivity;
    specialize (Hq (books s)); destruct (q (books s)); cbn in *; assumption.
Qed.

Lemma sql_select_details_read_only t : read_only (sql_select_details t).
Proof. intros bs. reflexivity. Qed.

Lemma get_all_books_with_details_books t s :
  books (snd (get_all_books_with_details t s)) = books s.
Proof.
  unfold get_all_books_with_details, lbind.
  pose proof (execute_query_read_only (sql_select_details t) s (sql_select_details_read_only t)) as H.
  destruct (execute_query (sql_select_details t) s) as [[rows|] s1]; cbn in *; assumption.
Qed.

(** *** The catalog *)

Lemma keeps_catalog_lift {A} (m : L A) :
  (forall s, books (snd (m s)) = books s) -> keeps catalog (lift m).
Proof.
  intros H w. unfold lift, catalog. specialize (H (lib w)).
  destruct (m (lib w)); cbn in *. assumption.
Qed.

Lemma keeps_catalog_logging lv msg strs nums : keeps catalog (logging lv msg strs nums).
Proof. intros w. reflexivity. Qed.

Lemma keeps_catalog_sleep z : keeps catalog (sleep z).
Proof. intros w. reflexivity. Qed.

Lemma keeps_catalog_kobo_select cid : keeps catalog (kobo_select_read_status cid).
Proof.
  intros w. unfold kobo_select_read_status.
  destruct (kconn (kobo w)); cbn; [|reflexivity].
  destruct (kfaults (kobo w)) as [|[] rest]; reflexivity.
Qed.

Lemma keeps_catalog_get_available_space cfg : keeps catalog (get_available_space cfg).
Proof. intros w. unfold get_available_space. destruct (readings w) as [|[v|] rest]; reflexivity. Qed.

Lemma keeps_catalog_write_file p d : keeps catalog (write_file p d).
Proof. intros w. unfold write_file. destruct (Py.endswith p "/"); reflexivity. Qed.

#[export] Hint Resolve keeps_catalog_logging keeps_catalog_sleep keeps_catalog_kobo_select
  keeps_catalog_get_available_space keeps_catalog_write_file : keeps.

(** *** The files on the removable storage *)

Lemma keeps_sdcard_logging lv msg strs nums : keeps sdcard (logging lv msg strs nums).
Proof. intros w. reflexivity. Qed.

Lemma keeps_sdcard_sleep z : keeps sdcard (sleep z).
Proof. intros w. reflexivity. Qed.

Lemma keeps_sdcard_kobo_select cid : keeps sdcard (kobo_select_read_status cid).
Proof.
  intros w. unfold kobo_select_read_status.
  destruct (kconn (kobo w)); cbn; [|reflexivity].
  destruct (kfaults (kobo w)) as [|[] rest]; reflexivity.
Qed.

Lemma keeps_sdcard_get_available_space cfg : keeps sdcard (get_available_space cfg).
Proof. intros w. unfold get_available_space. destruct (readings w) as [|[v|] rest]; reflexivity. Qed.

#[export] Hint Resolve keeps_sdcard_logging keeps_sdcard_sleep keeps_sdcard_kobo_select
  keeps_sdcard_get_available_space : keeps.

(** *** The methods *)

Lemma keeps_relative_path_of {X} (proj : World -> X) p root :
  keeps proj (relative_path_of p root).
Proof. unfold relative_path_of. keeps_tac. Qed.

#[export] Hint Resolve keeps_relative_path_of : keeps.

Lemma keeps_catalog_book_exists_and_unread cfg fs p n e :
  keeps catalog (book_exists_and_unread cfg fs p n e).
Proof. unfold book_exists_and_unread. keeps_tac. Qed.

Lemma keeps_sdcard_book_exists_and_unread cfg fs p n e :
  keeps sdcard (book_exists_and_unread cfg fs p n e).
Proof. unfold book_exists_and_unread. keeps_tac. Qed.

Lemma keeps_catalog_transfer_book fs p n e d : keeps catalog (transfer_book fs p n e d).
Proof.
  unfold transfer_book, extract_archive, extract_all, extract_member, copy2. keeps_tac.
Qed.

#[export] Hint Resolve keeps_catalog_book_exists_and_unread keeps_sdcard_book_exists_and_unread
  keeps_catalog_transfer_book : keeps.

Lemma keeps_catalog_transfer_one cfg fs dest avail b :
  keeps catalog (transfer_one cfg fs dest avail b).
Proof. unfold transfer_one. keeps_tac. Qed.

#[export] Hint Resolve keeps_catalog_transfer_one : keeps.

Lemma keeps_catalog_transfer_directory cfg fs avail entry :
  keeps catalog (transfer_directory cfg fs avail entry).
Proof. unfold transfer_directory, enter_directory, py_min. keeps_tac. Qed.

Lemma keeps_catalog_group_book cfg fs d b : keeps catalog (group_book cfg fs d b).
Proof. unfold group_book. keeps_tac. Qed.

#[export] Hint Resolve keeps_catalog_transfer_directory keeps_catalog_group_book : keeps.


(** ** [TransferManager.transfer_book] and the container formats *)

(** A book whose extension is neither [zip] nor [rar], in any case of
    letters, is copied as one file. *)
Lemma transfer_book_plain fs p n e dest w data :
  Py.str_in (Py.lower e) ["zip"; "rar"] = false ->
  file_data fs (get_book_full_path p n e) = Some data ->
  Py.endswith (Py.join dest [n +:+ "." +:+ e]) "/" = false ->
  transfer_book fs p n e dest w =
    (Returned true,
     snd (logging INFO "Transferred" [get_book_full_path p n e; dest] []
            (with_sdcard (<[Py.join dest [n +:+ "." +:+ e] := data]> (sdcard w)) w))).
Proof.
  intros Hplain Hdata Hfile.
  unfold transfer_book, catch. rewrite Hplain.
  unfold copy2. rewrite Hdata.
  assert (Hw : write_file (Py.join dest [n +:+ "." +:+ e]) data w =
               (Returned tt,
                with_sdcard (<[Py.join dest [n +:+ "." +:+ e] := data]> (sdcard w)) w)).
  { unfold write_file. now rewrite Hfile. }
  rewrite (mbind_returned _ _ _ _ _ (mbind_returned _ _ _ _ _ Hw)).
  reflexivity.
Qed.

(** An archive with the extension [zip] is expanded: when every member
    can be written, the storage gains the members and nothing else. *)
Lemma extract_all_writes fs archive dest members w :
  archive_members fs archive = Returned members ->
  Forall (fun m => Py.endswith (Py.join dest [fst m]) "/" = false) members ->
  extract_all fs archive dest w =
    (Returned tt,
     with_sdcard (fold_left (fun sd m => <[Py.join dest [fst m] := snd m]> sd) members (sdcard w)) w).
Proof.
  intros Harch Hok. unfold extract_all. rewrite Harch. clear Harch.
  revert w. induction Hok as [|m ms Hm _ IH]; intros w.
  - destruct w; reflexivity.
  - cbn [mfold fold_left].
    assert (Hw : extract_member dest tt m w =
                 (Returned tt, with_sdcard (<[Py.join dest [fst m] := snd m]> (sdcard w)) w)).
    { unfold extract_member, write_file. now rewrite Hm. }
    mstep Hw. rewrite IH. reflexivity.
Qed.

Lemma extract_archive_zip fs p n dest members w :
  archive_members fs (Py.join p [n +:+ "." +:+ "zip"]) = Returned members ->
  Forall (fun m => Py.endswith (Py.join dest [fst m]) "/" = false) members ->
  extract_archive fs p n "zip" dest w =
    (Returned true,
     snd (logging INFO "Extracted archive" [Py.join p [n +:+ "." +:+ "zip"]; dest] []
            (with_sdcard
               (fold_left (fun sd m => <[Py.join dest [fst m] := snd m]> sd) members (sdcard w))
               w))).
Proof.
  intros Harch Hok.
  unfold extract_archive, catch.
  change (("zip" =? "zip")%string) with true. cbv iota.
  rewrite (mbind_returned _ _ _ _ _ (extract_all_writes fs _ dest members w Harch Hok)).
  reflexivity.
Qed.

Lemma transfer_book_zip fs p n dest members w :
  archive_members fs (Py.join p [n +:+ "." +:+ "zip"]) = Returned members ->
  Forall (fun m => Py.endswith (Py.join dest [fst m]) "/" = false) members ->
  fst (transfer_book fs p n "zip" dest w) = Returned true /\
  sdcard (snd (transfer_book fs p n "zip" dest w)) =
    fold_left (fun sd m => <[Py.join dest [fst m] := snd m]> sd) members (sdcard w).
Proof.
  intros Harch Hok.
  unfold transfer_book, catch.
  change (Py.str_in (Py.lower "zip") ["zip"; "rar"]) with true. cbv iota.
  rewrite (mbind_returned _ _ _ _ _ (extract_archive_zip fs p n dest members w Harch Hok)).
  split; reflexivity.
Qed.

Lemma get_available_space_returns cfg w :
  exists v, fst (get_available_space cfg w) = Returned v.
Proof.
  unfold get_available_space. destruct (readings w) as [|[v|] rest]; eexists; reflexivity.
Qed.


(** The same archive under the name [comic.zip] is expanded. *)
Example zip_is_expanded :
  let cfg := Sample.config ["epub"; "zip"] in
  let host :=
    Sample.host [("/lib/comics/comic.zip", "PK-container-bytes")]
      [("/lib/comics/comic.zip", comic_members)] [] in
  let w := Sample.world [Sample.row "/lib/comics" "comic" "zip" false false true] [] []
             [Some 100; Some 100; Some 82] in
  sdcard (snd (transfer_books cfg host w)) =
    {[ "/sd/kobomanager/comics/page1.jpg" := "jpeg-1";
       "/sd/kobomanager/comics/page2.jpg" := "jpeg-2" ]}.
Proof. vm_compute. reflexivity. Qed.

(** ** The gates of the per-book loop *)

(** C6 (as amended). For each book of a directory the gates are applied in
    this order: the skip of a book that is unread on the device, then the
    skip of a book larger than the current capacity figure, and only then
    the re-check of the extension. A book that fails a gate is skipped with
    that gate's log entry and nothing else; the later gates leave no
    trace. A book that passes all three is handed to [transfer_book]. *)
Theorem C6_gate_order cfg fs dest avail p n e w unread w1 :
  book_exists_and_unread cfg fs p n e w = (Returned unread, w1) ->
  let size := get_book_size fs p n e in
  let run := transfer_one cfg fs dest avail (p, n, e) w in
  (unread = true ->
   run = (Returned avail,
          snd (logging INFO "Skipping already existing or read book"
                 [get_book_full_path p n e] [] w1)))
  /\
  (unread = false -> size > avail ->
   run = (Returned avail,
          snd (logging WARNING "Not enough space on SD card for book. Skipping book."
                 [n] [size; avail] w1)))
  /\
  (unread = false -> size <= avail -> is_transferable cfg e = false ->
   run = (Returned avail,
          snd (logging INFO "Skipping file with unsupported format"
                 [get_book_full_path p n e] [] w1)))
  /\
  (unread = false -> size <= avail -> is_transferable cfg e = true ->
   run = mbind (transfer_book fs p n e dest)
           (fun copied =>
              if copied then mbind (sleep 1) (fun _ => get_available_space cfg)
              else mret avail) w1).
Proof.
  intros Hrun size run. subst run size. unfold transfer_one. mstep Hrun.
  repeat split.
  - intros ->. reflexivity.
  - intros -> Hgt. apply Z.gtb_gt in Hgt. rewrite Hgt. reflexivity.
  - intros -> Hle Ht.
    assert (Hgt : (get_book_size fs p n e >? avail) = false) by lia.
    rewrite Hgt, Ht. reflexivity.
  - intros -> Hle Ht.
    assert (Hgt : (get_book_size fs p n e >? avail) = false) by lia.
    rewrite Hgt, Ht. reflexivity.
Qed.

Lemma C6_gate_order_witness :
  book_exists_and_unread (Sample.config ["epub"]) gates_host "/lib/a" "big" "pdf" gates_world
    = (Returned false,
       snd (logging INFO "Book does not exist in Kobo database."
              ["file:///mnt/sd/kobomanager/a/big.pdf"] [] gates_world)) /\
  get_book_size gates_host "/lib/a" "big" "pdf" > 2 /\
  transfer_one (Sample.config ["epub"]) gates_host "/sd/kobomanager/a" 2
    ("/lib/a", "big", "pdf") gates_world
    = (Returned 2,
       snd (logging WARNING "Not enough space on SD card for book. Skipping book."
              ["big"] [get_book_size gates_host "/lib/a" "big" "pdf"; 2]
              (snd (logging INFO "Book does not exist in Kobo database."
                      ["file:///mnt/sd/kobomanager/a/big.pdf"] [] gates_world)))).
Proof.
  split; [reflexivity|]. split; [reflexivity|].
  apply (C6_gate_order (Sample.config ["epub"]) gates_host "/sd/kobomanager/a" 2
           "/lib/a" "big" "pdf" gates_world false _ eq_refl); reflexivity.
Defined.

(** C6 (as stated) fails. The large book is not on the device, its
    extension is not transferable and it does not fit: with the extension
    gate before the size gate the skip would be the one for the format;
    the code skips it for lack of space, in the per-book body and in a
    whole run of [transfer_books]. *)
Lemma C6_counterexample :
  let cfg := Sample.config ["epub"] in
  is_transferable cfg "pdf" = false /\
  wlog (snd (transfer_one cfg gates_host "/sd/kobomanager/a" 2
               ("/lib/a", "big", "pdf") gates_world))
    = [Log INFO "Book does not exist in Kobo database."
         ["file:///mnt/sd/kobomanager/a/big.pdf"] [];
       Log WARNING "Not enough space on SD card for book. Skipping book." ["big"] [5; 2]] /\
  wlog (snd (transfer_one_spec_order cfg gates_host "/sd/kobomanager/a" 2
               ("/lib/a", "big", "pdf") gates_world))
    = [Log INFO "Book does not exist in Kobo database."
         ["file:///mnt/sd/kobomanager/a/big.pdf"] [];
       Log INFO "Skipping file with unsupported format" ["/lib/a/big.pdf"] []] /\
  transfer_one cfg gates_host "/sd/kobomanager/a" 2 ("/lib/a", "big", "pdf") gates_world
    <> transfer_one_spec_order cfg gates_host "/sd/kobomanager/a" 2
         ("/lib/a", "big", "pdf") gates_world /\
  wlog (snd (transfer_books cfg gates_host gates_world))
    = [Log DEBUG "Available space on SD card" [] [10];
       Log DEBUG "Available space on SD card" [] [3];
       Log INFO "Book does not exist in Kobo database."
         ["file:///mnt/sd/kobomanager/a/small.epub"] [];
       Log INFO "Transferred" ["/lib/a/small.epub"; "/sd/kobomanager/a"] [];
       Slept 1;
       Log DEBUG "Available space on SD card" [] [2];
       Log INFO "Book does not exist in Kobo database."
         ["file:///mnt/sd/kobomanager/a/big.pdf"] [];
       Log WARNING "Not enough space on SD card for book. Skipping book." ["big"] [5; 2];
       Log INFO "Finished transferring books." [] []].
Proof.
  cbv zeta. split; [reflexivity|]. split; [vm_compute; reflexivity|].
  split; [vm_compute; reflexivity|]. split; [|vm_compute; reflexivity].
  intros H. apply (f_equal (fun r => wlog (snd r))) in H. vm_compute in H. discriminate.
Qed.

(** ** The capacity figure of the directory-level check *)

Lemma last_reading_app l ev :
  last_reading (l ++ [ev]) =
    match reading_of ev with Some v => Some v | None => last_reading l end.
Proof. unfold last_reading. rewrite fold_left_app. reflexivity. Qed.

Lemma keeps_measured_logging lv msg strs nums :
  reading_of (Log lv msg strs nums) = None -> keeps measured (logging lv msg strs nums).
Proof.
  intros H w. unfold measured, wlog, logging. cbn [snd lib with_lib llog with_llog].
  rewrite last_reading_app. now rewrite H.
Qed.

Lemma keeps_measured_sleep z : keeps measured (sleep z).
Proof.
  intros w. unfold measured, wlog, sleep. cbn [snd lib with_lib llog with_llog].
  now rewrite last_reading_app.
Qed.

Lemma keeps_measured_write_file p d : keeps measured (write_file p d).
Proof. intros w. unfold write_file. destruct (Py.endswith p "/"); reflexivity. Qed.

Lemma keeps_measured_kobo_select cid : keeps measured (kobo_select_read_status cid).
Proof.
  intros w. unfold kobo_select_read_status.
  destruct (kconn (kobo w)); cbn [negb].
  - destruct (kfaults (kobo w)) as [|[] rest]; try reflexivity.
    cbn [snd]. unfold measured, wlog, logging. cbn [snd lib with_lib with_kobo llog with_llog].
    now rewrite last_reading_app.
  - cbn [snd]. unfold measured, wlog, logging. cbn [snd lib with_lib llog with_llog].
    now rewrite last_reading_app.
Qed.

Lemma execute_query_last_reading {A} (q : stmt A) s :
  last_reading (llog (snd (execute_query q s))) = last_reading (llog s).
Proof.
  unfold execute_query. destruct (conn s); cbn [negb].
  - destruct (faults s) as [|[] rest]; try (destruct (q (books s)); reflexivity).
    cbn [snd llog with_llog with_faults]. now rewrite last_reading_app.
  - cbn [snd llog with_llog]. now rewrite last_reading_app.
Qed.

Lemma keeps_measured_get_all_books_with_details t :
  keeps measured (lift (get_all_books_with_details t)).
Proof.
  intros w. unfold lift, get_all_books_with_details, lbind, measured, wlog.
  pose proof (execute_query_last_reading (sql_select_details t) (lib w)) as H.
  destruct (execute_query (sql_select_details t) (lib w)) as [[rows|] s1]; cbn in *; assumption.
Qed.

#[export] Hint Resolve keeps_measured_sleep keeps_measured_write_file
  keeps_measured_kobo_select : keeps.
#[export] Hint Extern 1 (keeps measured (logging _ _ _ _)) =>
  apply keeps_measured_logging; reflexivity : keeps.

Lemma keeps_measured_book_exists_and_unread cfg fs p n e :
  keeps measured (book_exists_and_unread cfg fs p n e).
Proof. unfold book_exists_and_unread. keeps_tac. Qed.

Lemma keeps_measured_transfer_book fs p n e d : keeps measured (transfer_book fs p n e d).
Proof.
  unfold transfer_book, extract_archive, extract_all, extract_member, copy2. keeps_tac.
Qed.

Lemma keeps_measured_group_book cfg fs d b : keeps measured (group_book cfg fs d b).
Proof. unfold group_book. keeps_tac. Qed.

#[export] Hint Resolve keeps_measured_book_exists_and_unread keeps_measured_transfer_book
  keeps_measured_group_book : keeps.

Lemma mbind_inv {A B} (m : M A) (k : A -> M B) w b w' :
  mbind m k w = (Returned b, w') ->
  exists a w1, m w = (Returned a, w1) /\ k a w1 = (Returned b, w').
Proof.
  unfold mbind. destruct (m w) as [[a|e] w1]; [eauto | discriminate].
Qed.

Lemma mfold_invariant {A St} (body : St -> A -> M St) (I : St -> World -> Prop) :
  (forall st x w st' w', I st w -> body st x w = (Returned st', w') -> I st' w') ->
  forall l st w st' w',
    I st w -> mfold body l st w = (Returned st', w') -> I st' w'.
Proof.
  intros Hbody. induction l as [|x l IH]; intros st w st' w' HI Hrun; cbn [mfold] in Hrun.
  - injection Hrun as <- <-. assumption.
  - apply mbind_inv in Hrun as (st1 & w1 & Hx & Hrest). eauto.
Qed.

Lemma get_available_space_measured cfg w v w' :
  get_available_space cfg w = (Returned v, w') -> measured w' = Some v.
Proof.
  unfold get_available_space, measured, wlog, logging.
  destruct (readings w) as [|[x|] rest]; intros H; injection H as <- <-;
    cbn [snd lib with_lib with_readings llog with_llog]; now rewrite last_reading_app.
Qed.

(** The local variable [available_space] holds the most recent
    measurement whenever a body of one of the two loops ends. *)
Lemma transfer_one_measured cfg fs dest avail b w avail' w' :
  measured w = Some avail ->
  transfer_one cfg fs dest avail b w = (Returned avail', w') ->
  measured w' = Some avail'.
Proof.
  intros Hm Hrun. destruct b as [[p n] e]. unfold transfer_one in Hrun.
  apply mbind_inv in Hrun as (unread & w1 & Hun & Hrun).
  assert (Hm1 : measured w1 = Some avail).
  { rewrite <- Hm. pose proof (keeps_measured_book_exists_and_unread cfg fs p n e w) as H.
    now rewrite Hun in H. }
  destruct unread.
  { injection Hrun as <- <-. rewrite <- Hm1. apply keeps_measured_logging. reflexivity. }
  destruct (get_book_size fs p n e >? avail).
  { injection Hrun as <- <-. rewrite <- Hm1. apply keeps_measured_logging. reflexivity. }
  destruct (negb (is_transferable cfg e)).
  { injection Hrun as <- <-. rewrite <- Hm1. apply keeps_measured_logging. reflexivity. }
  apply mbind_inv in Hrun as (copied & w2 & Hcopy & Hrun).
  assert (Hm2 : measured w2 = Some avail).
  { rewrite <- Hm1. pose proof (keeps_measured_transfer_book fs p n e dest w1) as H.
    now rewrite Hcopy in H. }
  destruct copied.
  - apply mbind_inv in Hrun as ([] & w3 & Hsleep & Hrun).
    eapply get_available_space_measured; eassumption.
  - injection Hrun as <- <-. assumption.
Qed.

Lemma enter_directory_measured cfg fs entry w avail' w' :
  enter_directory cfg fs entry w = (Returned avail', w') -> measured w' = Some avail'.
Proof.
  destruct entry as [dest bs]. unfold enter_directory. intros Hrun.
  apply mbind_inv in Hrun as (a1 & w1 & Hmeas & Hrun).
  apply get_available_space_measured in Hmeas.
  apply mbind_inv in Hrun as (smallest & w2 & Hmin & Hrun).
  assert (w2 = w1) as ->.
  { unfold py_min in Hmin. destruct (List.map _ bs); [discriminate|]. now injection Hmin. }
  destruct (a1 <? smallest).
  - injection Hrun as <- <-. rewrite <- Hmeas. apply keeps_measured_logging. reflexivity.
  - revert Hmeas Hrun. apply (mfold_invariant _ (fun st w => measured w = Some st)).
    intros st x w0 st' w0'. apply transfer_one_measured.
Qed.

Lemma transfer_directory_measured cfg fs avail entry w avail' w' :
  measured w = Some avail ->
  transfer_directory cfg fs avail entry w = (Returned avail', w') ->
  measured w' = Some avail'.
Proof.
  intros Hm. unfold transfer_directory.
  destruct (directory_size fs (snd entry) >? avail).
  - intros Hrun. injection Hrun as <- <-. rewrite <- Hm.
    apply keeps_measured_logging. reflexivity.
  - apply enter_directory_measured.
Qed.

(** C2 (as amended). For every destination directory [transfer_books]
    processes, the directory-level check compares the summed sizes of the
    directory's books with the current value of [available_space], which
    is the result of the most recent measurement: the one taken before
    the loop only until a directory passes the check, and afterwards the
    one made when entering an earlier directory or after an earlier copy.
    If the sum exceeds that value the directory is skipped with a warning
    and nothing else; otherwise the directory is entered, where the first
    act is a new measurement. *)
Theorem C2_directory_gate cfg fs w bks wa snapshot wb dirs wc k avail_k w_k entry :
  lift (get_all_books_with_details true) w = (Returned bks, wa) ->
  get_available_space cfg wa = (Returned snapshot, wb) ->
  mfold (group_book cfg fs) bks [] wb = (Returned dirs, wc) ->
  mfold (transfer_directory cfg fs) (take k dirs) snapshot wc = (Returned avail_k, w_k) ->
  dirs !! k = Some entry ->
  measured w_k = Some avail_k /\
  (directory_size fs (snd entry) > avail_k ->
   transfer_directory cfg fs avail_k entry w_k =
     (Returned avail_k,
      snd (logging WARNING "Not enough space on SD card for directory. Skipping directory."
             [fst entry] [directory_size fs (snd entry); avail_k] w_k))) /\
  (directory_size fs (snd entry) <= avail_k ->
   transfer_directory cfg fs avail_k entry w_k = enter_directory cfg fs entry w_k).
Proof.
  intros _ Hsnap Hgroup Hloop _.
  split; [|split].
  - apply get_available_space_measured in Hsnap.
    assert (Hc : measured wc = Some snapshot).
    { rewrite <- Hsnap.
      pose proof (keeps_mfold measured (group_book cfg fs) bks
                    (fun st x => keeps_measured_group_book cfg fs st x) [] wb) as H.
      now rewrite Hgroup in H. }
    revert Hc Hloop. apply (mfold_invariant _ (fun st w => measured w = Some st)).
    intros st x w0 st' w0'. apply transfer_directory_measured.
  - intros Hgt. unfold transfer_directory. apply Z.gtb_gt in Hgt. rewrite Hgt. reflexivity.
  - intros Hle. unfold transfer_directory.
    assert (Hgt : (directory_size fs (snd entry) >? avail_k) = false) by lia.
    now rewrite Hgt.
Qed.

Lemma C2_directory_gate_witness :
  let cfg := Sample.config ["epub"] in
  exists bks wa wb dirs wc w_k,
    lift (get_all_books_with_details true) two_dirs_world = (Returned bks, wa) /\
    get_available_space cfg wa = (Returned 10, wb) /\
    mfold (group_book cfg two_dirs_host) bks [] wb = (Returned dirs, wc) /\
    mfold (transfer_directory cfg two_dirs_host) (take 1 dirs) 10 wc = (Returned 4, w_k) /\
    dirs !! 1%nat = Some dir_b /\
    directory_size two_dirs_host (snd dir_b) > 4 /\
    measured w_k = Some 4 /\
    transfer_directory cfg two_dirs_host 4 dir_b w_k =
      (Returned 4,
       snd (logging WARNING "Not enough space on SD card for directory. Skipping directory."
              [fst dir_b] [directory_size two_dirs_host (snd dir_b); 4] w_k)).
Proof.
  cbv zeta.
  do 6 eexists.
  assert (H1 : lift (get_all_books_with_details true) two_dirs_world =
               (Returned
                  (match fst (lift (get_all_books_with_details true) two_dirs_world) with
                   | Returned b => b
                   | Raised _ => []
                   end),
                snd (lift (get_all_books_with_details true) two_dirs_world)))
    by reflexivity.
  split; [exact H1|].
  assert (H2 : get_available_space (Sample.config ["epub"])
                 (snd (lift (get_all_books_with_details true) two_dirs_world)) =
               (Returned 10,
                snd (get_available_space (Sample.config ["epub"])
                       (snd (lift (get_all_books_with_details true) two_dirs_world)))))
    by reflexivity.
  split; [exact H2|].
  match type of H1 with _ = (Returned ?bks, _) =>
  match type of H2 with _ = (_, ?wb) =>
    assert (H3 : mfold (group_book (Sample.config ["epub"]) two_dirs_host) bks [] wb =
                 (Returned
                    (match fst (mfold (group_book (Sample.config ["epub"]) two_dirs_host) bks [] wb) with
                     | Returned d => d
                     | Raised _ => []
                     end),
                  snd (mfold (group_book (Sample.config ["epub"]) two_dirs_host) bks [] wb)))
      by reflexivity
  end end.
  split; [exact H3|].
  match type of H3 with _ = (Returned ?dirs, ?wc) =>
    assert (H4 : mfold (transfer_directory (Sample.config ["epub"]) two_dirs_host)
                   (take 1 dirs) 10 wc =
                 (Returned 4,
                  snd (mfold (transfer_directory (Sample.config ["epub"]) two_dirs_host)
                         (take 1 dirs) 10 wc)))
      by (vm_compute; reflexivity);
    assert (H5 : dirs !! 1%nat = Some dir_b) by reflexivity
  end.
  split; [exact H4|]. split; [exact H5|]. split; [reflexivity|].
  destruct (C2_directory_gate _ _ _ _ _ _ _ _ _ _ _ _ _ H1 H2 H3 H4 H5) as (Hm & Hskip & _).
  split; [exact Hm|]. apply Hskip. reflexivity.
Defined.

(** C2 (as stated) fails. The snapshot taken before the loop is 10 and
    the books of [b] sum to 6, which the snapshot covers; the check of [b]
    is made against 4, the figure measured after the copy into [a], and
    [b] is skipped. Checked against the snapshot, [b] would be entered and
    its first book copied. *)
Lemma C2_counterexample :
  let cfg := Sample.config ["epub"] in
  directory_size two_dirs_host (snd dir_b) = 6 /\
  wlog (snd (transfer_books cfg two_dirs_host two_dirs_world))
    = [Log DEBUG "Available space on SD card" [] [10];
       Log DEBUG "Available space on SD card" [] [10];
       Log INFO "Book does not exist in Kobo database."
         ["file:///mnt/sd/kobomanager/a/x.epub"] [];
       Log INFO "Transferred" ["/lib/a/x.epub"; "/sd/kobomanager/a"] [];
       Slept 1;
       Log DEBUG "Available space on SD card" [] [4];
       Log WARNING "Not enough space on SD card for directory. Skipping directory."
         ["/sd/kobomanager/b"] [6; 4];
       Log INFO "Finished transferring books." [] []] /\
  sdcard (snd (transfer_books cfg two_dirs_host two_dirs_world))
    = {[ "/sd/kobomanager/a/x.epub" := "xxxxxx" ]} /\
  sdcard (snd (transfer_books_snapshot cfg two_dirs_host two_dirs_world))
    = {[ "/sd/kobomanager/a/x.epub" := "xxxxxx"; "/sd/kobomanager/b/y.epub" := "yyy" ]} /\
  transfer_books cfg two_dirs_host two_dirs_world
    <> transfer_books_snapshot cfg two_dirs_host two_dirs_world.
Proof.
  cbv zeta. split; [reflexivity|]. split; [vm_compute; reflexivity|].
  split; [vm_compute; reflexivity|]. split; [vm_compute; reflexivity|].
  intros H. apply (f_equal (fun r => sdcard (snd r) !! "/sd/kobomanager/b/y.epub")) in H.
  vm_compute in H. discriminate.
Qed.

(** ** [Library.scan_library] and failing statements *)

(** C3. [scan_library] is claimed to abort the walk and to return
    failure when a catalog query fails. On a library root with [a.epub]
    and [b.epub] and a store on which the second statement of the scan,
    the [INSERT] for [a.epub], raises [sqlite3.Error]: [execute_query]
    logs the error, the scan goes on to [b.epub] and adds it, and returns
    [True] with [a.epub] missing from the catalog. [run], which tests the
    result of the scan, goes on to the transfer and ends with the exit
    code [0]. In no state does the scan return anything but [True]. *)
Theorem C3_scan_continues_after_storage_error :
  let cfg := Sample.config ["epub"] in
  let r := scan_library cfg two_books_host (Sample.store [] [false; true]) in
  let w := with_lib (with_faults [false; true] (lib fresh_world)) fresh_world in
  let r' := KoboManager.run cfg (device_host ["a.epub"; "b.epub"]) w in
  (fst r = true /\
   books (snd r) = [Sample.row "/lib" "b" "epub" false false true] /\
   llog (snd r)
     = [Log INFO "Scanning library paths for ebook files..." [] [];
        Log ERROR "Error executing query" [] [];
        Log INFO "Added book to library" ["/lib/b.epub"] [];
        Log INFO "Finished scanning library paths." [] []]) /\
  (fst r' = Returned 0 /\
   catalog (snd r') = [Sample.row "/lib" "b" "epub" false false true] /\
   In (Log ERROR "Error executing query" [] []) (wlog (snd r'))) /\
  (forall cfg0 fs0 s0, fst (scan_library cfg0 fs0 s0) = true).
Proof.
  cbv zeta. split; [|split].
  - repeat split; vm_compute; reflexivity.
  - split; [vm_compute; reflexivity|]. split; [vm_compute; reflexivity|].
    vm_compute. do 5 right. left. reflexivity.
  - intros cfg0 fs0 s0.
    unfold scan_library, lbind, llogging, lret. cbv beta iota.
    destruct (get_all_books _) as [all_books s1].
    destruct (lfold _ _ _ s1) as [st s2].
    destruct (lfold _ _ _ s2) as [[] s3].
    reflexivity.
Qed.

(** ** [Library.scan_library] on a store without failures *)

Lemma healthy_with_books bs s : healthy s -> healthy (with_books bs s).
Proof. intros [? ?]. split; assumption. Qed.

Lemma healthy_with_llog l s : healthy s -> healthy (with_llog l s).
Proof. intros [? ?]. split; assumption. Qed.

Lemma execute_query_healthy {A} (q : stmt A) s :
  healthy s ->
  execute_query q s = (Some (fst (q (books s))), with_books (snd (q (books s))) s).
Proof.
  intros [Hc Hf]. unfold execute_query. rewrite Hc, Hf. cbn [negb].
  destruct (q (books s)); reflexivity.
Qed.

Lemma runs_to_lret {A} (a : A) s : healthy s -> runs_to (lret a) s a (books s).
Proof. intros H. exists s. auto. Qed.

Lemma runs_to_lbind {A B} (m : L A) (k : A -> L B) s a bs b bs' :
  runs_to m s a bs ->
  (forall s1, healthy s1 -> books s1 = bs -> runs_to (k a) s1 b bs') ->
  runs_to (lbind m k) s b bs'.
Proof.
  intros (s1 & Hm & Hb & Hh) Hk.
  destruct (Hk s1 Hh Hb) as (s2 & Hk2 & Hb2 & Hh2).
  exists s2. unfold lbind. rewrite Hm. auto.
Qed.

Lemma runs_to_execute_query {A} (q : stmt A) s :
  healthy s -> runs_to (execute_query q) s (Some (fst (q (books s)))) (snd (q (books s))).
Proof.
  intros H. eexists. split; [apply execute_query_healthy; assumption|].
  split; [reflexivity | apply healthy_with_books; assumption].
Qed.

Lemma runs_to_llogging lv msg strs s :
  healthy s -> runs_to (llogging lv msg strs) s tt (books s).
Proof.
  intros H. eexists. split; [reflexivity|]. split; [reflexivity|].
  apply healthy_with_llog; assumption.
Qed.

Lemma runs_to_if_logging (c : bool) lv msg strs s :
  healthy s -> runs_to (if c then llogging lv msg strs else lret tt) s tt (books s).
Proof. destruct c; [apply runs_to_llogging | apply runs_to_lret]. Qed.

Lemma add_or_update_book_healthy p n e t s :
  healthy s ->
  exists added, runs_to (add_or_update_book p n e t) s added (add_or_update_rows p n e t (books s)).
Proof.
  intros H. unfold add_or_update_book, add_or_update_rows.
  pose proof (runs_to_execute_query (sql_insert_or_ignore p n e t) s H) as Hins.
  destruct (sql_insert_or_ignore p n e t (books s)) as [rows bs1] eqn:Eins. cbn [fst snd] in Hins.
  eexists.
  eapply runs_to_lbind; [exact Hins|]. intros s1 H1 Hb1.
  eapply runs_to_lbind; [|intros s4 H4 Hb4; rewrite <- Hb4; apply runs_to_lret; exact H4].
  cbn [py_eq_zero].
  destruct (rows =? 0).
  - eapply runs_to_lbind; [apply runs_to_execute_query; exact H1|]. intros s2 H2 Hb2.
    eapply runs_to_lbind.
    { apply runs_to_if_logging. exact H2. }
    intros s3 H3 Hb3.
    eapply runs_to_lbind; [apply runs_to_execute_query; exact H3|]. intros s5 H5 Hb5.
    replace (snd (sql_restore t p n bs1)) with (books s5);
      [apply runs_to_lret; exact H5|].
    rewrite Hb5, Hb3, Hb2. cbn [sql_select_deleted snd]. now rewrite Hb1.
  - rewrite <- Hb1. apply runs_to_lret. exact H1.
Qed.

Lemma mark_missing_healthy p n shown s :
  healthy s -> runs_to (mark_missing p n shown) s tt (mark_missing_rows (p, n) (books s)).
Proof.
  intros H. unfold mark_missing, mark_missing_rows. cbn [fst snd].
  eapply runs_to_lbind; [apply runs_to_execute_query; exact H|]. intros s1 H1 Hb1.
  eapply runs_to_lbind; [apply runs_to_if_logging; exact H1|]. intros s2 H2 Hb2.
  eapply runs_to_lbind; [apply runs_to_execute_query; exact H2|]. intros s3 H3 Hb3.
  replace (snd (sql_mark_deleted p n (books s))) with (books s3);
    [apply runs_to_lret; exact H3|].
  rewrite Hb3, Hb2, Hb1. reflexivity.
Qed.

Lemma remove_if_member (k : bkey) (all_books : gset bkey) :
  (if decide (k ∈ all_books) then all_books ∖ {[k]} else all_books) = all_books ∖ {[k]}.
Proof.
  destruct (decide (k ∈ all_books)) as [|Hk]; [reflexivity|].
  symmetry. apply difference_disjoint_L. now apply disjoint_singleton_r.
Qed.

Lemma scan_file_healthy cfg fs root st file s :
  healthy s ->
  runs_to (scan_file cfg fs root st file) s
    (fst (visit_rows cfg fs (st, books s) (root, file)))
    (snd (visit_rows cfg fs (st, books s) (root, file))).
Proof.
  intros H. destruct st as [all_books processed_books].
  unfold scan_file, visit_rows, v_supported, v_on_disk, v_key, v_name, v_ext.
  cbn [fst snd].
  destruct (Py.endswith_any (Py.lower file) supported_formats);
    [|apply runs_to_lret; exact H].
  destruct (path_exists fs _).
  - destruct (decide (_ ∉ processed_books)); [|apply runs_to_lret; exact H].
    rewrite remove_if_member.
    destruct (add_or_update_book_healthy root (fst (Py.splitext file))
                (Py.tail (snd (Py.splitext file)))
                (is_transferable cfg (Py.tail (snd (Py.splitext file)))) s H) as [added Hadd].
    eapply runs_to_lbind; [exact Hadd|]. intros s1 H1 Hb1.
    eapply runs_to_lbind; [apply runs_to_if_logging; exact H1|]. intros s2 H2 Hb2.
    cbn [fst snd]. rewrite <- Hb1, <- Hb2. apply runs_to_lret. exact H2.
  - destruct (decide (_ ∈ all_books)); [|apply runs_to_lret; exact H].
    eapply runs_to_lbind; [apply mark_missing_healthy; exact H|]. intros s1 H1 Hb1.
    cbn [fst snd]. rewrite <- Hb1. apply runs_to_lret. exact H1.
Qed.

(** A loop whose body follows a function on the relation follows the fold
    of that function. *)
Lemma lfold_healthy {A St} (body : St -> A -> L St)
    (rows : St * list book -> A -> St * list book) :
  (forall st x s, healthy s ->
     runs_to (body st x) s (fst (rows (st, books s) x)) (snd (rows (st, books s) x))) ->
  forall l st s, healthy s ->
    runs_to (lfold body l st) s
      (fst (fold_left rows l (st, books s))) (snd (fold_left rows l (st, books s))).
Proof.
  intros Hbody. induction l as [|x l IH]; intros st s H; cbn [lfold fold_left].
  - apply runs_to_lret. exact H.
  - eapply runs_to_lbind; [apply Hbody; exact H|]. intros s1 H1 Hb1.
    specialize (IH (fst (rows (st, books s) x)) s1 H1). rewrite Hb1 in IH.
    now rewrite <- surjective_pairing in IH.
Qed.

Lemma fold_left_flat_map {A B C} (f : A -> C -> A) (g : B -> list C) (l : list B) (a : A) :
  fold_left f (flat_map g l) a = fold_left (fun a x => fold_left f (g x) a) l a.
Proof.
  revert a. induction l as [|x l IH]; intros a; cbn [flat_map fold_left]; [reflexivity|].
  now rewrite fold_left_app, IH.
Qed.

Lemma scan_directory_healthy cfg fs st entry s :
  healthy s ->
  runs_to (scan_directory cfg fs st entry) s
    (fst (fold_left (visit_rows cfg fs) (directory_visits entry) (st, books s)))
    (snd (fold_left (visit_rows cfg fs) (directory_visits entry) (st, books s))).
Proof.
  intros H. unfold scan_directory, directory_visits.
  pose proof (lfold_healthy (scan_file cfg fs (fst entry))
                (fun a file => visit_rows cfg fs a (fst entry, file))
                (fun st x s => scan_file_healthy cfg fs (fst entry) st x s)
                (snd entry) st s H) as Hl.
  assert (Hmap : forall l a,
             fold_left (visit_rows cfg fs) (List.map (pair (fst entry)) l) a =
             fold_left (fun a file => visit_rows cfg fs a (fst entry, file)) l a).
  { induction l as [|x l IH]; intros a; cbn [List.map fold_left]; [reflexivity | apply IH]. }
  rewrite Hmap. exact Hl.
Qed.

Lemma scan_root_healthy cfg fs st library_path s :
  healthy s ->
  runs_to (scan_root cfg fs st library_path) s
    (fst (fold_left (visit_rows cfg fs) (root_visits fs library_path) (st, books s)))
    (snd (fold_left (visit_rows cfg fs) (root_visits fs library_path) (st, books s))).
Proof.
  intros H. unfold scan_root, root_visits.
  destruct (negb (path_exists fs _)).
  - eapply runs_to_lbind; [apply runs_to_llogging; exact H|]. intros s1 H1 Hb1.
    cbn [fold_left fst snd]. rewrite <- Hb1. apply runs_to_lret. exact H1.
  - rewrite fold_left_flat_map.
    apply (lfold_healthy (scan_directory cfg fs)
             (fun a entry => fold_left (visit_rows cfg fs) (directory_visits entry) a)).
    + intros st0 x s0. apply scan_directory_healthy.
    + exact H.
Qed.

Lemma get_all_books_healthy s :
  healthy s ->
  runs_to get_all_books s (list_to_set (List.map key_of (books s))) (books s).
Proof.
  intros H. unfold get_all_books.
  eapply runs_to_lbind; [apply runs_to_execute_query; exact H|]. intros s2 H2 Hb2.
  cbn [sql_select_keys fst snd] in *. rewrite <- Hb2. apply runs_to_lret. exact H2.
Qed.

(** On a store without failures, [scan_library] returns [True], leaves the
    store without failures, and turns the relation into [scan_rows] of
    it. *)
Lemma scan_library_healthy cfg fs s :
  healthy s -> runs_to (scan_library cfg fs) s true (scan_rows cfg fs (books s)).
Proof.
  intros H. unfold scan_library, scan_rows.
  set (st := fold_left (visit_rows cfg fs) (walked cfg fs)
               (list_to_set (List.map key_of (books s)), ∅, books s)).
  eapply runs_to_lbind; [apply runs_to_llogging; exact H|]. intros s1 H1 Hb1.
  eapply runs_to_lbind; [apply get_all_books_healthy; exact H1|].
  intros s2 H2 Hb2. rewrite Hb1 in Hb2 |- *.
  apply runs_to_lbind with (a := fst st) (bs := snd st).
  { pose proof (lfold_healthy (scan_root cfg fs)
                  (fun a library_path => fold_left (visit_rows cfg fs) (root_visits fs library_path) a)
                  (fun st x s => scan_root_healthy cfg fs st x s)
                  (library_paths cfg fs) (list_to_set (List.map key_of (books s)), ∅) s2 H2) as Hl.
    rewrite <- fold_left_flat_map in Hl. fold (walked cfg fs) in Hl.
    rewrite Hb2 in Hl. exact Hl. }
  intros s3 H3 Hb3.
  apply runs_to_lbind
    with (a := tt)
         (bs := fold_left (fun bs k => mark_missing_rows k bs) (elements (fst (fst st))) (snd st)).
  { pose proof (lfold_healthy scan_remaining
                  (fun (a : unit * list book) k => (tt, mark_missing_rows k (snd a)))
                  (fun u k s0 H0 => mark_missing_healthy (fst k) (snd k) _ s0 H0)
                  (elements (fst (fst st))) tt s3 H3) as Hl.
    rewrite Hb3 in Hl.
    assert (Hfold : forall l bs,
               fold_left (fun (a : unit * list book) k => (tt, mark_missing_rows k (snd a))) l (tt, bs)
               = (tt, fold_left (fun bs k => mark_missing_rows k bs) l bs)).
    { induction l as [|k l IH]; intros bs; cbn [fold_left snd]; [reflexivity | apply IH]. }
    rewrite Hfold in Hl. exact Hl. }
  intros s4 H4 Hb4.
  eapply runs_to_lbind; [apply runs_to_llogging; exact H4|]. intros s5 H5 Hb5.
  rewrite <- Hb4, <- Hb5. apply runs_to_lret. exact H5.
Qed.

(** *** The statements of the scan, row by row *)

Lemma same_key_iff p n b : same_key p n b = true <-> key_of b = (p, n).
Proof.
  unfold same_key, key_of. rewrite andb_true_iff, !String.eqb_eq.
  split; [intros [-> ->]; reflexivity | intros H; injection H; auto].
Qed.

Lemma same_key_decide p n b : same_key p n b = bool_decide (key_of b = (p, n)).
Proof.
  destruct (same_key p n b) eqn:E.
  - symmetry. apply bool_decide_eq_true. now apply same_key_iff.
  - symmetry. apply bool_decide_eq_false. intros H. apply same_key_iff in H. congruence.
Qed.

Lemma same_row_iff p n e b : same_row p n e b = true <-> ident b = (p, n, e).
Proof.
  unfold same_row, ident. rewrite andb_true_iff, same_key_iff, String.eqb_eq. unfold key_of.
  split; [intros [H ->]; injection H as -> ->; reflexivity | intros H; injection H as -> -> ->; auto].
Qed.

Lemma existsb_same_row p n e bs :
  existsb (same_row p n e) bs = true <-> exists r, In r bs /\ ident r = (p, n, e).
Proof.
  rewrite existsb_exists. split; intros (r & Hin & H); exists r; split; auto;
    now apply same_row_iff.
Qed.

Lemma mark_missing_rows_eq k bs :
  mark_missing_rows k bs = List.map (on_key k (set_deleted true)) bs.
Proof.
  unfold mark_missing_rows, sql_mark_deleted, update_where. cbn [snd].
  apply map_ext. intros b. unfold on_key. rewrite same_key_decide.
  now destruct k.
Qed.

Lemma add_or_update_rows_eq p n e t bs :
  add_or_update_rows p n e t bs =
    if existsb (same_row p n e) bs
    then List.map (on_key (p, n) (restore_row t)) bs
    else (bs ++ [new_row p n e t])%list.
Proof.
  unfold add_or_update_rows, sql_insert_or_ignore.
  destruct (existsb (same_row p n e) bs); cbn [Z.eqb]; [|reflexivity].
  unfold sql_restore, update_where. cbn [snd].
  apply map_ext. intros b. unfold on_key. now rewrite same_key_decide.
Qed.

Lemma ident_on_key k f b : (forall x, ident (f x) = ident x) -> ident (on_key k f b) = ident b.
Proof. intros Hf. unfold on_key. destruct (bool_decide _); auto. Qed.

Lemma key_of_ident b1 b2 : ident b1 = ident b2 -> key_of b1 = key_of b2.
Proof. unfold ident, key_of. intros H. injection H as -> -> _. reflexivity. Qed.

Lemma key_on_key k f b : (forall x, ident (f x) = ident x) -> key_of (on_key k f b) = key_of b.
Proof. intros Hf. apply key_of_ident. now apply ident_on_key. Qed.

Lemma ident_set_deleted v b : ident (set_deleted v b) = ident b.
Proof. reflexivity. Qed.

Lemma ident_restore_row t b : ident (restore_row t b) = ident b.
Proof. reflexivity. Qed.

Lemma read_on_key k f b : (forall x, read (f x) = read x) -> read (on_key k f b) = read b.
Proof. intros Hf. unfold on_key. destruct (bool_decide _); auto. Qed.

Lemma restore_row_settled t b :
  deleted b = false -> transferable b = t -> restore_row t b = b.
Proof. destruct b. cbn. intros -> ->. reflexivity. Qed.

Lemma restore_row_set_deleted t v b : restore_row t (set_deleted v b) = restore_row t b.
Proof. reflexivity. Qed.

Lemma set_deleted_settled b : deleted b = true -> set_deleted true b = b.
Proof. destruct b. cbn. intros ->. reflexivity. Qed.

Lemma set_deleted_twice v b : set_deleted v (set_deleted v b) = set_deleted v b.
Proof. reflexivity. Qed.

(** The closing loop marks the rows whose key is among those left. *)
Lemma mark_all_missing_eq (l : list bkey) bs :
  fold_left (fun bs k => mark_missing_rows k bs) l bs =
    List.map (fun b => if bool_decide (key_of b ∈ l) then set_deleted true b else b) bs.
Proof.
  revert bs. induction l as [|k l IH]; intros bs; cbn [fold_left].
  - rewrite <- (map_id bs) at 1. apply map_ext. intros b.
    rewrite bool_decide_eq_false_2; [reflexivity|]. apply not_elem_of_nil.
  - rewrite IH, mark_missing_rows_eq, map_map. apply map_ext. intros b.
    unfold on_key. destruct (bool_decide_reflect (key_of b = k)) as [Hk|Hk].
    + rewrite (bool_decide_eq_true_2 (key_of b ∈ k :: l)) by (apply elem_of_cons; left; exact Hk).
      cbn. destruct (bool_decide _); reflexivity.
    + destruct (bool_decide_reflect (key_of b ∈ l)) as [Hl|Hl].
      * now rewrite bool_decide_eq_true_2 by (apply elem_of_cons; right; exact Hl).
      * rewrite bool_decide_eq_false_2; [reflexivity|].
        intros H. apply elem_of_cons in H as [?|?]; congruence.
Qed.

(** *** Which file speaks for a key *)

Section ScanInvariants.

Variable cfg : Config.
Variable fs : HostFS.

Lemma live_keys_snoc pre v :
  live_keys fs (pre ++ [v]) =
    if v_live fs v then live_keys fs pre ∪ {[v_key v]} else live_keys fs pre.
Proof.
  unfold live_keys. rewrite List.filter_app, List.map_app, list_to_set_app_L. cbn [List.filter].
  destruct (v_live fs v); cbn [List.map list_to_set]; set_solver.
Qed.

Lemma first_live_spec vs k v :
  first_live fs vs k = Some v -> v_live fs v = true /\ v_key v = k /\ In v vs.
Proof.
  unfold first_live. intros H. pose proof (find_some _ _ H) as [Hin Hv].
  apply andb_true_iff in Hv as [Hl Hk]. apply bool_decide_eq_true in Hk. auto.
Qed.

Lemma first_live_None vs k : first_live fs vs k = None <-> k ∉ live_keys fs vs.
Proof.
  unfold first_live, live_keys. induction vs as [|v vs IH]; cbn [List.find List.filter].
  - split; [intros _; set_solver | reflexivity].
  - destruct (v_live fs v) eqn:Hl; cbn [andb List.map list_to_set].
    + destruct (bool_decide_reflect (v_key v = k)) as [Hk|Hk].
      * split; [discriminate | intros H; exfalso; apply H; set_solver].
      * rewrite IH. set_solver.
    + exact IH.
Qed.

Lemma first_live_app pre suf k :
  first_live fs (pre ++ suf) k =
    match first_live fs pre k with
    | Some v => Some v
    | None => first_live fs suf k
    end.
Proof.
  unfold first_live. induction pre as [|v pre IH]; cbn [app List.find]; [reflexivity|].
  destruct (v_live fs v && bool_decide (v_key v = k))%bool; [reflexivity | exact IH].
Qed.

Lemma first_live_here pre v suf :
  v_live fs v = true -> v_key v ∉ live_keys fs pre ->
  first_live fs (pre ++ v :: suf) (v_key v) = Some v.
Proof.
  intros Hl Hk. rewrite first_live_app. apply first_live_None in Hk. rewrite Hk.
  unfold first_live. cbn [List.find]. rewrite Hl.
  now rewrite bool_decide_eq_true_2.
Qed.

Lemma first_live_prefix pre suf k v :
  first_live fs pre k = Some v -> first_live fs (pre ++ suf) k = Some v.
Proof. intros H. now rewrite first_live_app, H. Qed.

Lemma first_live_snoc_other pre v k :
  v_key v <> k -> first_live fs (pre ++ [v]) k = first_live fs pre k.
Proof.
  intros Hk. rewrite first_live_app. destruct (first_live fs pre k); [reflexivity|].
  unfold first_live. cbn [List.find].
  rewrite (bool_decide_eq_false_2 _ Hk), andb_false_r. reflexivity.
Qed.

Lemma first_live_snoc_dead pre v k :
  v_live fs v = false -> first_live fs (pre ++ [v]) k = first_live fs pre k.
Proof.
  intros Hl. rewrite first_live_app. destruct (first_live fs pre k); [reflexivity|].
  unfold first_live. cbn [List.find]. now rewrite Hl.
Qed.

(** An invariant of the walk that holds before it and is kept by every
    file holds after it. The invariant may speak of the files met so
    far. *)
Lemma walk_invariant (I : list visit -> scan_vars * list book -> Prop) vs st0 :
  I [] st0 ->
  (forall pre v suf st, vs = (pre ++ v :: suf)%list -> I pre st ->
     I (pre ++ [v])%list (visit_rows cfg fs st v)) ->
  I vs (fold_left (visit_rows cfg fs) vs st0).
Proof.
  intros H0 Hstep.
  assert (Hgen : forall suf pre st, vs = (pre ++ suf)%list -> I pre st ->
                   I (pre ++ suf)%list (fold_left (visit_rows cfg fs) suf st)).
  { induction suf as [|v suf IH]; intros pre st Hvs HI; cbn [fold_left].
    - now rewrite app_nil_r.
    - replace (pre ++ v :: suf)%list with ((pre ++ [v]) ++ suf)%list
        by (now rewrite <- app_assoc).
      apply IH; [now rewrite <- app_assoc|]. eapply Hstep; eassumption. }
  apply (Hgen vs [] st0 eq_refl H0).
Qed.

Lemma sets_after_step K0 pre v st :
  sets_after fs K0 pre st -> sets_after fs K0 (pre ++ [v]) (visit_rows cfg fs st v).
Proof.
  destruct st as [[all_books processed_books] bs]. unfold sets_after. cbn [fst].
  intros H. injection H as -> ->.
  rewrite live_keys_snoc. unfold visit_rows, v_live.
  generalize (live_keys fs pre) (v_key v). intros X k.
  destruct (v_supported v); cbn [andb fst]; [|reflexivity].
  destruct (v_on_disk fs v); cbn [fst].
  - destruct (decide (k ∉ X)) as [Hk|Hk]; cbn [fst].
    + assert (K0 ∖ X ∖ {[k]} = K0 ∖ (X ∪ {[k]})) as -> by set_solver.
      reflexivity.
    + apply dec_stable in Hk.
      assert (X ∪ {[k]} = X) as -> by set_solver.
      reflexivity.
  - destruct (decide (k ∈ K0 ∖ X)); reflexivity.
Qed.

Lemma sets_after_init K0 bs : sets_after fs K0 [] ((K0, ∅), bs).
Proof.
  unfold sets_after, live_keys. cbn [fst List.filter List.map list_to_set].
  now rewrite difference_empty_L.
Qed.

End ScanInvariants.

(** *** A catalog that a scan leaves as it is *)

Section ScanFixedPoint.

Variable cfg : Config.
Variable fs : HostFS.

Lemma pending_ident pend c r :
  In r (pending pend c) -> exists r0, In r0 c /\ ident r = ident r0.
Proof.
  unfold pending. intros H. apply in_map_iff in H as (r0 & <- & Hin).
  exists r0. split; [assumption|]. destruct (bool_decide _); reflexivity.
Qed.

Lemma pending_has pend c r0 :
  In r0 c -> exists r, In r (pending pend c) /\ ident r = ident r0.
Proof.
  intros Hin. eexists. split; [apply in_map; exact Hin|].
  cbv beta. destruct (bool_decide _); reflexivity.
Qed.

Lemma fixed_inv_step vs c pre v suf st :
  settled cfg fs vs c -> vs = (pre ++ v :: suf)%list ->
  fixed_inv fs vs c pre st -> fixed_inv fs vs c (pre ++ [v]) (visit_rows cfg fs st v).
Proof.
  intros [Hlive Hdead] Hvs [Hsets (pend & Hdisj & Hbs)].
  split; [apply sets_after_step; exact Hsets|].
  destruct st as [[all_books processed_books] bs]. unfold sets_after in Hsets.
  cbn [fst snd] in *. injection Hsets as -> ->.
  rewrite live_keys_snoc. unfold visit_rows, v_live.
  destruct (v_supported v) eqn:Hsup; cbn [andb snd]; [|exists pend; auto].
  destruct (v_on_disk fs v) eqn:Hdisk; cbn [snd].
  - destruct (decide (v_key v ∉ live_keys fs pre)) as [Hk|Hk]; cbn [snd].
    + (* the file speaks for its key: its row is there, and the rows of
         the key are as the statement leaves them *)
      assert (Hfirst : first_live fs vs (v_key v) = Some v).
      { rewrite Hvs. apply first_live_here; [|exact Hk].
        unfold v_live. now rewrite Hsup, Hdisk. }
      destruct (Hlive _ _ Hfirst) as [(r1 & Hr1 & Hid1) Hrows].
      exists (pend ∖ {[v_key v]}). split.
      { revert Hdisj. generalize (live_keys fs pre) (v_key v). intros X k. set_solver. }
      rewrite add_or_update_rows_eq.
      assert (Hex : existsb (same_row (fst v) (v_name v) (v_ext v)) bs = true).
      { apply existsb_same_row. rewrite Hbs.
        destruct (pending_has pend c r1 Hr1) as (r & Hr & Hid).
        exists r. split; [assumption|]. now rewrite Hid, Hid1. }
      rewrite Hex, Hbs. unfold pending. rewrite map_map. apply map_ext_in.
      intros r Hr. unfold on_key.
      assert (Hkey : forall b : bool, key_of (if b then set_deleted true r else r) = key_of r)
        by (intros []; reflexivity).
      rewrite Hkey. fold (v_key v).
      destruct (bool_decide_reflect (key_of r = v_key v)) as [Hrk|Hrk].
      * rewrite (bool_decide_eq_false_2 (key_of r ∈ pend ∖ {[v_key v]}))
          by (rewrite Hrk; set_solver).
        destruct (Hrows r Hr Hrk) as [Hd Ht].
        destruct (bool_decide _); [rewrite restore_row_set_deleted|];
          now apply restore_row_settled.
      * destruct (bool_decide_reflect (key_of r ∈ pend)) as [Hp|Hp].
        -- now rewrite bool_decide_eq_true_2 by set_solver.
        -- now rewrite bool_decide_eq_false_2 by set_solver.
    + exists pend. split; [|assumption].
      revert Hdisj Hk. generalize (live_keys fs pre) (v_key v). intros X k ? Hk.
      apply dec_stable in Hk. set_solver.
  - destruct (decide (v_key v ∈ list_to_set (List.map key_of c) ∖ live_keys fs pre))
      as [Hk|Hk]; cbn [snd]; [|exists pend; auto].
    exists (pend ∪ {[v_key v]}). split.
    { revert Hdisj Hk. generalize (live_keys fs pre) (v_key v). intros X k. set_solver. }
    rewrite mark_missing_rows_eq, Hbs. unfold pending. rewrite map_map. apply map_ext.
    intros r. unfold on_key.
    assert (Hkey : forall b : bool, key_of (if b then set_deleted true r else r) = key_of r)
      by (intros []; reflexivity).
    rewrite Hkey.
    destruct (bool_decide_reflect (key_of r = v_key v)) as [Hrk|Hrk].
    + rewrite (bool_decide_eq_true_2 (key_of r ∈ pend ∪ {[v_key v]})) by set_solver.
      destruct (bool_decide _); reflexivity.
    + destruct (bool_decide_reflect (key_of r ∈ pend)) as [Hp|Hp].
      * now rewrite bool_decide_eq_true_2 by set_solver.
      * now rewrite bool_decide_eq_false_2 by set_solver.
Qed.

(** A settled catalog is a fixed point of the scan. *)
Lemma scan_rows_settled c :
  settled cfg fs (walked cfg fs) c -> scan_rows cfg fs c = c.
Proof.
  intros Hset. unfold scan_rows.
  pose proof (walk_invariant cfg fs (fixed_inv fs (walked cfg fs) c) (walked cfg fs)
                ((list_to_set (List.map key_of c), ∅), c)) as Hinv.
  destruct Hinv as [Hsets (pend & Hdisj & Hbs)].
  { split; [apply sets_after_init|]. exists ∅. split; [set_solver|].
    cbn [snd]. unfold pending. rewrite <- (map_id c) at 1. apply map_ext. intros r.
    now rewrite bool_decide_eq_false_2 by set_solver. }
  { intros pre v suf st Hvs. apply (fixed_inv_step _ _ _ _ suf); assumption. }
  destruct (fold_left _ _ _) as [[all_books processed_books] bs].
  unfold sets_after in Hsets. cbn [fst snd] in *. injection Hsets as -> ->.
  rewrite mark_all_missing_eq, Hbs. unfold pending. rewrite map_map.
  rewrite <- (map_id c) at 2. apply map_ext_in. intros r Hr.
  assert (Hkey : forall b : bool, key_of (if b then set_deleted true r else r) = key_of r)
    by (intros []; reflexivity).
  rewrite Hkey.
  assert (HK0 : key_of r ∈ (list_to_set (List.map key_of c) : gset bkey)).
  { apply elem_of_list_to_set, list_elem_of_In, in_map. exact Hr. }
  destruct Hset as [_ Hdead].
  destruct (decide (key_of r ∈ live_keys fs (walked cfg fs))) as [Hl|Hl].
  - rewrite (bool_decide_eq_false_2 (key_of r ∈ elements _)).
    2:{ rewrite elem_of_elements. revert Hl. generalize (live_keys fs (walked cfg fs)). set_solver. }
    rewrite bool_decide_eq_false_2; [reflexivity|].
    revert Hl Hdisj. generalize (live_keys fs (walked cfg fs)). set_solver.
  - rewrite (bool_decide_eq_true_2 (key_of r ∈ elements _)).
    2:{ rewrite elem_of_elements. revert Hl HK0.
        generalize (live_keys fs (walked cfg fs)) (list_to_set (List.map key_of c) : gset bkey).
        set_solver. }
    apply first_live_None in Hl. specialize (Hdead r Hr Hl).
    destruct (bool_decide _); [rewrite set_deleted_twice|]; now apply set_deleted_settled.
Qed.

End ScanFixedPoint.

(** *** What a scan establishes *)

Section ScanPost.

Variable cfg : Config.
Variable fs : HostFS.

Lemma first_live_snoc_old pre v k :
  v_live fs v = false \/ v_key v ∈ live_keys fs pre ->
  first_live fs (pre ++ [v]) k = first_live fs pre k.
Proof.
  intros [Hd|Hin]; [now apply first_live_snoc_dead|].
  destruct (decide (v_key v = k)) as [<-|Hne]; [|now apply first_live_snoc_other].
  rewrite first_live_app.
  destruct (first_live fs pre (v_key v)) eqn:E; [reflexivity|].
  apply first_live_None in E. contradiction.
Qed.

Lemma first_live_snoc_new pre v k v' :
  v_live fs v = true -> v_key v ∉ live_keys fs pre ->
  first_live fs (pre ++ [v]) k = Some v' ->
  (k = v_key v /\ v' = v) \/ (k <> v_key v /\ first_live fs pre k = Some v').
Proof.
  intros Hl Hk H.
  destruct (decide (v_key v = k)) as [<-|Hne].
  - left. split; [reflexivity|].
    rewrite (first_live_here fs pre v [] Hl Hk) in H. now injection H.
  - right. split; [congruence|]. now rewrite first_live_snoc_other in H.
Qed.

Lemma live_keys_mono pre v k : k ∉ live_keys fs (pre ++ [v]) -> k ∉ live_keys fs pre.
Proof.
  rewrite live_keys_snoc. destruct (v_live fs v); [|auto].
  generalize (live_keys fs pre) (v_key v). set_solver.
Qed.

Lemma in_map_on_key k f bs r' :
  In r' (List.map (on_key k f) bs) ->
  exists r, In r bs /\ r' = on_key k f r.
Proof. intros H. apply in_map_iff in H as (r & <- & Hin). eauto. Qed.

(** A step that leaves the state and adds no file that speaks. *)
Lemma post_inv_idle c pre v st :
  v_live fs v = false \/ v_key v ∈ live_keys fs pre ->
  visit_rows cfg fs st v = st ->
  post_inv cfg fs c pre st -> post_inv cfg fs c (pre ++ [v]) (visit_rows cfg fs st v).
Proof.
  intros Hold Hsame (Hsets & H1a & H1b & H2 & H3).
  split; [apply sets_after_step; exact Hsets|]. rewrite Hsame.
  split; [|split; [|split]].
  - intros k v'. rewrite (first_live_snoc_old _ _ _ Hold). apply H1a.
  - intros k v'. rewrite (first_live_snoc_old _ _ _ Hold). apply H1b.
  - intros r Hr Hk. apply H2; [assumption|]. eapply live_keys_mono; eassumption.
  - exact H3.
Qed.

Lemma post_inv_step c pre v st :
  post_inv cfg fs c pre st -> post_inv cfg fs c (pre ++ [v]) (visit_rows cfg fs st v).
Proof.
  intros Hinv.
  destruct (v_supported v) eqn:Hsup.
  2:{ apply post_inv_idle; [left; unfold v_live; now rewrite Hsup | | exact Hinv].
      destruct st as [[? ?] ?]. unfold visit_rows. now rewrite Hsup. }
  pose proof Hinv as (Hsets & H1a & H1b & H2 & H3).
  destruct st as [[all_books processed_books] bs]. unfold sets_after in Hsets.
  cbn [fst snd] in *. injection Hsets as -> ->.
  destruct (v_on_disk fs v) eqn:Hdisk.
  - destruct (decide (v_key v ∉ live_keys fs pre)) as [Hk|Hk].
    2:{ apply dec_stable in Hk. apply post_inv_idle; [right; exact Hk | | exact Hinv].
        unfold visit_rows. rewrite Hsup, Hdisk.
        destruct (decide (v_key v ∉ live_keys fs pre)); [contradiction | reflexivity]. }
    assert (Hl : v_live fs v = true) by (unfold v_live; now rewrite Hsup, Hdisk).
    split; [apply sets_after_step; reflexivity|].
    unfold visit_rows. rewrite Hsup, Hdisk.
    destruct (decide (v_key v ∉ live_keys fs pre)); [|contradiction]. cbn [snd].
    rewrite add_or_update_rows_eq.
    destruct (existsb (same_row (fst v) (v_name v) (v_ext v)) bs) eqn:Hex.
    + (* the row of the file is there: the rows of its key are restored *)
      apply existsb_same_row in Hex as (rv & Hrv & Hidv).
      split; [|split; [|split]].
      * intros k v' Hf.
        destruct (first_live_snoc_new _ _ _ _ Hl Hk Hf) as [[-> ->]|[Hne Hf']].
        -- exists (on_key (fst v, v_name v) (restore_row (is_transferable cfg (v_ext v))) rv).
           split; [apply in_map; exact Hrv|].
           rewrite ident_on_key by apply ident_restore_row. exact Hidv.
        -- destruct (H1a _ _ Hf') as (r & Hr & Hid).
           exists (on_key (fst v, v_name v) (restore_row (is_transferable cfg (v_ext v))) r).
           split; [apply in_map; exact Hr|].
           rewrite ident_on_key by apply ident_restore_row. exact Hid.
      * intros k v' Hf Hanch r' Hr' Hkey.
        apply in_map_on_key in Hr' as (r & Hr & ->).
        rewrite key_on_key in Hkey by apply ident_restore_row.
        destruct (first_live_snoc_new _ _ _ _ Hl Hk Hf) as [[-> ->]|[Hne Hf']].
        -- unfold on_key. fold (v_key v). rewrite bool_decide_eq_true_2 by exact Hkey.
           split; reflexivity.
        -- unfold on_key. fold (v_key v).
           rewrite bool_decide_eq_false_2 by congruence.
           now apply (H1b _ _ Hf' Hanch).
      * intros r' Hr' Hkey. apply in_map_on_key in Hr' as (r & Hr & ->).
        rewrite key_on_key in Hkey by apply ident_restore_row.
        rewrite ident_on_key by apply ident_restore_row.
        apply H2; [assumption|]. eapply live_keys_mono; eassumption.
      * intros r0 Hr0. destruct (H3 r0 Hr0) as (r & Hr & Hid).
        exists (on_key (fst v, v_name v) (restore_row (is_transferable cfg (v_ext v))) r).
        split; [apply in_map; exact Hr|].
        rewrite ident_on_key by apply ident_restore_row. exact Hid.
    + (* the row of the file is new *)
      assert (Hnone : forall r, In r bs -> ident r <> v_ident v).
      { intros r Hr Hid. assert (existsb (same_row (fst v) (v_name v) (v_ext v)) bs = true)
          by (apply existsb_same_row; eauto). congruence. }
      split; [|split; [|split]].
      * intros k v' Hf.
        destruct (first_live_snoc_new _ _ _ _ Hl Hk Hf) as [[-> ->]|[Hne Hf']].
        -- eexists. split; [apply in_or_app; right; left; reflexivity | reflexivity].
        -- destruct (H1a _ _ Hf') as (r & Hr & Hid).
           exists r. split; [apply in_or_app; left; exact Hr | exact Hid].
      * intros k v' Hf Hanch r Hr Hkey. apply in_app_or in Hr as [Hr|[<-|[]]].
        -- destruct (first_live_snoc_new _ _ _ _ Hl Hk Hf) as [[-> ->]|[Hne Hf']].
           ++ exfalso.
              destruct (H2 r Hr) as (r0 & Hr0 & Hid0); [rewrite Hkey; exact Hk|].
              destruct Hanch as [(r1 & Hr1 & Hid1)|Hfresh].
              ** destruct (H3 r1 Hr1) as (r2 & Hr2 & Hid2).
                 apply (Hnone r2 Hr2). congruence.
              ** apply (Hfresh r0 Hr0). rewrite (key_of_ident _ _ Hid0). exact Hkey.
           ++ now apply (H1b _ _ Hf' Hanch).
        -- destruct (first_live_snoc_new _ _ _ _ Hl Hk Hf) as [[-> ->]|[Hne Hf']].
           ++ split; reflexivity.
           ++ exfalso. apply Hne. symmetry. exact Hkey.
      * intros r Hr Hkey. apply in_app_or in Hr as [Hr|[<-|[]]].
        -- apply H2; [assumption|]. eapply live_keys_mono; eassumption.
        -- exfalso. apply Hkey. rewrite live_keys_snoc, Hl.
           change (key_of (new_row (fst v) (v_name v) (v_ext v)
                             (is_transferable cfg (v_ext v)))) with (v_key v).
           generalize (live_keys fs pre) (v_key v). set_solver.
      * intros r0 Hr0. destruct (H3 r0 Hr0) as (r & Hr & Hid).
        exists r. split; [apply in_or_app; left; exact Hr | exact Hid].
  - (* a supported name whose path is not there *)
    assert (Hl : v_live fs v = false) by (unfold v_live; now rewrite Hsup, Hdisk).
    destruct (decide (v_key v ∈ list_to_set (List.map key_of c) ∖ live_keys fs pre))
      as [Hk|Hk].
    2:{ apply post_inv_idle; [left; exact Hl | | exact Hinv].
        unfold visit_rows. rewrite Hsup, Hdisk.
        destruct (decide (v_key v ∈ _)); [contradiction | reflexivity]. }
    split; [apply sets_after_step; reflexivity|].
    unfold visit_rows. rewrite Hsup, Hdisk.
    destruct (decide (v_key v ∈ _)); [|contradiction]. cbn [snd].
    rewrite mark_missing_rows_eq.
    assert (Hnl : v_key v ∉ live_keys fs pre).
    { revert Hk. generalize (live_keys fs pre) (v_key v). set_solver. }
    split; [|split; [|split]].
    + intros k v'. rewrite (first_live_snoc_dead _ _ _ _ Hl). intros Hf.
      destruct (H1a _ _ Hf) as (r & Hr & Hid).
      exists (on_key (v_key v) (set_deleted true) r). split; [apply in_map; exact Hr|].
      rewrite ident_on_key by apply ident_set_deleted. exact Hid.
    + intros k v'. rewrite (first_live_snoc_dead _ _ _ _ Hl). intros Hf Hanch r' Hr' Hkey.
      apply in_map_on_key in Hr' as (r & Hr & ->).
      rewrite key_on_key in Hkey by apply ident_set_deleted.
      assert (Hne : key_of r <> v_key v).
      { intros Heq. apply Hnl. rewrite <- Heq, Hkey.
        destruct (decide (k ∈ live_keys fs pre)) as [|Hn]; [assumption|].
        apply first_live_None in Hn. congruence. }
      unfold on_key. rewrite bool_decide_eq_false_2 by exact Hne.
      now apply (H1b _ _ Hf Hanch).
    + intros r' Hr' Hkey. apply in_map_on_key in Hr' as (r & Hr & ->).
      rewrite key_on_key in Hkey by apply ident_set_deleted.
      rewrite ident_on_key by apply ident_set_deleted.
      apply H2; [assumption|]. eapply live_keys_mono; eassumption.
    + intros r0 Hr0. destruct (H3 r0 Hr0) as (r & Hr & Hid).
      exists (on_key (v_key v) (set_deleted true) r). split; [apply in_map; exact Hr|].
      rewrite ident_on_key by apply ident_set_deleted. exact Hid.
Qed.

End ScanPost.

Section ScanResult.

Variable cfg : Config.
Variable fs : HostFS.

(** What holds of the catalog after a scan, whatever it was before. *)
Lemma scan_rows_post c :
  (forall k v, first_live fs (walked cfg fs) k = Some v ->
     (exists r, In r (scan_rows cfg fs c) /\ ident r = v_ident v) /\
     (key_anchored c k v ->
      forall r, In r (scan_rows cfg fs c) -> key_of r = k ->
        deleted r = false /\ transferable r = is_transferable cfg (v_ext v)))
  /\
  (forall r, In r (scan_rows cfg fs c) ->
     first_live fs (walked cfg fs) (key_of r) = None -> deleted r = true).
Proof.
  unfold scan_rows.
  pose proof (walk_invariant cfg fs (post_inv cfg fs c) (walked cfg fs)
                ((list_to_set (List.map key_of c), ∅), c)) as Hinv.
  destruct Hinv as (Hsets & H1a & H1b & H2 & H3).
  { split; [apply sets_after_init|]. cbn [snd].
    split; [intros k v H; discriminate|]. split; [intros k v H; discriminate|].
    split; [intros r Hr _; eauto | intros r0 Hr0; eauto]. }
  { intros pre v suf st _. apply post_inv_step. }
  destruct (fold_left _ _ _) as [[all_books processed_books] bs].
  unfold sets_after in Hsets. cbn [fst snd] in *. injection Hsets as -> ->.
  rewrite mark_all_missing_eq.
  set (g := fun b : book => if bool_decide (key_of b ∈ elements _) then set_deleted true b else b).
  assert (Hgid : forall b, ident (g b) = ident b).
  { intros b. unfold g. destruct (bool_decide _); reflexivity. }
  split.
  - intros k v Hf. split.
    + destruct (H1a _ _ Hf) as (r & Hr & Hid). exists (g r).
      split; [apply in_map; exact Hr | now rewrite Hgid].
    + intros Hanch r' Hr' Hkey. apply in_map_iff in Hr' as (r & <- & Hr).
      rewrite (key_of_ident _ _ (Hgid r)) in Hkey.
      assert (Hlive : k ∈ live_keys fs (walked cfg fs)).
      { destruct (decide (k ∈ live_keys fs (walked cfg fs))) as [|Hn]; [assumption|].
        apply first_live_None in Hn. congruence. }
      unfold g. rewrite bool_decide_eq_false_2.
      * now apply (H1b _ _ Hf Hanch).
      * rewrite elem_of_elements, Hkey. revert Hlive.
        generalize (live_keys fs (walked cfg fs)). set_solver.
  - intros r' Hr' Hf. apply in_map_iff in Hr' as (r & <- & Hr).
    rewrite (key_of_ident _ _ (Hgid r)) in Hf. apply first_live_None in Hf.
    destruct (H2 r Hr Hf) as (r0 & Hr0 & Hid0).
    assert (HK0 : key_of r ∈ (list_to_set (List.map key_of c) : gset bkey)).
    { rewrite <- (key_of_ident _ _ Hid0).
      apply elem_of_list_to_set, list_elem_of_In, in_map. exact Hr0. }
    unfold g. rewrite bool_decide_eq_true_2; [reflexivity|].
    rewrite elem_of_elements. revert Hf HK0.
    generalize (live_keys fs (walked cfg fs)) (list_to_set (List.map key_of c) : gset bkey).
    set_solver.
Qed.

(** After a scan of a catalog that knew the speaking files or had nothing
    under their keys, the catalog is settled. *)
Lemma scan_rows_settles c :
  known_or_fresh fs (walked cfg fs) c -> settled cfg fs (walked cfg fs) (scan_rows cfg fs c).
Proof.
  intros Hkf. destruct (scan_rows_post c) as [Hlive Hdead].
  split; [|exact Hdead].
  intros k v Hf. destruct (Hlive k v Hf) as [Hrow Hflags].
  split; [exact Hrow | exact (Hflags (Hkf k v Hf))].
Qed.

(** After any scan, the catalog knows the speaking files. *)
Lemma scan_rows_known c : known_or_fresh fs (walked cfg fs) (scan_rows cfg fs c).
Proof.
  intros k v Hf. left. destruct (scan_rows_post c) as [Hlive _].
  exact (proj1 (Hlive k v Hf)).
Qed.

Lemma scan_rows_idempotent c :
  known_or_fresh fs (walked cfg fs) c ->
  scan_rows cfg fs (scan_rows cfg fs c) = scan_rows cfg fs c.
Proof. intros H. apply scan_rows_settled, scan_rows_settles, H. Qed.

End ScanResult.

(** ** Idempotence of the scan *)

(** C8 (as amended). On a store whose statements succeed, and with the
    file system unchanged between the runs: a second [scan_library] leaves
    the catalog as the first one left it, provided that, for every key
    (directory, name) the walk records, the catalog before the first run
    has the row of the first file recorded under that key, or no row of
    that key at all. Without that proviso the second run may still change
    rows, and the catalog is the same from the second run on: a third run
    changes nothing. *)
Theorem C8_scan_idempotent cfg fs s :
  healthy s ->
  let once := snd (scan_library cfg fs s) in
  let twice := snd (scan_library cfg fs once) in
  let thrice := snd (scan_library cfg fs twice) in
  (known_or_fresh fs (walked cfg fs) (books s) -> books twice = books once) /\
  books thrice = books twice.
Proof.
  intros H once twice thrice.
  destruct (scan_library_healthy cfg fs s H) as (s1 & Hrun1 & Hb1 & H1).
  assert (Honce : once = s1) by (subst once; now rewrite Hrun1).
  destruct (scan_library_healthy cfg fs s1 H1) as (s2 & Hrun2 & Hb2 & H2).
  assert (Htwice : twice = s2) by (subst twice; rewrite Honce; now rewrite Hrun2).
  destruct (scan_library_healthy cfg fs s2 H2) as (s3 & Hrun3 & Hb3 & H3).
  assert (Hthrice : thrice = s3) by (subst thrice; rewrite Htwice; now rewrite Hrun3).
  rewrite Honce, Htwice, Hthrice, Hb3, Hb2, Hb1. split.
  - apply scan_rows_idempotent.
  - apply scan_rows_idempotent, scan_rows_known.
Qed.

Lemma C8_scan_idempotent_witness :
  let cfg := Sample.config ["epub"; "pdf"] in
  let fs := flat_host ["n.epub"] in
  let s := Sample.store [Sample.row "/lib" "n" "epub" true true false] [] in
  healthy s /\
  known_or_fresh fs (walked cfg fs) (books s) /\
  books (snd (scan_library cfg fs (snd (scan_library cfg fs s))))
    = books (snd (scan_library cfg fs s)).
Proof.
  cbv zeta.
  assert (Hh : healthy (Sample.store [Sample.row "/lib" "n" "epub" true true false] []))
    by (split; reflexivity).
  assert (Hk : known_or_fresh (flat_host ["n.epub"])
                 (walked (Sample.config ["epub"; "pdf"]) (flat_host ["n.epub"]))
                 (books (Sample.store [Sample.row "/lib" "n" "epub" true true false] []))).
  { intros k v Hf. apply first_live_spec in Hf as (_ & _ & Hin).
    destruct Hin as [<-|[]]. left. eexists. split; [left; reflexivity | reflexivity]. }
  split; [exact Hh|]. split; [exact Hk|].
  exact (proj1 (C8_scan_idempotent (Sample.config ["epub"; "pdf"]) (flat_host ["n.epub"])
                  (Sample.store [Sample.row "/lib" "n" "epub" true true false] []) Hh) Hk).
Defined.

(** C8 (as stated) fails. The catalog is the one two scans produce from
    nothing: [n.pdf] is recorded, then found gone. The book comes back as
    [n.epub]. The first scan of that file system adds the row of
    [n.epub] and leaves the row of [n.pdf] deleted; the second scan, of
    the same file system, finds the row of [n.epub], updates by directory
    and name, and revives the row of [n.pdf]. *)
Lemma C8_counterexample :
  let cfg := Sample.config ["epub"; "pdf"] in
  let before :=
    snd (scan_library cfg (flat_host [])
           (snd (scan_library cfg (flat_host ["n.pdf"]) (Sample.store [] [])))) in
  let once := snd (scan_library cfg (flat_host ["n.epub"]) before) in
  let twice := snd (scan_library cfg (flat_host ["n.epub"]) once) in
  healthy before /\
  books before = [Sample.row "/lib" "n" "pdf" false true true] /\
  books once = [Sample.row "/lib" "n" "pdf" false true true;
                Sample.row "/lib" "n" "epub" false false true] /\
  books twice = [Sample.row "/lib" "n" "pdf" false false true;
                 Sample.row "/lib" "n" "epub" false false true] /\
  books twice <> books once.
Proof.
  cbv zeta. split; [split; vm_compute; reflexivity|].
  split; [vm_compute; reflexivity|]. split; [vm_compute; reflexivity|].
  split; [vm_compute; reflexivity|].
  intros H. vm_compute in H. discriminate.
Qed.

(** ** The scan and the [read] flag *)

Lemma kept_refl bs : kept bs bs.
Proof. exists []. split; [now rewrite app_nil_r | constructor]. Qed.

Lemma kept_trans bs1 bs2 bs3 : kept bs1 bs2 -> kept bs2 bs3 -> kept bs1 bs3.
Proof.
  intros (e1 & H1 & F1) (e2 & H2 & F2). exists (e1 ++ e2)%list. split.
  - now rewrite H2, H1, <- app_assoc.
  - apply Forall_app. auto.
Qed.

Lemma kept_lookup bs bs' i r :
  kept bs bs' -> bs !! i = Some r ->
  exists r', bs' !! i = Some r' /\ ident r' = ident r /\ read r' = read r.
Proof.
  intros (extra & Hmap & _). revert bs' i Hmap.
  induction bs as [|b bs IH]; intros bs' i Hmap Hi; [discriminate|].
  destruct bs' as [|b' bs']; [discriminate|].
  cbn [List.map app] in Hmap. injection Hmap as Hp Hn He Hrd Hrest.
  destruct i as [|i]; cbn in Hi |- *.
  - injection Hi as <-. exists b'. unfold ident. rewrite Hp, Hn, He. auto.
  - eapply IH; eassumption.
Qed.

Lemma kept_update c f bs :
  (forall b, id_read (f b) = id_read b) -> kept bs (snd (update_where c f bs)).
Proof.
  intros Hf. exists []. split; [|constructor].
  rewrite app_nil_r. unfold update_where. cbn [snd]. rewrite map_map.
  apply map_ext. intros b. destruct (c b); [apply Hf | reflexivity].
Qed.

Lemma kept_insert p n e t bs : kept bs (snd (sql_insert_or_ignore p n e t bs)).
Proof.
  unfold sql_insert_or_ignore. destruct (existsb _ bs); cbn [snd]; [apply kept_refl|].
  eexists. split; [apply List.map_app|]. repeat constructor.
Qed.

Lemma lkeeps_lret {A} (a : A) : lkeeps (lret a).
Proof. intros s. apply kept_refl. Qed.

Lemma lkeeps_lbind {A B} (m : L A) (k : A -> L B) :
  lkeeps m -> (forall a, lkeeps (k a)) -> lkeeps (lbind m k).
Proof.
  intros Hm Hk s. unfold lbind. specialize (Hm s). destruct (m s) as [a s1].
  cbn [snd] in Hm. eapply kept_trans; [exact Hm | apply Hk].
Qed.

Lemma lkeeps_lfold {A St} (body : St -> A -> L St) (l : list A) :
  (forall st x, lkeeps (body st x)) -> forall st, lkeeps (lfold body l st).
Proof.
  intros Hbody. induction l as [|x l IH]; intros st; cbn [lfold].
  - apply lkeeps_lret.
  - apply lkeeps_lbind; [apply Hbody | intros a; apply IH].
Qed.

Lemma lkeeps_llogging lv msg strs : lkeeps (llogging lv msg strs).
Proof. intros s. apply kept_refl. Qed.

Lemma lkeeps_if {A} (c : bool) (m1 m2 : L A) : lkeeps m1 -> lkeeps m2 -> lkeeps (if c then m1 else m2).
Proof. now destruct c. Qed.

Lemma lkeeps_execute_query {A} (q : stmt A) :
  (forall bs, kept bs (snd (q bs))) -> lkeeps (execute_query q).
Proof.
  intros Hq s. unfold execute_query.
  destruct (conn s); cbn [negb snd]; [|apply kept_refl].
  destruct (faults s) as [|[] rest]; cbn [snd]; try apply kept_refl;
    specialize (Hq (books s)); destruct (q (books s)); exact Hq.
Qed.

Lemma lkeeps_select_deleted p n : lkeeps (execute_query (sql_select_deleted p n)).
Proof. apply lkeeps_execute_query. intros bs. apply kept_refl. Qed.

Lemma lkeeps_mark_deleted p n : lkeeps (execute_query (sql_mark_deleted p n)).
Proof. apply lkeeps_execute_query. intros bs. apply kept_update. reflexivity. Qed.

Lemma lkeeps_restore t p n : lkeeps (execute_query (sql_restore t p n)).
Proof. apply lkeeps_execute_query. intros bs. apply kept_update. reflexivity. Qed.

Lemma lkeeps_insert p n e t : lkeeps (execute_query (sql_insert_or_ignore p n e t)).
Proof. apply lkeeps_execute_query. intros bs. apply kept_insert. Qed.

Lemma lkeeps_mark_missing p n shown : lkeeps (mark_missing p n shown).
Proof.
  unfold mark_missing.
  apply lkeeps_lbind; [apply lkeeps_select_deleted|]. intros result.
  apply lkeeps_lbind; [apply lkeeps_if; [apply lkeeps_llogging | apply lkeeps_lret]|].
  intros _. apply lkeeps_lbind; [apply lkeeps_mark_deleted | intros _; apply lkeeps_lret].
Qed.

Lemma lkeeps_add_or_update_book p n e t : lkeeps (add_or_update_book p n e t).
Proof.
  unfold add_or_update_book.
  apply lkeeps_lbind; [apply lkeeps_insert|]. intros rows.
  apply lkeeps_lbind; [|intros _; apply lkeeps_lret].
  apply lkeeps_if; [|apply lkeeps_lret].
  apply lkeeps_lbind; [apply lkeeps_select_deleted|]. intros result.
  apply lkeeps_lbind; [apply lkeeps_if; [apply lkeeps_llogging | apply lkeeps_lret]|].
  intros _. apply lkeeps_lbind; [apply lkeeps_restore | intros _; apply lkeeps_lret].
Qed.

Lemma lkeeps_scan_file cfg fs root st file : lkeeps (scan_file cfg fs root st file).
Proof.
  destruct st as [all_books processed_books]. unfold scan_file.
  repeat (apply lkeeps_if || match goal with
                             | |- lkeeps (if decide ?P then _ else _) => destruct (decide P)
                             end); try apply lkeeps_lret.
  - apply lkeeps_lbind; [apply lkeeps_add_or_update_book|]. intros added.
    apply lkeeps_lbind; [|intros _; apply lkeeps_lret].
    apply lkeeps_if; [apply lkeeps_llogging | apply lkeeps_lret].
  - apply lkeeps_lbind; [apply lkeeps_mark_missing | intros _; apply lkeeps_lret].
Qed.

(** In any state of the store, with or without failures, a scan keeps
    every row in its place with its path, name, extension and [read]
    flag. *)
Lemma lkeeps_scan_library cfg fs : lkeeps (scan_library cfg fs).
Proof.
  unfold scan_library.
  apply lkeeps_lbind; [apply lkeeps_llogging|]. intros _.
  apply lkeeps_lbind.
  { unfold get_all_books. apply lkeeps_lbind.
    - apply lkeeps_execute_query. intros bs. apply kept_refl.
    - intros [rows|]; apply lkeeps_lret. }
  intros all_books.
  apply lkeeps_lbind.
  { apply lkeeps_lfold. intros st library_path. unfold scan_root.
    apply lkeeps_if.
    - apply lkeeps_lbind; [apply lkeeps_llogging | intros _; apply lkeeps_lret].
    - apply lkeeps_lfold. intros st1 entry. unfold scan_directory.
      apply lkeeps_lfold. intros st2 file. apply lkeeps_scan_file. }
  intros st.
  apply lkeeps_lbind.
  { apply lkeeps_lfold. intros [] k. apply lkeeps_mark_missing. }
  intros _. apply lkeeps_lbind; [apply lkeeps_llogging | intros _; apply lkeeps_lret].
Qed.

(** ** Restoration *)

(** C4 (as amended). A scan never changes the [read] flag of a record: in
    any state of the store, every record keeps its place, its path, name
    and extension, and its [read] flag. When no statement fails, a record
    whose file is on disk and is the first file the walk records under
    the record's key (directory, name) is live after the scan, with
    [transferable] computed afresh from its extension. *)
Theorem C4_scan_restores cfg fs s :
  (forall i r, books s !! i = Some r ->
     exists r', books (snd (scan_library cfg fs s)) !! i = Some r' /\
                ident r' = ident r /\ read r' = read r)
  /\
  (healthy s ->
   forall i r v,
     books s !! i = Some r ->
     first_live fs (walked cfg fs) (key_of r) = Some v ->
     v_ident v = ident r ->
     exists r', books (snd (scan_library cfg fs s)) !! i = Some r' /\
                ident r' = ident r /\ read r' = read r /\
                deleted r' = false /\
                transferable r' = is_transferable cfg (file_extension r)).
Proof.
  split.
  - intros i r Hi. eapply kept_lookup; [apply lkeeps_scan_library | exact Hi].
  - intros H i r v Hi Hf Hv.
    destruct (kept_lookup _ _ i r (lkeeps_scan_library cfg fs s) Hi) as (r' & Hi' & Hid & Hrd).
    exists r'. split; [exact Hi'|]. split; [exact Hid|]. split; [exact Hrd|].
    destruct (scan_library_healthy cfg fs s H) as (s1 & Hrun & Hb & _).
    rewrite Hrun in Hi'. cbn [snd] in Hi'. rewrite Hb in Hi'.
    destruct (scan_rows_post cfg fs (books s)) as [Hlive _].
    destruct (Hlive _ _ Hf) as [_ Hflags].
    assert (Hanch : key_anchored (books s) (key_of r) v).
    { left. exists r. split; [|now symmetry].
      apply list_elem_of_In. eapply list_elem_of_lookup_2. exact Hi. }
    assert (Hin : In r' (scan_rows cfg fs (books s))).
    { apply list_elem_of_In. eapply list_elem_of_lookup_2. exact Hi'. }
    destruct (Hflags Hanch r' Hin (key_of_ident _ _ Hid)) as [Hd Ht].
    split; [exact Hd|]. rewrite Ht. f_equal.
    unfold v_ident, ident in Hv. now injection Hv.
Qed.

Lemma C4_scan_restores_witness :
  let cfg := Sample.config ["epub"] in
  let fs := flat_host ["n.epub"] in
  let s := Sample.store [Sample.row "/lib" "n" "epub" true true false] [] in
  healthy s /\
  books s !! 0%nat = Some (Sample.row "/lib" "n" "epub" true true false) /\
  first_live fs (walked cfg fs) ("/lib", "n") = Some ("/lib", "n.epub") /\
  exists r', books (snd (scan_library cfg fs s)) !! 0%nat = Some r' /\
             ident r' = ("/lib", "n", "epub") /\ read r' = true /\
             deleted r' = false /\ transferable r' = true.
Proof.
  cbv zeta.
  assert (Hh : healthy (Sample.store [Sample.row "/lib" "n" "epub" true true false] []))
    by (split; reflexivity).
  split; [exact Hh|]. split; [reflexivity|]. split; [reflexivity|].
  exact (proj2 (C4_scan_restores (Sample.config ["epub"]) (flat_host ["n.epub"])
                  (Sample.store [Sample.row "/lib" "n" "epub" true true false] [])) Hh
           0%nat (Sample.row "/lib" "n" "epub" true true false) ("/lib", "n.epub")
           eq_refl eq_refl eq_refl).
Defined.

(** C4 (as stated) fails. The catalog is the one two scans produce from
    nothing: [n.epub] is recorded, then found gone. The file comes back,
    next to a file [n.pdf] that the walk meets first. The scan records
    [n.pdf] under the key and passes [n.epub] over: its record stays
    deleted although its file is on disk. *)
Lemma C4_counterexample :
  let cfg := Sample.config ["epub"; "pdf"] in
  let before :=
    snd (scan_library cfg (flat_host [])
           (snd (scan_library cfg (flat_host ["n.epub"]) (Sample.store [] [])))) in
  let fs := flat_host ["n.pdf"; "n.epub"] in
  healthy before /\
  books before = [Sample.row "/lib" "n" "epub" false true true] /\
  path_exists fs "/lib/n.epub" = true /\
  In ("/lib", "n.epub") (walked cfg fs) /\
  books (snd (scan_library cfg fs before))
    = [Sample.row "/lib" "n" "epub" false true true;
       Sample.row "/lib" "n" "pdf" false false true].
Proof.
  cbv zeta. split; [split; vm_compute; reflexivity|].
  split; [vm_compute; reflexivity|]. split; [vm_compute; reflexivity|].
  split; [vm_compute; auto|]. vm_compute; reflexivity.
Qed.

(** * Further properties of the code *)

(** ** Properties a loop of statements keeps *)

Lemma lstable_lret {A} I (a : A) : lstable I (lret a).
Proof. intros s H. exact H. Qed.

Lemma lstable_lbind {A B} I (m : L A) (k : A -> L B) :
  lstable I m -> (forall a, lstable I (k a)) -> lstable I (lbind m k).
Proof.
  intros Hm Hk s H. unfold lbind. specialize (Hm s H). destruct (m s) as [a s1].
  apply Hk. exact Hm.
Qed.

Lemma lstable_lfold {A St} I (body : St -> A -> L St) (l : list A) :
  (forall st x, lstable I (body st x)) -> forall st, lstable I (lfold body l st).
Proof.
  intros Hbody. induction l as [|x l IH]; intros st; cbn [lfold].
  - apply lstable_lret.
  - apply lstable_lbind; [apply Hbody | intros a; apply IH].
Qed.

Lemma lstable_if {A} I (c : bool) (m1 m2 : L A) :
  lstable I m1 -> lstable I m2 -> lstable I (if c then m1 else m2).
Proof. now destruct c. Qed.

Section StableScan.

Variable cfg : Config.
Variable fs : HostFS.
Variable I : LibState -> Prop.

Hypothesis I_logging : forall lv msg strs, lstable I (llogging lv msg strs).
Hypothesis I_select_keys : lstable I (execute_query sql_select_keys).
Hypothesis I_select_deleted : forall p n, lstable I (execute_query (sql_select_deleted p n)).
Hypothesis I_mark_deleted : forall p n, lstable I (execute_query (sql_mark_deleted p n)).
Hypothesis I_insert : forall p n e t, lstable I (execute_query (sql_insert_or_ignore p n e t)).
Hypothesis I_restore : forall t p n, lstable I (execute_query (sql_restore t p n)).

Lemma lstable_mark_missing p n shown : lstable I (mark_missing p n shown).
Proof.
  unfold mark_missing.
  apply lstable_lbind; [apply I_select_deleted|]. intros result.
  apply lstable_lbind; [apply lstable_if; [apply I_logging | apply lstable_lret]|].
  intros _. apply lstable_lbind; [apply I_mark_deleted | intros _; apply lstable_lret].
Qed.

Lemma lstable_add_or_update_book p n e t : lstable I (add_or_update_book p n e t).
Proof.
  unfold add_or_update_book.
  apply lstable_lbind; [apply I_insert|]. intros rows.
  apply lstable_lbind; [|intros _; apply lstable_lret].
  apply lstable_if; [|apply lstable_lret].
  apply lstable_lbind; [apply I_select_deleted|]. intros result.
  apply lstable_lbind; [apply lstable_if; [apply I_logging | apply lstable_lret]|].
  intros _. apply lstable_lbind; [apply I_restore | intros _; apply lstable_lret].
Qed.

Lemma lstable_scan_file root st file : lstable I (scan_file cfg fs root st file).
Proof.
  destruct st as [all_books processed_books]. unfold scan_file.
  repeat (apply lstable_if || match goal with
                              | |- lstable I (if decide ?P then _ else _) => destruct (decide P)
                              end); try apply lstable_lret.
  - apply lstable_lbind; [apply lstable_add_or_update_book|]. intros added.
    apply lstable_lbind; [|intros _; apply lstable_lret].
    apply lstable_if; [apply I_logging | apply lstable_lret].
  - apply lstable_lbind; [apply lstable_mark_missing | intros _; apply lstable_lret].
Qed.

(** A property that every statement and log call of the scan keeps is
    kept by the scan. *)
Lemma lstable_scan_library : lstable I (scan_library cfg fs).
Proof.
  unfold scan_library.
  apply lstable_lbind; [apply I_logging|]. intros _.
  apply lstable_lbind.
  { unfold get_all_books. apply lstable_lbind; [apply I_select_keys|].
    intros [rows|]; apply lstable_lret. }
  intros all_books.
  apply lstable_lbind.
  { apply lstable_lfold. intros st library_path. unfold scan_root.
    apply lstable_if.
    - apply lstable_lbind; [apply I_logging | intros _; apply lstable_lret].
    - apply lstable_lfold. intros st1 entry. unfold scan_directory.
      apply lstable_lfold. intros st2 file. apply lstable_scan_file. }
  intros st.
  apply lstable_lbind.
  { apply lstable_lfold. intros [] k. apply lstable_mark_missing. }
  intros _. apply lstable_lbind; [apply I_logging | intros _; apply lstable_lret].
Qed.

End StableScan.

(** ** A store without a connection *)

Lemma execute_query_disconnected {A} (q : stmt A) bs0 :
  lstable (fun s => conn s = false /\ books s = bs0) (execute_query q).
Proof.
  intros s [Hc Hb]. unfold execute_query. rewrite Hc. cbn. auto.
Qed.

Lemma scan_library_result cfg fs s : fst (scan_library cfg fs s) = true.
Proof.
  unfold scan_library, lbind, llogging, lret. cbv beta iota.
  destruct (get_all_books _) as [all_books s1].
  destruct (lfold _ _ _ s1) as [st s2].
  destruct (lfold _ _ _ s2) as [[] s3].
  reflexivity.
Qed.

(** X1. Without a connection to the catalog store, [scan_library] still
    walks the library and returns [True]; the catalog is left exactly as
    it was, and there is still no connection. *)
Theorem scan_library_disconnected cfg fs s :
  conn s = false ->
  fst (scan_library cfg fs s) = true /\
  books (snd (scan_library cfg fs s)) = books s /\
  conn (snd (scan_library cfg fs s)) = false.
Proof.
  intros Hc. split; [apply scan_library_result|].
  pose proof (lstable_scan_library cfg fs (fun s0 => conn s0 = false /\ books s0 = books s)) as H.
  assert (Hs : conn (snd (scan_library cfg fs s)) = false /\
               books (snd (scan_library cfg fs s)) = books s).
  { apply H; try (intros; apply execute_query_disconnected); auto.
    intros lv msg strs s0 Hs0. exact Hs0. }
  destruct Hs; auto.
Qed.

Lemma scan_library_disconnected_witness :
  let s := with_conn false (Sample.store [Sample.row "/lib" "n" "epub" true false true] []) in
  conn s = false /\
  fst (scan_library (Sample.config ["epub"]) (flat_host ["m.epub"]) s) = true /\
  books (snd (scan_library (Sample.config ["epub"]) (flat_host ["m.epub"]) s)) = books s /\
  conn (snd (scan_library (Sample.config ["epub"]) (flat_host ["m.epub"]) s)) = false.
Proof.
  cbv zeta. split; [reflexivity|].
  apply (scan_library_disconnected (Sample.config ["epub"]) (flat_host ["m.epub"])
           (with_conn false (Sample.store [Sample.row "/lib" "n" "epub" true false true] []))).
  reflexivity.
Defined.

(** ** The uniqueness constraint *)

Lemma lstable_execute_query_rows {A} (P : list book -> Prop) (q : stmt A) :
  (forall bs, P bs -> P (snd (q bs))) -> lstable (fun s => P (books s)) (execute_query q).
Proof.
  intros Hq s H. unfold execute_query.
  destruct (conn s); cbn [negb snd]; [|exact H].
  destruct (faults s) as [|[] rest]; cbn [snd]; try exact H;
    specialize (Hq (books s) H); destruct (q (books s)); exact Hq.
Qed.

Lemma unique_update c f bs :
  (forall b, ident (f b) = ident b) -> unique_rows bs -> unique_rows (snd (update_where c f bs)).
Proof.
  intros Hf H. unfold unique_rows, update_where in *. cbn [snd]. rewrite map_map.
  erewrite map_ext; [exact H|]. intros b. cbv beta. destruct (c b); [apply Hf | reflexivity].
Qed.

Lemma unique_insert p n e t bs :
  unique_rows bs -> unique_rows (snd (sql_insert_or_ignore p n e t bs)).
Proof.
  intros H. unfold sql_insert_or_ignore.
  destruct (existsb (same_row p n e) bs) eqn:Hex; cbn [snd]; [exact H|].
  unfold unique_rows in *. rewrite List.map_app. apply NoDup_app.
  split; [exact H|]. split; [|apply NoDup_singleton].
  intros x Hx Hin. cbn in Hin. apply list_elem_of_singleton in Hin. subst x.
  apply list_elem_of_In, in_map_iff in Hx as (r & Hid & Hr).
  assert (existsb (same_row p n e) bs = true) by (apply existsb_same_row; eauto).
  congruence.
Qed.

Section UniqueRows.

Let unique_store (s : LibState) : Prop := unique_rows (books s).

Lemma unique_store_logging lv msg strs : lstable unique_store (llogging lv msg strs).
Proof. intros s H. exact H. Qed.

Lemma unique_store_select {A} (q : stmt A) :
  read_only q -> lstable unique_store (execute_query q).
Proof.
  intros Hq. apply (lstable_execute_query_rows unique_rows). intros bs Hbs. now rewrite Hq.
Qed.

Lemma unique_store_update c f :
  (forall b, ident (f b) = ident b) ->
  lstable unique_store (execute_query (update_where c f)).
Proof.
  intros Hf. apply (lstable_execute_query_rows unique_rows). intros bs. now apply unique_update.
Qed.

Lemma unique_store_insert p n e t :
  lstable unique_store (execute_query (sql_insert_or_ignore p n e t)).
Proof. apply (lstable_execute_query_rows unique_rows). intros bs. apply unique_insert. Qed.

Lemma scan_library_unique cfg fs s :
  unique_rows (books s) -> unique_rows (books (snd (scan_library cfg fs s))).
Proof.
  apply (lstable_scan_library cfg fs unique_store).
  - apply unique_store_logging.
  - apply unique_store_select. intros bs. reflexivity.
  - intros. apply unique_store_select. intros bs. reflexivity.
  - intros. apply unique_store_update. reflexivity.
  - apply unique_store_insert.
  - intros. apply unique_store_update. reflexivity.
Qed.

Lemma add_or_update_book_unique p n e t s :
  unique_rows (books s) -> unique_rows (books (snd (add_or_update_book p n e t s))).
Proof.
  apply (lstable_add_or_update_book unique_store).
  - apply unique_store_logging.
  - intros. apply unique_store_select. intros bs. reflexivity.
  - apply unique_store_insert.
  - intros. apply unique_store_update. reflexivity.
Qed.

Lemma mark_book_as_read_unique p n e s :
  unique_rows (books s) -> unique_rows (books (snd (mark_book_as_read p n e s))).
Proof. unfold mark_book_as_read. apply (unique_store_update (same_row p n e) (set_read true)). reflexivity. Qed.

End UniqueRows.

(** X2. The uniqueness constraint on (path, name, extension) is kept by
    [scan_library], by [add_or_update_book] and by [mark_book_as_read], in
    every state of the store: with or without a connection, and whichever
    statements fail. *)
Theorem unique_rows_kept cfg fs p n e t s :
  unique_rows (books s) ->
  unique_rows (books (snd (scan_library cfg fs s))) /\
  unique_rows (books (snd (add_or_update_book p n e t s))) /\
  unique_rows (books (snd (mark_book_as_read p n e s))).
Proof.
  intros H. split; [|split].
  - now apply scan_library_unique.
  - now apply add_or_update_book_unique.
  - now apply mark_book_as_read_unique.
Qed.

Lemma unique_rows_kept_witness :
  let s := Sample.store [Sample.row "/lib" "n" "pdf" false true true] [false; true] in
  unique_rows (books s) /\
  unique_rows (books (snd (scan_library (Sample.config ["epub"])
                             (flat_host ["n.epub"; "n.pdf"]) s))).
Proof.
  cbv zeta.
  assert (H : unique_rows (books (Sample.store [Sample.row "/lib" "n" "pdf" false true true]
                                    [false; true]))).
  { unfold unique_rows. cbn. apply NoDup_singleton. }
  split; [exact H|].
  exact (proj1 (unique_rows_kept (Sample.config ["epub"]) (flat_host ["n.epub"; "n.pdf"])
                  "" "" "" false _ H)).
Defined.

(** ** Soft deletion *)

Lemma first_live_none_iff fs vs k :
  first_live fs vs k = None <->
  (forall v, In v vs -> v_live fs v = true -> v_key v <> k).
Proof.
  unfold first_live. split.
  - intros H v Hin Hl Hk. pose proof (find_none _ _ H v Hin) as Hf. cbv beta in Hf.
    rewrite Hl, (bool_decide_eq_true_2 _ Hk) in Hf. discriminate.
  - intros H. destruct (List.find _ vs) as [v|] eqn:E; [|reflexivity].
    apply find_some in E as [Hin Hv]. apply andb_true_iff in Hv as [Hl Hk].
    apply bool_decide_eq_true in Hk. exfalso. exact (H v Hin Hl Hk).
Qed.

(** X3. Soft-delete completeness: after a scan on a store whose
    statements succeed, every record whose key (directory, name) belongs
    to no supported file found on disk by the walk is marked deleted. *)
Theorem scan_library_soft_deletes cfg fs s r :
  healthy s ->
  In r (books (snd (scan_library cfg fs s))) ->
  (forall v, In v (walked cfg fs) -> v_live fs v = true -> v_key v <> key_of r) ->
  deleted r = true.
Proof.
  intros H Hr Hnone.
  destruct (scan_library_healthy cfg fs s H) as (s1 & Hrun & Hb & _).
  rewrite Hrun in Hr. cbn [snd] in Hr. rewrite Hb in Hr.
  destruct (scan_rows_post cfg fs (books s)) as [_ Hdead].
  apply (Hdead r Hr). now apply first_live_none_iff.
Qed.

Lemma scan_library_soft_deletes_witness :
  let s := Sample.store [Sample.row "/lib" "gone" "epub" true false true] [] in
  let r := Sample.row "/lib" "gone" "epub" true true true in
  healthy s /\
  In r (books (snd (scan_library (Sample.config ["epub"]) (flat_host ["n.epub"]) s))) /\
  deleted r = true.
Proof.
  cbv zeta.
  assert (H : healthy (Sample.store [Sample.row "/lib" "gone" "epub" true false true] []))
    by (split; reflexivity).
  assert (Hin : In (Sample.row "/lib" "gone" "epub" true true true)
                  (books (snd (scan_library (Sample.config ["epub"]) (flat_host ["n.epub"])
                                 (Sample.store [Sample.row "/lib" "gone" "epub" true false true] [])))))
    by (vm_compute; auto).
  split; [exact H|]. split; [exact Hin|].
  apply (scan_library_soft_deletes (Sample.config ["epub"]) (flat_host ["n.epub"]) _ _ H Hin).
  intros v Hv _ Hk. vm_compute in Hv. destruct Hv as [<-|[]]. vm_compute in Hk. discriminate.
Defined.

(** ** What a scan records *)

Section ScanRecords.

Variable cfg : Config.
Variable fs : HostFS.

Lemma live_inv_idle c pre v st :
  v_live fs v = false \/ v_key v ∈ live_keys fs pre ->
  visit_rows cfg fs st v = st ->
  live_inv cfg fs c pre st -> live_inv cfg fs c (pre ++ [v]) (visit_rows cfg fs st v).
Proof.
  intros Hold Hsame [Hsets Hrows].
  split; [apply sets_after_step; exact Hsets|]. rewrite Hsame.
  intros k v'. rewrite (first_live_snoc_old _ _ _ _ Hold). apply Hrows.
Qed.

Lemma spoken_key_differs pre v k v' :
  v_key v ∉ live_keys fs pre -> first_live fs pre k = Some v' -> k <> v_key v.
Proof.
  intros Hk Hf Heq. subst k. apply first_live_None in Hk. congruence.
Qed.

Lemma live_inv_step c pre v st :
  live_inv cfg fs c pre st -> live_inv cfg fs c (pre ++ [v]) (visit_rows cfg fs st v).
Proof.
  intros Hinv.
  destruct (v_supported v) eqn:Hsup.
  2:{ apply live_inv_idle; [left; unfold v_live; now rewrite Hsup | | exact Hinv].
      destruct st as [[? ?] ?]. unfold visit_rows. now rewrite Hsup. }
  pose proof Hinv as [Hsets Hrows].
  destruct st as [[all_books processed_books] bs]. unfold sets_after in Hsets.
  cbn [fst snd] in *. injection Hsets as -> ->.
  destruct (v_on_disk fs v) eqn:Hdisk.
  - destruct (decide (v_key v ∉ live_keys fs pre)) as [Hk|Hk].
    2:{ apply dec_stable in Hk. apply live_inv_idle; [right; exact Hk | | exact Hinv].
        unfold visit_rows. rewrite Hsup, Hdisk.
        destruct (decide (v_key v ∉ live_keys fs pre)); [contradiction | reflexivity]. }
    assert (Hl : v_live fs v = true) by (unfold v_live; now rewrite Hsup, Hdisk).
    split; [apply sets_after_step; reflexivity|].
    unfold visit_rows. rewrite Hsup, Hdisk.
    destruct (decide (v_key v ∉ live_keys fs pre)); [|contradiction]. cbn [snd].
    rewrite add_or_update_rows_eq.
    destruct (existsb (same_row (fst v) (v_name v) (v_ext v)) bs) eqn:Hex.
    + apply existsb_same_row in Hex as (rv & Hrv & Hidv).
      intros k v' Hf.
      destruct (first_live_snoc_new _ _ _ _ _ Hl Hk Hf) as [[-> ->]|[Hne Hf']].
      * exists (on_key (fst v, v_name v) (restore_row (is_transferable cfg (v_ext v))) rv).
        split; [apply in_map; exact Hrv|].
        unfold on_key. rewrite bool_decide_eq_true_2
          by (rewrite (key_of_ident rv (new_row (fst v) (v_name v) (v_ext v) false)); auto).
        repeat split. exact Hidv.
      * destruct (Hrows _ _ Hf') as (r & Hr & Hid & Hd & Ht).
        exists (on_key (fst v, v_name v) (restore_row (is_transferable cfg (v_ext v))) r).
        split; [apply in_map; exact Hr|].
        unfold on_key. rewrite bool_decide_eq_false_2; [auto|].
        destruct (first_live_spec _ _ _ _ Hf') as (_ & Hkv' & _).
        rewrite (key_of_ident r (new_row (fst v') (v_name v') (v_ext v') false)) by exact Hid.
        change (key_of (new_row (fst v') (v_name v') (v_ext v') false)) with (v_key v').
        rewrite Hkv'. exact Hne.
    + intros k v' Hf.
      destruct (first_live_snoc_new _ _ _ _ _ Hl Hk Hf) as [[-> ->]|[Hne Hf']].
      * eexists. split; [apply in_or_app; right; left; reflexivity|]. repeat split.
      * destruct (Hrows _ _ Hf') as (r & Hr & Hrest).
        exists r. split; [apply in_or_app; left; exact Hr | exact Hrest].
  - assert (Hl : v_live fs v = false) by (unfold v_live; now rewrite Hsup, Hdisk).
    destruct (decide (v_key v ∈ list_to_set (List.map key_of c) ∖ live_keys fs pre))
      as [Hk|Hk].
    2:{ apply live_inv_idle; [left; exact Hl | | exact Hinv].
        unfold visit_rows. rewrite Hsup, Hdisk.
        destruct (decide (v_key v ∈ _)); [contradiction | reflexivity]. }
    split; [apply sets_after_step; reflexivity|].
    unfold visit_rows. rewrite Hsup, Hdisk.
    destruct (decide (v_key v ∈ _)); [|contradiction]. cbn [snd].
    rewrite mark_missing_rows_eq.
    assert (Hnl : v_key v ∉ live_keys fs pre).
    { revert Hk. generalize (live_keys fs pre) (v_key v). set_solver. }
    intros k v'. rewrite (first_live_snoc_dead _ _ _ _ Hl). intros Hf.
    destruct (Hrows _ _ Hf) as (r & Hr & Hid & Hd & Ht).
    exists (on_key (v_key v) (set_deleted true) r). split; [apply in_map; exact Hr|].
    unfold on_key. rewrite bool_decide_eq_false_2; [auto|].
    destruct (first_live_spec _ _ _ _ Hf) as (_ & Hkv' & _).
    rewrite (key_of_ident r (new_row (fst v') (v_name v') (v_ext v') false)) by exact Hid.
    change (key_of (new_row (fst v') (v_name v') (v_ext v') false)) with (v_key v').
    rewrite Hkv'. eapply spoken_key_differs; eassumption.
Qed.

Lemma scan_rows_records c k v :
  first_live fs (walked cfg fs) k = Some v ->
  exists r, In r (scan_rows cfg fs c) /\ ident r = v_ident v /\
            deleted r = false /\ transferable r = is_transferable cfg (v_ext v).
Proof.
  intros Hf. unfold scan_rows.
  pose proof (walk_invariant cfg fs (live_inv cfg fs c) (walked cfg fs)
                ((list_to_set (List.map key_of c), ∅), c)) as Hinv.
  destruct Hinv as [Hsets Hrows].
  { split; [apply sets_after_init|]. intros k0 v0 H0. discriminate. }
  { intros pre v0 suf st _. apply live_inv_step. }
  destruct (fold_left _ _ _) as [[all_books processed_books] bs].
  unfold sets_after in Hsets. cbn [fst snd] in *. injection Hsets as -> ->.
  rewrite mark_all_missing_eq.
  destruct (Hrows _ _ Hf) as (r & Hr & Hid & Hd & Ht).
  exists r. split; [|auto].
  apply in_map_iff. exists r. split; [|exact Hr].
  rewrite bool_decide_eq_false_2; [reflexivity|].
  rewrite elem_of_elements.
  assert (Hlive : key_of r ∈ live_keys fs (walked cfg fs)).
  { destruct (first_live_spec _ _ _ _ Hf) as (_ & Hkv & _).
    rewrite (key_of_ident r (new_row (fst v) (v_name v) (v_ext v) false)) by exact Hid.
    change (key_of (new_row (fst v) (v_name v) (v_ext v) false)) with (v_key v).
    rewrite Hkv.
    destruct (decide (k ∈ live_keys fs (walked cfg fs))) as [|Hn]; [assumption|].
    apply first_live_None in Hn. congruence. }
  revert Hlive. generalize (live_keys fs (walked cfg fs)). set_solver.
Qed.

End ScanRecords.

(** X4. After a scan on a store whose statements succeed, the first
    supported file the walk finds on disk under a key (directory, name)
    has its record in the catalog, not deleted, and with [transferable]
    telling whether its extension is a transferable format. *)
Theorem scan_library_records_files cfg fs s k v :
  healthy s ->
  first_live fs (walked cfg fs) k = Some v ->
  exists r, In r (books (snd (scan_library cfg fs s))) /\
            ident r = v_ident v /\ deleted r = false /\
            transferable r = is_transferable cfg (v_ext v).
Proof.
  intros H Hf.
  destruct (scan_library_healthy cfg fs s H) as (s1 & Hrun & Hb & _).
  rewrite Hrun. cbn [snd]. rewrite Hb. exact (scan_rows_records cfg fs (books s) k v Hf).
Qed.

Lemma scan_library_records_files_witness :
  let cfg := Sample.config ["epub"] in
  let fs := flat_host ["notes.txt"; "Dune.EPUB"; "n.pdf"] in
  let s := Sample.store [] [] in
  healthy s /\
  first_live fs (walked cfg fs) ("/lib", "Dune") = Some ("/lib", "Dune.EPUB") /\
  exists r, In r (books (snd (scan_library cfg fs s))) /\
            ident r = ("/lib", "Dune", "EPUB") /\ deleted r = false /\ transferable r = true.
Proof.
  cbv zeta.
  assert (H : healthy (Sample.store [] [])) by (split; reflexivity).
  split; [exact H|]. split; [reflexivity|].
  exact (scan_library_records_files (Sample.config ["epub"])
           (flat_host ["notes.txt"; "Dune.EPUB"; "n.pdf"]) (Sample.store [] [])
           ("/lib", "Dune") ("/lib", "Dune.EPUB") H eq_refl).
Defined.

(** ** The scan and the listing handed to the transfer *)

Lemma get_all_books_with_details_healthy t s :
  healthy s ->
  fst (get_all_books_with_details t s) = fst (sql_select_details t (books s)).
Proof.
  intros [Hc Hf]. unfold get_all_books_with_details, lbind, execute_query.
  rewrite Hc, Hf. reflexivity.
Qed.

Lemma listed_iff t bs x :
  In x (fst (sql_select_details t bs)) <->
  exists r, In r bs /\ ident r = x /\ deleted r = false /\ (t = true -> transferable r = true).
Proof.
  unfold sql_select_details. cbn [fst]. rewrite in_map_iff. split.
  - intros (r & Hid & Hr). apply filter_In in Hr as [Hr Hc].
    apply andb_true_iff in Hc as [Hd Ht]. apply negb_true_iff in Hd.
    exists r. repeat split; auto. intros ->. exact Ht.
  - intros (r & Hr & Hid & Hd & Ht). exists r. split; [exact Hid|].
    apply filter_In. split; [exact Hr|]. rewrite Hd. cbn [negb andb].
    destruct t; [now apply Ht | reflexivity].
Qed.

(** X5. A scan followed by [get_all_books_with_details], on a store whose
    statements succeed: the file that the walk records under a key is
    listed (for [only_transferable] when its extension is a transferable
    format), and every listed book has the key (directory, name) of a
    supported file the walk found on disk. *)
Theorem scan_then_listing cfg fs t s :
  healthy s ->
  (forall k v, first_live fs (walked cfg fs) k = Some v ->
     (t = true -> is_transferable cfg (v_ext v) = true) ->
     In (v_ident v) (fst (get_all_books_with_details t (snd (scan_library cfg fs s))))) /\
  (forall p n e,
     In (p, n, e) (fst (get_all_books_with_details t (snd (scan_library cfg fs s)))) ->
     exists v, In v (walked cfg fs) /\ v_live fs v = true /\ v_key v = (p, n)).
Proof.
  intros H.
  destruct (scan_library_healthy cfg fs s H) as (s1 & Hrun & Hb & H1).
  rewrite Hrun. cbn [snd]. rewrite (get_all_books_with_details_healthy t s1 H1), Hb.
  split.
  - intros k v Hf Ht. apply listed_iff.
    destruct (scan_rows_records cfg fs (books s) k v Hf) as (r & Hr & Hid & Hd & Htr).
    exists r. repeat split; auto. intros Ht1. rewrite Htr. now apply Ht.
  - intros p n e Hin. apply listed_iff in Hin as (r & Hr & Hid & Hd & _).
    destruct (scan_rows_post cfg fs (books s)) as [_ Hdead].
    destruct (first_live fs (walked cfg fs) (key_of r)) as [v|] eqn:Hf.
    + destruct (first_live_spec fs _ _ _ Hf) as (Hl & Hk & Hin).
      exists v. repeat split; auto. rewrite Hk. unfold key_of.
      injection Hid as -> -> _. reflexivity.
    + rewrite (Hdead r Hr Hf) in Hd. discriminate.
Qed.

Lemma scan_then_listing_witness :
  let cfg := Sample.config ["epub"] in
  let fs := flat_host ["Dune.EPUB"; "n.pdf"] in
  let s := Sample.store [Sample.row "/lib" "gone" "epub" false false true] [] in
  healthy s /\
  In ("/lib", "Dune", "EPUB") (fst (get_all_books_with_details true (snd (scan_library cfg fs s)))) /\
  ~ In ("/lib", "gone", "epub")
      (fst (get_all_books_with_details true (snd (scan_library cfg fs s)))).
Proof.
  cbv zeta.
  assert (H : healthy (Sample.store [Sample.row "/lib" "gone" "epub" false false true] []))
    by (split; reflexivity).
  split; [exact H|].
  destruct (scan_then_listing (Sample.config ["epub"]) (flat_host ["Dune.EPUB"; "n.pdf"]) true
              _ H) as [Hlisted Hfound].
  split.
  - exact (Hlisted ("/lib", "Dune") ("/lib", "Dune.EPUB") eq_refl (fun _ => eq_refl)).
  - intros Hin. destruct (Hfound _ _ _ Hin) as (v & Hv & _ & Hk).
    vm_compute in Hv. destruct Hv as [<-|[<-|[]]]; vm_compute in Hk; discriminate.
Defined.

(** ** Library roots that are not there *)

Lemma walked_roots_missing cfg fs :
  (forall p, In p (library_paths cfg fs) ->
     path_exists fs (Py.expanduser (home fs) p) = false) ->
  walked cfg fs = [].
Proof.
  unfold walked. induction (library_paths cfg fs) as [|p l IH]; intros H; [reflexivity|].
  cbn [flat_map]. unfold root_visits at 1. rewrite (H p (or_introl eq_refl)). cbn [negb app].
  apply IH. intros q Hq. apply H. now right.
Qed.

(** X6. When none of the library roots exists (the library is not
    mounted), a scan on a store whose statements succeed marks every
    record of the catalog deleted, and changes nothing else of it. *)
Theorem scan_library_roots_missing cfg fs s :
  healthy s ->
  (forall p, In p (library_paths cfg fs) ->
     path_exists fs (Py.expanduser (home fs) p) = false) ->
  books (snd (scan_library cfg fs s)) = List.map (set_deleted true) (books s).
Proof.
  intros H Hroots.
  destruct (scan_library_healthy cfg fs s H) as (s1 & Hrun & Hb & _).
  rewrite Hrun. cbn [snd]. rewrite Hb. unfold scan_rows.
  rewrite (walked_roots_missing cfg fs Hroots). cbn [fold_left fst snd].
  rewrite mark_all_missing_eq. apply map_ext_in. intros b Hin.
  rewrite bool_decide_eq_true_2; [reflexivity|].
  apply elem_of_elements, elem_of_list_to_set, list_elem_of_In, in_map. exact Hin.
Qed.

Lemma scan_library_roots_missing_witness :
  let cfg := Sample.config ["epub"] in
  let fs := locked_host in
  let s := Sample.store [Sample.row "/lib" "a" "epub" true false true;
                         Sample.row "/lib/sf" "b" "pdf" false false false] [] in
  healthy s /\
  books (snd (scan_library cfg fs s)) =
    [Sample.row "/lib" "a" "epub" true true true; Sample.row "/lib/sf" "b" "pdf" false true false].
Proof.
  cbv zeta. split; [split; reflexivity|].
  rewrite (scan_library_roots_missing (Sample.config ["epub"]) locked_host).
  - reflexivity.
  - split; reflexivity.
  - intros p Hp. vm_compute in Hp. destruct Hp as [<-|[]]. reflexivity.
Defined.

(** ** A new catalog store *)

(** X7. [Library.connect] on a store that is not there yet and can be
    opened: it returns [True] when the five statements of [initialize] all
    succeed and [False] as soon as one fails; in both cases the connection
    stays open and the rows are untouched. *)
Theorem connect_new_store cfg fs s :
  path_exists fs (library_db_path cfg fs) = false ->
  sqlite_opens fs (library_db_path cfg fs) = true ->
  (path_exists fs (Py.dirname (library_db_path cfg fs))
   || makedirs_ok fs (Py.dirname (library_db_path cfg fs)))%bool = true ->
  fst (connect cfg fs s) = Returned (negb (existsb id (firstn 5 (faults s)))) /\
  conn (snd (connect cfg fs s)) = true /\
  books (snd (connect cfg fs s)) = books s.
Proof.
  intros Hnew Hopen Hdir. unfold connect. rewrite Hnew, Hopen.
  apply orb_true_iff in Hdir.
  assert (Hgate : (negb (path_exists fs (Py.dirname (library_db_path cfg fs)))
                   && negb (makedirs_ok fs (Py.dirname (library_db_path cfg fs))))%bool = false).
  { destruct Hdir as [-> | ->]; cbn; [reflexivity | apply andb_false_r]. }
  rewrite Hgate. cbn [negb]. clear.
  destruct s as [c bs fl lg].
  unfold initialize, run_queries, lbind, llogging, lret, execute_query, py_not, sql_create.
  destruct fl as [|[] [|[] [|[] [|[] [|[] rest]]]]]; cbn; auto.
Qed.

Lemma connect_new_store_witness :
  let cfg := Sample.config ["epub"] in
  let fs := Sample.host [] [] [] in
  let s := with_conn false (Sample.store [] [false; false; true]) in
  fst (connect cfg fs s) = Returned false /\ conn (snd (connect cfg fs s)) = true.
Proof.
  cbv zeta.
  destruct (connect_new_store (Sample.config ["epub"]) (Sample.host [] [] [])
              (with_conn false (Sample.store [] [false; false; true])))
    as (Hr & Hc & _); [reflexivity | reflexivity | reflexivity |].
  split; [exact Hr | exact Hc].
Defined.

(** ** The device database in every state *)

Lemma kobo_select_rows cid w rows :
  fst (kobo_select_read_status cid w) = Returned (Some rows) ->
  kobo_ready (kobo w) /\
  rows = match content (kobo w) !! cid with Some st => [st] | None => [] end.
Proof.
  unfold kobo_select_read_status, kobo_ready.
  destruct (kconn (kobo w)); cbn [negb]; [|discriminate].
  destruct (kfaults (kobo w)) as [|[] rest]; cbn; intros H; try discriminate;
    injection H as <-; auto.
Qed.

Lemma kobo_select_returns cid w :
  exists r, fst (kobo_select_read_status cid w) = Returned r.
Proof.
  unfold kobo_select_read_status. destruct (kconn (kobo w)); cbn [negb]; [|eexists; reflexivity].
  destruct (kfaults (kobo w)) as [|[] rest]; eexists; reflexivity.
Qed.

(** X8. In every state of the device database, [book_exists_and_unread]
    answers [True] only when the database was read and holds the row of
    the book's content identifier with status [0]: a missing connection or
    a failing query is never taken for an unread book. *)
Theorem book_exists_and_unread_sound cfg fs p n e w :
  fst (book_exists_and_unread cfg fs p n e w) = Returned true ->
  kobo_ready (kobo w) /\
  exists cid, book_content_id cfg fs p n e = Some cid /\ content (kobo w) !! cid = Some 0.
Proof.
  unfold book_exists_and_unread, book_content_id.
  destruct (find_library_path cfg fs p) as [root|]; [|cbn; discriminate].
  unfold relative_path_of. destruct (Py.relative_to _ root) as [rel|]; [|cbn; discriminate].
  mstep_refl. unfold mbind at 1.
  destruct (kobo_select_read_status (content_id_of rel n e) w) as [[r|ex] w1] eqn:Hsel;
    [|cbn; discriminate].
  pose proof (kobo_select_rows (content_id_of rel n e) w) as Hrows. rewrite Hsel in Hrows.
  destruct r as [[|st rows]|]; cbn; try discriminate.
  intros H. injection H as H. apply Z.eqb_eq in H. subst st.
  destruct (Hrows _ eq_refl) as [Hready Heq]. split; [exact Hready|].
  exists (content_id_of rel n e). split; [reflexivity|].
  destruct (content (kobo w) !! content_id_of rel n e) as [st|]; [|discriminate].
  now injection Heq as <-.
Qed.

Lemma book_exists_and_unread_sound_witness :
  kobo_ready (kobo (dune_world 0 [])) /\
  content (kobo (dune_world 0 [])) !! "file:///mnt/sd/kobomanager/sf/dune.epub" = Some 0.
Proof.
  destruct (book_exists_and_unread_sound (Sample.config ["epub"]) (Sample.host [] [] [])
              "/lib/sf" "dune" "epub" (dune_world 0 []) eq_refl) as (Hready & cid & Hcid & Hrow).
  split; [exact Hready|]. injection Hcid as <-. exact Hrow.
Defined.

(** X9. In every state of the two databases, [mark_book_as_read_in_kobo]
    leaves the catalog and the removable storage as they are unless the
    device database was read and holds the book's row with a status other
    than [0]: nothing is marked read or deleted on a missing connection, a
    failing query, a book under no library root, or a [ValueError]. *)
Theorem mark_book_as_read_in_kobo_idle cfg fs p n e w :
  (kobo_ready (kobo w) ->
   forall cid st, book_content_id cfg fs p n e = Some cid ->
                  content (kobo w) !! cid = Some st -> st = 0) ->
  catalog (snd (mark_book_as_read_in_kobo cfg fs p n e w)) = catalog w /\
  sdcard (snd (mark_book_as_read_in_kobo cfg fs p n e w)) = sdcard w.
Proof.
  intros Hrow.
  destruct (mark_book_as_read_in_kobo cfg fs p n e w) as [res w'] eqn:Hrun. cbn [snd].
  revert Hrow Hrun. unfold mark_book_as_read_in_kobo, book_content_id.
  destruct (find_library_path cfg fs p) as [root|];
    [|cbn; intros _ H; injection H as _ <-; auto].
  unfold relative_path_of. destruct (Py.relative_to _ root) as [rel|];
    [|cbn; intros _ H; injection H as _ <-; auto].
  intros Hrow. rewrite (mbind_returned _ _ w rel w eq_refl). unfold mbind at 1.
  pose proof (keeps_catalog_kobo_select (content_id_of rel n e) w) as Hcat.
  pose proof (keeps_sdcard_kobo_select (content_id_of rel n e) w) as Hsd.
  pose proof (kobo_select_rows (content_id_of rel n e) w) as Hrows.
  destruct (kobo_select_read_status (content_id_of rel n e) w) as [[r|ex] w1];
    cbn [fst snd] in *; [|intros H; injection H as _ <-; auto].
  destruct r as [[|st rows]|]; try (cbn; intros H; injection H as _ <-; now auto).
  destruct (Hrows _ eq_refl) as [Hready Heq].
  assert (Hst : st = 0).
  { apply (Hrow Hready (content_id_of rel n e)); [reflexivity|].
    destruct (content (kobo w) !! content_id_of rel n e) as [st'|]; [|discriminate].
    now injection Heq as <-. }
  subst st. cbn. intros H; injection H as _ <-; auto.
Qed.

Lemma mark_book_as_read_in_kobo_idle_witness :
  let w := with_kobo {| kconn := true;
                         content := {[ "file:///mnt/sd/kobomanager/sf/dune.epub" := 2 ]};
                         kfaults := [true] |}
             (dune_world 2 [("/sd/kobomanager/sf/dune.epub", "bytes")]) in
  catalog (snd (mark_book_as_read_in_kobo (Sample.config ["epub"]) (Sample.host [] [] [])
                  "/lib/sf" "dune" "epub" w)) = catalog w /\
  sdcard (snd (mark_book_as_read_in_kobo (Sample.config ["epub"]) (Sample.host [] [] [])
                 "/lib/sf" "dune" "epub" w)) = sdcard w.
Proof.
  cbv zeta.
  apply (mark_book_as_read_in_kobo_idle (Sample.config ["epub"]) (Sample.host [] [] [])).
  intros [_ Hf]. cbn in Hf. discriminate.
Defined.

(** X10. When the device says the book has been read but the statement
    on the catalog cannot be executed (no connection, or [sqlite3.Error]),
    [mark_book_as_read_in_kobo] still goes on to the book's file on the
    removable storage, which is removed when [os.remove] succeeds: the
    result of [mark_book_as_read] is not looked at, and the catalog keeps
    saying what it said. *)
Theorem mark_book_as_read_in_kobo_catalog_failure cfg fs p n e w cid f st :
  kobo_ready (kobo w) ->
  conn (lib w) = false \/ hd false (faults (lib w)) = true ->
  book_content_id cfg fs p n e = Some cid ->
  book_sdcard_file cfg fs p n e = Some f ->
  content (kobo w) !! cid = Some st -> st <> 0 ->
  fst (mark_book_as_read_in_kobo cfg fs p n e w) = Returned None /\
  catalog (snd (mark_book_as_read_in_kobo cfg fs p n e w)) = catalog w /\
  sdcard (snd (mark_book_as_read_in_kobo cfg fs p n e w)) =
    (if remove_ok fs f then delete f (sdcard w) else sdcard w).
Proof.
  intros Hk Hl. unfold book_content_id, book_sdcard_file.
  destruct (find_library_path cfg fs p) as [root|] eqn:Hroot; [|discriminate].
  destruct (Py.relative_to _ root) as [rel|] eqn:Hrel; [|discriminate].
  intros Hcid Hf Hrow Hst. injection Hcid as <-. injection Hf as <-.
  destruct (mark_book_as_read_in_kobo_row_read cfg fs p n e w root rel st
              Hk Hroot Hrel Hrow Hst) as (w' & Hrun & _ & Hb & Hs & _).
  rewrite Hrun. cbn [fst snd]. split; [reflexivity|]. split; [exact (Hb Hl) | exact Hs].
Qed.

Lemma mark_book_as_read_in_kobo_catalog_failure_witness :
  let w := with_lib (Sample.store [Sample.row "/lib/sf" "dune" "epub" false false true] [true])
             (dune_world 2 [("/sd/kobomanager/sf/dune.epub", "bytes")]) in
  let r := mark_book_as_read_in_kobo (Sample.config ["epub"]) (Sample.host [] [] [])
             "/lib/sf" "dune" "epub" w in
  catalog (snd r) = [Sample.row "/lib/sf" "dune" "epub" false false true] /\
  sdcard (snd r) !! "/sd/kobomanager/sf/dune.epub" = None.
Proof.
  cbv zeta.
  destruct (mark_book_as_read_in_kobo_catalog_failure
              (Sample.config ["epub"]) (Sample.host [] [] []) "/lib/sf" "dune" "epub"
              (with_lib (Sample.store [Sample.row "/lib/sf" "dune" "epub" false false true] [true])
                 (dune_world 2 [("/sd/kobomanager/sf/dune.epub", "bytes")]))
              "file:///mnt/sd/kobomanager/sf/dune.epub" "/sd/kobomanager/sf/dune.epub" 2)
    as (_ & Hc & Hs);
    [split; reflexivity | right; reflexivity | reflexivity | reflexivity | reflexivity
    | discriminate |].
  split; [exact Hc|]. rewrite Hs. apply lookup_delete_eq.
Defined.

(** ** Properties of the world that a sequence of actions keeps *)

Section Stable.

Context (I : World -> Prop).

Lemma mstable_mret {A} (a : A) : mstable I (mret a).
Proof. intros w H. exact H. Qed.

Lemma mstable_mraise {A} (e : exn) : mstable I (@mraise A e).
Proof. intros w H. exact H. Qed.

Lemma mstable_mbind {A B} (m : M A) (k : A -> M B) :
  mstable I m -> (forall a, mstable I (k a)) -> mstable I (mbind m k).
Proof.
  intros Hm Hk w H. unfold mbind. specialize (Hm w H).
  destruct (m w) as [[a|e] w1]; cbn in *; [|assumption].
  now apply Hk.
Qed.

Lemma mstable_catch {A} (m : M A) handled (h : exn -> M A) :
  mstable I m -> (forall e, mstable I (h e)) -> mstable I (catch m handled h).
Proof.
  intros Hm Hh w H. unfold catch. specialize (Hm w H).
  destruct (m w) as [[a|e] w1]; cbn in *; [assumption|].
  destruct (handled e); [|assumption].
  now apply Hh.
Qed.

Lemma mstable_mfold {A St} (body : St -> A -> M St) (l : list A) :
  (forall st x, mstable I (body st x)) -> forall st, mstable I (mfold body l st).
Proof.
  intros Hbody. induction l as [|x l IH]; intros st; cbn [mfold].
  - apply mstable_mret.
  - apply mstable_mbind; [apply Hbody | intros a; apply IH].
Qed.

Lemma mstable_if {A} (b : bool) (m1 m2 : M A) :
  mstable I m1 -> mstable I m2 -> mstable I (if b then m1 else m2).
Proof. now destruct b. Qed.

End Stable.

(** A property of one component is kept by what keeps the component. *)
Lemma mstable_keeps {A X} (proj : World -> X) (P : X -> Prop) (m : M A) :
  keeps proj m -> mstable (fun w => P (proj w)) m.
Proof. intros Hm w H. now rewrite Hm. Qed.

Lemma keeps_lift_lib {A X} (proj : World -> X) (m : L A) :
  (forall s w, proj (with_lib s w) = proj w) -> keeps proj (lift m).
Proof. intros H w. unfold lift. destruct (m (lib w)) as [a s]. apply H. Qed.

Ltac stable_step base :=
  first
    [ solve [base]
    | apply mstable_mret
    | apply mstable_mraise
    | apply mstable_mbind; [|intros ?]
    | apply mstable_if
    | apply mstable_catch; [|intros ?]
    | apply mstable_mfold; intros ? ?
    | match goal with
      | |- mstable _ (match ?x with _ => _ end) => destruct x
      end ].

(** ** [transfer_book] in every state *)

Lemma files_kept_keeps {A} sd (m : M A) : keeps sdcard m -> mstable (files_kept sd) m.
Proof.
  intros Hm. exact (mstable_keeps sdcard (fun x => forall f, is_Some (sd !! f) -> is_Some (x !! f)) m Hm).
Qed.

Lemma files_kept_write_file sd p d : mstable (files_kept sd) (write_file p d).
Proof.
  intros w H. unfold write_file. destruct (Py.endswith p "/"); cbn [snd]; [exact H|].
  intros f Hf. cbn. rewrite lookup_insert_is_Some'. right. apply H, Hf.
Qed.

Ltac files_kept_tac :=
  repeat stable_step
    ltac:(first [ apply files_kept_write_file
                | apply files_kept_keeps; solve [auto with keeps] ]).

Lemma files_kept_transfer_book fs sd p n e dest :
  mstable (files_kept sd) (transfer_book fs p n e dest).
Proof.
  unfold transfer_book, extract_archive, extract_all, extract_member, copy2. files_kept_tac.
Qed.

Lemma returns_catch_all {A} (m : M A) (h : exn -> M A) :
  (forall e, returns (h e)) -> returns (catch m (fun _ => true) h).
Proof.
  intros Hh w. unfold catch. destruct (m w) as [[a|e] w1]; [eauto | apply Hh].
Qed.

Lemma transfer_book_returns fs p n e dest : returns (transfer_book fs p n e dest).
Proof.
  unfold transfer_book. apply returns_catch_all. intros ex w. eexists _, _. reflexivity.
Qed.

(** X11. [transfer_book] never raises, whatever the book, the archive and
    the state of the storage (every exception ends in the result
    [False]); and it never removes a file from the removable storage. *)
Theorem transfer_book_safe fs p n e dest w :
  (exists done, fst (transfer_book fs p n e dest w) = Returned done) /\
  files_kept (sdcard w) (snd (transfer_book fs p n e dest w)).
Proof.
  split.
  - destruct (transfer_book_returns fs p n e dest w) as (b & w' & ->). eauto.
  - apply files_kept_transfer_book. intros f Hf. exact Hf.
Qed.



(** ** Archives *)

Lemma mfold_app {A St} (body : St -> A -> M St) (l1 l2 : list A) st w st1 w1 :
  mfold body l1 st w = (Returned st1, w1) ->
  mfold body (l1 ++ l2) st w = mfold body l2 st1 w1.
Proof.
  revert st w. induction l1 as [|x l1 IH]; intros st w H; cbn [mfold app] in *.
  - now injection H as <- <-.
  - apply mbind_inv in H as (st2 & w2 & Hx & Hrest).
    rewrite (mbind_returned _ _ _ _ _ Hx). now apply IH.
Qed.

Lemma extract_members_write dest members w :
  Forall (fun m => Py.endswith (Py.join dest [fst m]) "/" = false) members ->
  mfold (extract_member dest) members tt w =
    (Returned tt,
     with_sdcard (fold_left (fun sd m => <[Py.join dest [fst m] := snd m]> sd) members (sdcard w)) w).
Proof.
  intros Hok. revert w. induction Hok as [|m ms Hm _ IH]; intros w.
  - destruct w; reflexivity.
  - cbn [mfold fold_left].
    assert (Hw : extract_member dest tt m w =
                 (Returned tt, with_sdcard (<[Py.join dest [fst m] := snd m]> (sdcard w)) w)).
    { unfold extract_member, write_file. now rewrite Hm. }
    mstep Hw. rewrite IH. reflexivity.
Qed.

Lemma written_members_present dest (members : list (string * string))
    (sd : gmap string string) f :
  is_Some (sd !! f) \/ (exists m, In m members /\ Py.join dest [fst m] = f) ->
  is_Some (fold_left (fun sd m => <[Py.join dest [fst m] := snd m]> sd) members sd !! f).
Proof.
  revert sd. induction members as [|m ms IH]; intros sd H; cbn [fold_left].
  - destruct H as [H|(m & [] & _)]. exact H.
  - apply IH. destruct H as [H|(m' & [->|Hin] & Hf)].
    + left. rewrite lookup_insert_is_Some'. now right.
    + left. rewrite lookup_insert_is_Some'. now left.
    + right. eauto.
Qed.

Lemma extract_branch fs e archive dest :
  e = "zip" \/ e = "rar" ->
  (if String.eqb e "zip" then extract_all fs archive dest
   else if String.eqb e "rar" then extract_all fs archive dest
   else mret tt) = extract_all fs archive dest.
Proof. intros [-> | ->]; reflexivity. Qed.

Lemma archive_branch e : e = "zip" \/ e = "rar" -> Py.str_in (Py.lower e) ["zip"; "rar"] = true.
Proof. intros [-> | ->]; reflexivity. Qed.





(** ** [transfer_books] in every state *)

Lemma keeps_sdcard_write_lib {A} (m : L A) : keeps sdcard (lift m).
Proof. apply keeps_lift_lib. reflexivity. Qed.

Lemma keeps_sdcard_group_book cfg fs d b : keeps sdcard (group_book cfg fs d b).
Proof. unfold group_book. keeps_tac. Qed.

Lemma keeps_sdcard_py_min l : keeps sdcard (py_min l).
Proof. unfold py_min. keeps_tac. Qed.

Lemma files_kept_transfer_books cfg fs sd : mstable (files_kept sd) (transfer_books cfg fs).
Proof.
  unfold transfer_books, transfer_directory, enter_directory, transfer_one.
  repeat stable_step
    ltac:(first [ apply files_kept_transfer_book
                | apply files_kept_keeps;
                  first [ apply keeps_sdcard_write_lib | apply keeps_sdcard_group_book
                        | apply keeps_sdcard_py_min | solve [auto with keeps] ] ]).
Qed.

Lemma keeps_device_rows_logging lv msg strs nums : keeps device_rows (logging lv msg strs nums).
Proof. intros w. reflexivity. Qed.

Lemma keeps_device_rows_sleep z : keeps device_rows (sleep z).
Proof. intros w. reflexivity. Qed.

Lemma keeps_device_rows_kobo_select cid : keeps device_rows (kobo_select_read_status cid).
Proof.
  intros w. unfold kobo_select_read_status.
  destruct (kconn (kobo w)); cbn; [|reflexivity].
  destruct (kfaults (kobo w)) as [|[] rest]; reflexivity.
Qed.

Lemma keeps_device_rows_get_available_space cfg : keeps device_rows (get_available_space cfg).
Proof. intros w. unfold get_available_space. destruct (readings w) as [|[v|] rest]; reflexivity. Qed.

Lemma keeps_device_rows_write_file p d : keeps device_rows (write_file p d).
Proof. intros w. unfold write_file. destruct (Py.endswith p "/"); reflexivity. Qed.

Lemma keeps_device_rows_lift {A} (m : L A) : keeps device_rows (lift m).
Proof. apply keeps_lift_lib. reflexivity. Qed.

#[export] Hint Resolve keeps_device_rows_logging keeps_device_rows_sleep
  keeps_device_rows_kobo_select keeps_device_rows_get_available_space
  keeps_device_rows_write_file keeps_device_rows_lift : keeps.

Lemma keeps_device_rows_transfer_books cfg fs : keeps device_rows (transfer_books cfg fs).
Proof.
  unfold transfer_books, transfer_directory, enter_directory, py_min, transfer_one, group_book,
    book_exists_and_unread, transfer_book, extract_archive, extract_all, extract_member, copy2.
  keeps_tac.
Qed.


(** *** Where [transfer_books] can raise *)

Section Returns.

Lemma returns_mret {A} (a : A) : returns (mret a).
Proof. intros w. eexists _, _. reflexivity. Qed.

Lemma returns_mbind {A B} (m : M A) (k : A -> M B) :
  returns m -> (forall a, returns (k a)) -> returns (mbind m k).
Proof.
  intros Hm Hk w. destruct (Hm w) as (a & w1 & Ha).
  rewrite (mbind_returned _ _ _ _ _ Ha). apply Hk.
Qed.

Lemma returns_mfold {A St} (body : St -> A -> M St) (l : list A) :
  (forall st x, In x l -> returns (body st x)) -> forall st, returns (mfold body l st).
Proof.
  induction l as [|x l IH]; intros Hbody st; cbn [mfold].
  - apply returns_mret.
  - apply returns_mbind; [apply Hbody; now left|].
    intros a. apply IH. intros st' y Hy. apply Hbody. now right.
Qed.

Lemma returns_if {A} (b : bool) (m1 m2 : M A) :
  returns m1 -> returns m2 -> returns (if b then m1 else m2).
Proof. now destruct b. Qed.

Lemma returns_logging lv msg strs nums : returns (logging lv msg strs nums).
Proof. intros w. eexists _, _. reflexivity. Qed.

Lemma returns_sleep z : returns (sleep z).
Proof. intros w. eexists _, _. reflexivity. Qed.

Lemma returns_lift {A} (m : L A) : returns (lift m).
Proof. intros w. unfold lift. destruct (m (lib w)). eexists _, _. reflexivity. Qed.

Lemma returns_get_available_space cfg : returns (get_available_space cfg).
Proof.
  intros w. unfold get_available_space.
  destruct (readings w) as [|[v|] rest]; eexists _, _; reflexivity.
Qed.

Lemma returns_kobo_select cid : returns (kobo_select_read_status cid).
Proof.
  intros w. unfold kobo_select_read_status. destruct (kconn (kobo w)); cbn [negb];
    [|eexists _, _; reflexivity].
  destruct (kfaults (kobo w)) as [|[] rest]; eexists _, _; reflexivity.
Qed.

End Returns.

Ltac returns_step :=
  first
    [ apply returns_mret
    | apply returns_logging
    | apply returns_sleep
    | apply returns_lift
    | apply returns_get_available_space
    | apply returns_kobo_select
    | apply transfer_book_returns
    | apply returns_mbind; [|intros ?]
    | apply returns_if
    | match goal with
      | |- returns (match ?x with _ => _ end) => destruct x
      end ].

Section Grouping.

Variable cfg : Config.
Variable fs : HostFS.

Lemma book_exists_and_unread_returns p n e :
  groupable cfg fs (p, n, e) = true -> returns (book_exists_and_unread cfg fs p n e).
Proof.
  unfold groupable, book_exists_and_unread, relative_path_of. cbn [fst].
  destruct (find_library_path cfg fs p) as [root|]; [|intros _; repeat returns_step].
  destruct (Py.relative_to (Py.Path p) root) as [rel|]; [|discriminate].
  intros _. repeat returns_step.
Qed.

Lemma transfer_one_returns dest avail b :
  groupable cfg fs b = true -> returns (transfer_one cfg fs dest avail b).
Proof.
  destruct b as [[p n] e]. intros Hb. unfold transfer_one.
  apply returns_mbind; [now apply book_exists_and_unread_returns|].
  intros unread. repeat returns_step.
Qed.

Lemma transfer_directory_returns avail entry :
  snd entry <> [] -> Forall (fun b => groupable cfg fs b = true) (snd entry) ->
  returns (transfer_directory cfg fs avail entry).
Proof.
  destruct entry as [dest books_in_dir]. cbn [snd]. intros Hne Hall.
  unfold transfer_directory, enter_directory. cbn [fst snd].
  apply returns_if; [repeat returns_step|].
  apply returns_mbind; [apply returns_get_available_space|]. intros available_space.
  apply returns_mbind.
  { unfold py_min. destruct books_in_dir as [|b l]; [contradiction|]. apply returns_mret. }
  intros smallest. apply returns_if; [repeat returns_step|].
  apply returns_mfold. intros st b Hb. apply transfer_one_returns.
  rewrite Forall_forall in Hall. apply Hall. now apply list_elem_of_In.
Qed.

Lemma transfer_directories_return g avail :
  groups_ok cfg fs g -> returns (mfold (transfer_directory cfg fs) g avail).
Proof.
  intros Hg. apply returns_mfold. intros st entry Hin.
  unfold groups_ok in Hg. rewrite Forall_forall in Hg.
  destruct (Hg entry (proj2 (list_elem_of_In _ _) Hin)) as [Hne Hall].
  now apply transfer_directory_returns.
Qed.

Lemma dict_append_ok g k b :
  groups_ok cfg fs g -> groupable cfg fs b = true -> groups_ok cfg fs (dict_append g k b).
Proof.
  intros Hg Hb. induction Hg as [|[k' bs] g [Hne Hall] Hg IH]; cbn [dict_append].
  - constructor; [|constructor]. cbn [snd]. split; [discriminate|]. constructor; [exact Hb | constructor].
  - destruct (String.eqb k' k).
    + constructor; [|exact Hg]. cbn [snd] in *. split.
      * destruct bs; discriminate.
      * apply Forall_app. split; [exact Hall|]. constructor; [exact Hb | constructor].
    + constructor; [split; assumption | exact IH].
Qed.

Lemma group_book_groupable g b w :
  groupable cfg fs b = true ->
  exists g' w', group_book cfg fs g b w = (Returned g', w') /\
                (groups_ok cfg fs g -> groups_ok cfg fs g').
Proof.
  destruct b as [[p n] e]. unfold groupable, group_book, relative_path_of. cbn [fst].
  destruct (find_library_path cfg fs p) as [root|] eqn:Hroot.
  - destruct (Py.relative_to (Py.Path p) root) as [rel|] eqn:Hrel; [|discriminate].
    intros _. eexists _, _. split; [reflexivity|].
    intros Hg. apply dict_append_ok; [exact Hg|].
    unfold groupable. cbn [fst]. now rewrite Hroot, Hrel.
  - intros _. eexists _, _. split; [reflexivity | auto].
Qed.

Lemma group_book_not_groupable g b w :
  groupable cfg fs b = false -> group_book cfg fs g b w = (Raised ValueError, w).
Proof.
  destruct b as [[p n] e]. unfold groupable, group_book, relative_path_of. cbn [fst].
  destruct (find_library_path cfg fs p) as [root|]; [|discriminate].
  destruct (Py.relative_to (Py.Path p) root) as [rel|]; [discriminate|].
  reflexivity.
Qed.

(** The grouping loop returns groups that the second loop can go through
    when [relative_to] raises for none of the books, and raises
    [ValueError] otherwise. *)
Lemma group_books_run bks g w :
  groups_ok cfg fs g ->
  if forallb (groupable cfg fs) bks
  then exists g' w', mfold (group_book cfg fs) bks g w = (Returned g', w') /\ groups_ok cfg fs g'
  else exists w', mfold (group_book cfg fs) bks g w = (Raised ValueError, w').
Proof.
  revert g w. induction bks as [|b bks IH]; intros g w Hg; cbn [forallb mfold].
  - eexists _, _. split; [reflexivity | exact Hg].
  - destruct (groupable cfg fs b) eqn:Hb; cbn [andb].
    + destruct (group_book_groupable g b w Hb) as (g1 & w1 & Hrun & Hok).
      rewrite (mbind_returned _ _ _ _ _ Hrun). apply IH, Hok, Hg.
    + rewrite (mbind_raised _ _ _ _ _ (group_book_not_groupable g b w Hb)). eauto.
Qed.

Lemma transfer_books_run w :
  if forallb (groupable cfg fs) (fst (get_all_books_with_details true (lib w)))
  then exists w', transfer_books cfg fs w = (Returned tt, w')
  else exists w', transfer_books cfg fs w = (Raised ValueError, w').
Proof.
  unfold transfer_books.
  destruct (get_all_books_with_details true (lib w)) as [bks s1] eqn:Hlist. cbn [fst].
  rewrite (mbind_returned _ _ _ _ _ (lift_run _ _ _ _ Hlist)).
  destruct (returns_get_available_space cfg (with_lib s1 w)) as (avail & w2 & Hav).
  rewrite (mbind_returned _ _ _ _ _ Hav).
  pose proof (group_books_run bks [] w2 (List.Forall_nil _)) as Hgroup.
  destruct (forallb (groupable cfg fs) bks).
  - destruct Hgroup as (g & w3 & Hrun & Hg).
    rewrite (mbind_returned _ _ _ _ _ Hrun).
    destruct (transfer_directories_return g avail Hg w3) as (a & w4 & Hdirs).
    rewrite (mbind_returned _ _ _ _ _ Hdirs). eexists. reflexivity.
  - destruct Hgroup as (w3 & Hrun).
    rewrite (mbind_raised _ _ _ _ _ Hrun). eauto.
Qed.

Lemma keeps_sdcard_grouping : 
  keeps sdcard
    (mbind (lift (get_all_books_with_details true)) (fun bks =>
     mbind (get_available_space cfg) (fun _ => mfold (group_book cfg fs) bks []))).
Proof.
  apply keeps_mbind; [apply keeps_sdcard_write_lib|]. intros bks.
  apply keeps_mbind; [auto with keeps|]. intros _.
  apply keeps_mfold. intros st b. apply keeps_sdcard_group_book.
Qed.

End Grouping.

(** X16. [transfer_books] returns normally when, for every book of the
    listing, the library root picked by the prefix test is a prefix of the
    book's directory component by component. Otherwise it raises, the
    exception is the [ValueError] of [relative_to] in the grouping loop,
    and nothing has been written to the removable storage: neither
    [min] over a directory's books nor the call of
    [book_exists_and_unread] in the second loop can raise. *)
Theorem transfer_books_outcome cfg fs w :
  (forallb (groupable cfg fs) (fst (get_all_books_with_details true (lib w))) = true ->
   fst (transfer_books cfg fs w) = Returned tt) /\
  (forall e, fst (transfer_books cfg fs w) = Raised e ->
     e = ValueError /\
     forallb (groupable cfg fs) (fst (get_all_books_with_details true (lib w))) = false /\
     sdcard (snd (transfer_books cfg fs w)) = sdcard w).
Proof.
  pose proof (transfer_books_run cfg fs w) as Hrun.
  destruct (forallb (groupable cfg fs) _) eqn:Hall.
  - destruct Hrun as (w' & Hrun). rewrite Hrun. split; [reflexivity|]. discriminate.
  - destruct Hrun as (w' & Hrun). split; [discriminate|].
    intros e He. rewrite Hrun in He. injection He as <-.
    split; [reflexivity|]. split; [reflexivity|].
    pose proof (keeps_sdcard_grouping cfg fs w) as Hk.
    revert Hrun Hk. unfold transfer_books.
    destruct (get_all_books_with_details true (lib w)) as [bks s1] eqn:Hlist.
    rewrite !(mbind_returned _ _ _ _ _ (lift_run _ _ _ _ Hlist)).
    destruct (returns_get_available_space cfg (with_lib s1 w)) as (avail & w2 & Hav).
    rewrite !(mbind_returned _ _ _ _ _ Hav).
    cbn [fst] in Hall.
    pose proof (group_books_run cfg fs bks [] w2 (List.Forall_nil _)) as Hgroup.
    rewrite Hall in Hgroup. destruct Hgroup as (w3 & Hg).
    rewrite (mbind_raised _ _ _ _ _ Hg). rewrite Hg. cbn [snd].
    intros H. injection H as <-. auto.
Qed.

Lemma transfer_books_outcome_witness :
  let cfg := Sample.config ["epub"] in
  let fs := Sample.host [("/lib/a.epub", "aaa"); ("/library2/b.epub", "bbb")] [] [] in
  let ok := Sample.world [Sample.row "/lib" "a" "epub" false false true] [] [] [Some 10; Some 10] in
  let bad := Sample.world [Sample.row "/lib" "a" "epub" false false true;
                           Sample.row "/library2" "b" "epub" false false true] [] []
               [Some 10; Some 10] in
  fst (transfer_books cfg fs ok) = Returned tt /\
  fst (transfer_books cfg fs bad) = Raised ValueError /\
  sdcard (snd (transfer_books cfg fs bad)) = sdcard bad.
Proof.
  cbv zeta. split.
  - apply (proj1 (transfer_books_outcome (Sample.config ["epub"]) _ _)). reflexivity.
  - split; [reflexivity|].
    apply (proj2 (transfer_books_outcome (Sample.config ["epub"])
                    (Sample.host [("/lib/a.epub", "aaa"); ("/library2/b.epub", "bbb")] [] []) _)
             ValueError).
    reflexivity.
Defined.

(** *** The grouping loop *)

Lemma group_of_dict_append g k b d :
  group_of (dict_append g k b) d =
    if String.eqb k d then (group_of g d ++ [b])%list else group_of g d.
Proof.
  unfold group_of. induction g as [|[k' bs] g IH]; cbn [dict_append List.find fst snd].
  - destruct (String.eqb k d); reflexivity.
  - destruct (String.eqb_spec k' k) as [->|Hne]; cbn [List.find fst snd].
    + destruct (String.eqb k d); reflexivity.
    + destruct (String.eqb_spec k' d) as [->|Hd].
      * apply String.eqb_neq in Hne. rewrite String.eqb_sym in Hne. now rewrite Hne.
      * exact IH.
Qed.

Lemma group_book_files cfg fs g b w g' w' d :
  group_book cfg fs g b w = (Returned g', w') ->
  group_of g' d =
    (group_of g d ++ if bool_decide (destination_of cfg fs b = Some d) then [b] else [])%list.
Proof.
  destruct b as [[p n] e]. unfold group_book, destination_of, relative_path_of. cbn [fst].
  destruct (find_library_path cfg fs p) as [root|].
  - destruct (Py.relative_to (Py.Path p) root) as [rel|]; [|discriminate].
    unfold mbind, mret. intros H. injection H as <- _. rewrite group_of_dict_append.
    match goal with
    | |- context [String.eqb ?x d] => destruct (String.eqb_spec x d) as [Heq|Hne]
    end.
    + rewrite bool_decide_eq_true_2; [reflexivity | f_equal; exact Heq].
    + rewrite bool_decide_eq_false_2; [now rewrite app_nil_r|].
      intros H. injection H as H. exact (Hne H).
  - unfold mbind, logging, mret. intros H. injection H as <- _.
    rewrite bool_decide_eq_false_2 by discriminate. now rewrite app_nil_r.
Qed.

Lemma group_books_files cfg fs bks g w g' w' d :
  mfold (group_book cfg fs) bks g w = (Returned g', w') ->
  group_of g' d =
    (group_of g d ++
     List.filter (fun b => bool_decide (destination_of cfg fs b = Some d)) bks)%list.
Proof.
  revert g w. induction bks as [|b bks IH]; intros g w H; cbn [mfold List.filter] in *.
  - injection H as <- _. now rewrite app_nil_r.
  - apply mbind_inv in H as (g1 & w1 & Hb & Hrest).
    rewrite (IH _ _ Hrest), (group_book_files _ _ _ _ _ _ _ d Hb), <- app_assoc.
    destruct (bool_decide _); reflexivity.
Qed.

(** X17. The grouping loop of [transfer_books], when it returns: the
    books filed under a directory of the removable storage are exactly
    the books of the listing whose destination is that directory, in the
    order of the listing; a book under no library root is filed
    nowhere. *)
Theorem grouping_files_books cfg fs bks w g w' d :
  mfold (group_book cfg fs) bks [] w = (Returned g, w') ->
  group_of g d = List.filter (fun b => bool_decide (destination_of cfg fs b = Some d)) bks.
Proof. intros H. now rewrite (group_books_files _ _ _ _ _ _ _ d H). Qed.

Lemma grouping_files_books_witness :
  let cfg := Sample.config ["epub"] in
  let fs := Sample.host [] [] [] in
  let bks := [("/lib/b", "y", "epub"); ("/lib/a", "x", "epub"); ("/other", "o", "epub");
              ("/lib/b", "z", "epub")] in
  let w := Sample.world [] [] [] [] in
  exists g w', mfold (group_book cfg fs) bks [] w = (Returned g, w') /\
               group_of g "/sd/kobomanager/b" = [("/lib/b", "y", "epub"); ("/lib/b", "z", "epub")].
Proof.
  cbv zeta.
  assert (Hr : exists g w',
             mfold (group_book (Sample.config ["epub"]) (Sample.host [] [] []))
               [("/lib/b", "y", "epub"); ("/lib/a", "x", "epub"); ("/other", "o", "epub");
                ("/lib/b", "z", "epub")] [] (Sample.world [] [] [] []) = (Returned g, w'))
    by (eexists _, _; vm_compute; reflexivity).
  destruct Hr as (g & w' & Hrun). exists g, w'. split; [exact Hrun|].
  rewrite (grouping_files_books _ _ _ _ _ _ "/sd/kobomanager/b" Hrun).
  vm_compute. reflexivity.
Defined.

(** ** [KoboManager.run] *)

Lemma only_logged_refl w : only_logged w w.
Proof.
  exists []. rewrite app_nil_r. destruct w as [[c bs fl lg] k sd rd]. reflexivity.
Qed.

Lemma only_logged_step w w1 ev :
  only_logged w w1 ->
  only_logged w (with_lib (with_llog (llog (lib w1) ++ [ev]) (lib w1)) w1).
Proof.
  intros (l & ->). exists (l ++ [ev])%list. cbn. rewrite app_assoc. reflexivity.
Qed.

Ltac logged := repeat first [apply only_logged_refl | apply only_logged_step].

(** X18. When the reader's mount point, its database, the mount point of
    the removable storage or the working directory on it is missing (and
    the directory cannot be created), [run] ends with the exit code [1]
    before any connection is opened: nothing but the log has changed. *)
Theorem run_device_not_in_place cfg fs w :
  device_in_place cfg fs = false ->
  fst (KoboManager.run cfg fs w) = Returned 1 /\
  only_logged w (snd (KoboManager.run cfg fs w)).
Proof.
  unfold device_in_place. intros H.
  unfold KoboManager.run. mstep_refl.
  unfold KoboDevice.check_device_path.
  destruct (path_exists fs (KoboDevice.device_path cfg)); cbn [negb andb] in *.
  2:{ mstep_refl. cbn [negb]. split; [reflexivity|]. cbn [snd mret]. logged. }
  mstep_refl. cbn [negb].
  unfold KoboDevice.check_device_db.
  destruct (path_exists fs (KoboDevice.db_path cfg)); cbn [negb andb] in *.
  2:{ mstep_refl. cbn [negb]. split; [reflexivity|]. cbn [snd mret]. logged. }
  mstep_refl. cbn [negb].
  unfold KoboDevice.check_sdcard_path.
  destruct (path_exists fs (device_sdcard cfg)); cbn [negb andb] in *.
  2:{ mstep_refl. cbn [negb]. split; [reflexivity|]. cbn [snd mret]. logged. }
  mstep_refl. cbn [negb].
  unfold KoboDevice.create__sdcard_kobomanager_directory.
  destruct (path_exists fs (sdcard_path cfg)); cbn [negb orb] in *; [discriminate|].
  rewrite H. mstep_refl. cbn [negb]. split; [reflexivity|]. cbn [snd mret]. logged.
Qed.

Lemma run_device_not_in_place_witness :
  fst (KoboManager.run (Sample.config ["epub"]) (Sample.host [] [] []) fresh_world) = Returned 1 /\
  sdcard (snd (KoboManager.run (Sample.config ["epub"]) (Sample.host [] [] []) fresh_world)) = ∅.
Proof.
  destruct (run_device_not_in_place (Sample.config ["epub"]) (Sample.host [] [] []) fresh_world
              eq_refl) as (Hr & l & Hw).
  split; [exact Hr|]. rewrite Hw. reflexivity.
Defined.

Lemma gate_inv (m : M bool) (k : M Z) w w' :
  mbind m (fun ok => if negb ok then mret 1 else k) w = (Returned 0, w') ->
  exists w1, m w = (Returned true, w1) /\ k w1 = (Returned 0, w').
Proof.
  intros H. apply mbind_inv in H as (ok & w1 & Hm & Hk).
  destruct ok; cbn [negb] in Hk; [eauto|]. unfold mret in Hk. discriminate.
Qed.

Lemma check_inv {A} (b : bool) (m : M A) w w1 :
  (if negb b then mbind m (fun _ => mret false) else mret true) w = (Returned true, w1) ->
  b = true.
Proof.
  destruct b; [reflexivity|]. cbn [negb]. intros H.
  apply mbind_inv in H as (a & w2 & _ & H). unfold mret in H. discriminate.
Qed.

(** X19. When [run] ends with the exit code [0], the four checks on the
    host had passed and both stores could be opened, and at the end both
    connections are closed. *)
Theorem run_success cfg fs w :
  fst (KoboManager.run cfg fs w) = Returned 0 ->
  device_in_place cfg fs = true /\
  sqlite_opens fs (KoboDevice.db_path cfg) = true /\
  sqlite_opens fs (library_db_path cfg fs) = true /\
  kconn (kobo (snd (KoboManager.run cfg fs w))) = false /\
  conn (lib (snd (KoboManager.run cfg fs w))) = false.
Proof.
  destruct (KoboManager.run cfg fs w) as [r w'] eqn:Hrun. cbn [fst snd]. intros ->.
  unfold KoboManager.run in Hrun.
  apply mbind_inv in Hrun as ([] & w0 & _ & Hrun).
  apply gate_inv in Hrun as (w1 & H1 & Hrun).
  apply gate_inv in Hrun as (w2 & H2 & Hrun).
  apply gate_inv in Hrun as (w3 & H3 & Hrun).
  apply gate_inv in Hrun as (w4 & H4 & Hrun).
  apply gate_inv in Hrun as (w5 & H5 & Hrun).
  apply gate_inv in Hrun as (w6 & H6 & Hrun).
  apply gate_inv in Hrun as (w7 & H7 & Hrun).
  apply mbind_inv in Hrun as ([] & w8 & _ & Hrun).
  apply mbind_inv in Hrun as (bks & w9 & _ & Hrun).
  apply mbind_inv in Hrun as ([] & w10 & _ & Hrun).
  apply gate_inv in Hrun as (w11 & H11 & Hrun).
  apply gate_inv in Hrun as (w12 & H12 & Hrun).
  unfold KoboDevice.check_device_path in H1. unfold KoboDevice.check_device_db in H2.
  unfold KoboDevice.check_sdcard_path in H3.
  apply check_inv in H1, H2, H3.
  assert (Hdir : (path_exists fs (sdcard_path cfg) || makedirs_ok fs (sdcard_path cfg))%bool
                 = true).
  { revert H4. unfold KoboDevice.create__sdcard_kobomanager_directory.
    destruct (path_exists fs (sdcard_path cfg)); [reflexivity|]. cbn [negb orb].
    destruct (makedirs_ok fs (sdcard_path cfg)); [reflexivity|].
    intros H. apply mbind_inv in H as (a & wa & _ & H). unfold mret in H. discriminate. }
  assert (Hk : sqlite_opens fs (KoboDevice.db_path cfg) = true).
  { revert H5. unfold KoboDevice.connect. intros H.
    apply mbind_inv in H as (present & wa & _ & H).
    destruct present; cbn [negb] in H; [|unfold mret in H; discriminate].
    destruct (sqlite_opens fs (KoboDevice.db_path cfg)); [reflexivity|].
    apply mbind_inv in H as (a & wb & _ & H). unfold mret in H. discriminate. }
  assert (Hl : sqlite_opens fs (library_db_path cfg fs) = true).
  { revert H6. unfold lift_outcome, connect.
    destruct (_ && _)%bool; [discriminate|].
    destruct (sqlite_opens fs (library_db_path cfg fs)); [reflexivity|].
    cbn. discriminate. }
  split; [unfold device_in_place; now rewrite H1, H2, H3, Hdir|].
  split; [exact Hk|]. split; [exact Hl|].
  revert H11 H12 Hrun. unfold KoboDevice.disconnect, lift, disconnect.
  destruct (kconn (kobo w10)); [|discriminate]. intros H. injection H as <-.
  cbn [lib logging snd with_lib KoboDevice.set_kconn with_kobo with_llog conn].
  destruct (conn (lib w10)); [|discriminate]. intros H. injection H as <-.
  intros H. injection H as <-. split; reflexivity.
Qed.

Lemma run_success_witness :
  let r := KoboManager.run (Sample.config ["epub"]) (device_host ["a.epub"; "b.pdf"]) fresh_world in
  fst r = Returned 0 /\ kconn (kobo (snd r)) = false /\ conn (lib (snd r)) = false.
Proof.
  cbv zeta.
  assert (Hr : fst (KoboManager.run (Sample.config ["epub"]) (device_host ["a.epub"; "b.pdf"])
                      fresh_world) = Returned 0) by (vm_compute; reflexivity).
  destruct (run_success _ _ _ Hr) as (_ & _ & _ & Hk & Hc).
  split; [exact Hr|]. split; [exact Hk | exact Hc].
Defined.

(** *** What a run keeps of the catalog and of the device database *)

Lemma keeps_catalog_transfer_books cfg fs : keeps catalog (transfer_books cfg fs).
Proof.
  unfold transfer_books.
  apply keeps_mbind.
  { apply keeps_catalog_lift. intros s. apply get_all_books_with_details_books. }
  intros bks. keeps_tac.
Qed.

Lemma connect_books cfg fs s : books (snd (connect cfg fs s)) = books s.
Proof.
  unfold connect.
  destruct (_ && _)%bool; [reflexivity|].
  destruct (sqlite_opens fs (library_db_path cfg fs)); [|reflexivity].
  destruct (path_exists fs (library_db_path cfg fs)); cbn [negb]; [reflexivity|].
  destruct s as [c bs fl lg].
  unfold initialize, run_queries, lbind, llogging, lret, execute_query, py_not, sql_create.
  destruct fl as [|[] [|[] [|[] [|[] [|[] rest]]]]]; reflexivity.
Qed.

Lemma disconnect_books s : books (snd (disconnect s)) = books s.
Proof. unfold disconnect. destruct (conn s); reflexivity. Qed.

Section RunKeeps.

Variable cfg : Config.
Variable fs : HostFS.

Lemma keeps_catalog_device_connect : keeps catalog (KoboDevice.connect cfg fs).
Proof.
  unfold KoboDevice.connect, KoboDevice.check_device_db.
  apply keeps_mbind; [keeps_tac|]. intros present.
  repeat apply keeps_if; keeps_tac. intros w. reflexivity.
Qed.

Lemma keeps_catalog_device_disconnect : keeps catalog KoboDevice.disconnect.
Proof. intros w. unfold KoboDevice.disconnect. destruct (kconn (kobo w)); reflexivity. Qed.

Lemma keeps_catalog_library_connect : keeps catalog (lift_outcome (connect cfg fs)).
Proof.
  intros w. unfold lift_outcome, catalog.
  pose proof (connect_books cfg fs (lib w)) as H.
  destruct (connect cfg fs (lib w)) as [r s]. exact H.
Qed.

Lemma keeps_device_rows_device_connect : keeps device_rows (KoboDevice.connect cfg fs).
Proof.
  unfold KoboDevice.connect, KoboDevice.check_device_db.
  apply keeps_mbind; [keeps_tac|]. intros present.
  repeat apply keeps_if; keeps_tac. intros w. reflexivity.
Qed.

Lemma keeps_device_rows_device_disconnect : keeps device_rows KoboDevice.disconnect.
Proof. intros w. unfold KoboDevice.disconnect. destruct (kconn (kobo w)); reflexivity. Qed.

Lemma keeps_device_rows_library_connect : keeps device_rows (lift_outcome (connect cfg fs)).
Proof.
  intros w. unfold lift_outcome. destruct (connect cfg fs (lib w)) as [r s]. reflexivity.
Qed.

Lemma keeps_device_rows_mark_book_as_read_in_kobo p n e :
  keeps device_rows (mark_book_as_read_in_kobo cfg fs p n e).
Proof.
  unfold mark_book_as_read_in_kobo. keeps_tac.
  intros w. destruct (sdcard w !! _); [destruct (remove_ok fs _)|]; reflexivity.
Qed.

Lemma keeps_device_rows_run : keeps device_rows (KoboManager.run cfg fs).
Proof.
  unfold KoboManager.run, KoboManager.reconcile, KoboDevice.check_device_path,
    KoboDevice.check_device_db, KoboDevice.check_sdcard_path,
    KoboDevice.create__sdcard_kobomanager_directory.
  repeat first
    [ apply keeps_device_rows_device_connect
    | apply keeps_device_rows_device_disconnect
    | apply keeps_device_rows_library_connect
    | apply keeps_device_rows_transfer_books
    | apply keeps_device_rows_mark_book_as_read_in_kobo
    | keeps_step ].
Qed.

(** A property of the catalog rows that [scan_library] and
    [mark_book_as_read] keep, whatever the state of the store. *)
Variable P : list book -> Prop.
Hypothesis P_scan : forall s, P (books s) -> P (books (snd (scan_library cfg fs s))).
Hypothesis P_mark : forall p n e s, P (books s) -> P (books (snd (mark_book_as_read p n e s))).

Let I (w : World) : Prop := P (catalog w).

Lemma catalog_stable_keeps {A} (m : M A) : keeps catalog m -> mstable I m.
Proof. apply (mstable_keeps catalog P). Qed.

Lemma catalog_stable_lift {A} (m : L A) :
  (forall s, P (books s) -> P (books (snd (m s)))) -> mstable I (lift m).
Proof.
  intros Hm w H. unfold lift, I, catalog in *. specialize (Hm (lib w) H).
  destruct (m (lib w)) as [a s]. exact Hm.
Qed.

Lemma catalog_stable_mark_book_as_read_in_kobo p n e :
  mstable I (mark_book_as_read_in_kobo cfg fs p n e).
Proof.
  unfold mark_book_as_read_in_kobo.
  repeat stable_step
    ltac:(first [ apply catalog_stable_lift; apply P_mark
                | apply catalog_stable_keeps; solve [auto with keeps] ]).
  apply catalog_stable_keeps. intros w.
  destruct (sdcard w !! _); [destruct (remove_ok fs _)|]; reflexivity.
Qed.

(** Such a property is kept by [run], however it ends. *)
Lemma catalog_stable_run : mstable I (KoboManager.run cfg fs).
Proof.
  unfold KoboManager.run, KoboManager.reconcile, KoboDevice.check_device_path,
    KoboDevice.check_device_db, KoboDevice.check_sdcard_path,
    KoboDevice.create__sdcard_kobomanager_directory.
  repeat stable_step
    ltac:(first
      [ apply catalog_stable_mark_book_as_read_in_kobo
      | apply catalog_stable_lift; first [ apply P_scan | intros s Hs; now rewrite disconnect_books ]
      | apply catalog_stable_keeps;
        first [ apply keeps_catalog_device_connect
              | apply keeps_catalog_device_disconnect
              | apply keeps_catalog_library_connect
              | apply keeps_catalog_transfer_books
              | apply keeps_catalog_lift; intros s; apply get_all_books_with_details_books
              | solve [auto with keeps] ] ]).
Qed.

End RunKeeps.

Lemma never_lost_refl bs : never_lost bs bs.
Proof. intros i r Hi. eauto. Qed.

Lemma never_lost_trans bs1 bs2 bs3 :
  never_lost bs1 bs2 -> never_lost bs2 bs3 -> never_lost bs1 bs3.
Proof.
  intros H12 H23 i r Hi.
  destruct (H12 i r Hi) as (r2 & Hi2 & Hid2 & Hr2).
  destruct (H23 i r2 Hi2) as (r3 & Hi3 & Hid3 & Hr3).
  exists r3. split; [exact Hi3|]. split; [congruence | auto].
Qed.

Lemma never_lost_kept bs bs' : kept bs bs' -> never_lost bs bs'.
Proof.
  intros Hk i r Hi. destruct (kept_lookup bs bs' i r Hk Hi) as (r' & Hi' & Hid & Hrd).
  exists r'. split; [exact Hi'|]. split; [exact Hid | congruence].
Qed.

Lemma never_lost_mark_read p n e bs : never_lost bs (snd (sql_mark_read p n e bs)).
Proof.
  intros i r Hi. unfold sql_mark_read, update_where. cbn [snd].
  exists (if same_row p n e r then set_read true r else r).
  split.
  - change (List.map ?f bs) with (f <$> bs). now rewrite list_lookup_fmap, Hi.
  - destruct (same_row p n e r); auto.
Qed.

Lemma never_lost_scan_library cfg fs bs0 s :
  never_lost bs0 (books s) -> never_lost bs0 (books (snd (scan_library cfg fs s))).
Proof.
  intros H. apply (never_lost_trans _ _ _ H), never_lost_kept, lkeeps_scan_library.
Qed.

Lemma never_lost_mark_book_as_read bs0 p n e s :
  never_lost bs0 (books s) -> never_lost bs0 (books (snd (mark_book_as_read p n e s))).
Proof.
  unfold mark_book_as_read.
  apply (lstable_execute_query_rows (never_lost bs0) (sql_mark_read p n e)).
  intros bs H. apply (never_lost_trans _ _ _ H), never_lost_mark_read.
Qed.



(** ** A book finished on the device, within one run *)

Lemma transfer_one_copies cfg fs dest avail p n e w data :
  fst (book_exists_and_unread cfg fs p n e w) = Returned false ->
  is_transferable cfg e = true ->
  get_book_size fs p n e <= avail ->
  Py.str_in (Py.lower e) ["zip"; "rar"] = false ->
  file_data fs (get_book_full_path p n e) = Some data ->
  Py.endswith (Py.join dest [n +:+ "." +:+ e]) "/" = false ->
  sdcard (snd (transfer_one cfg fs dest avail (p, n, e) w)) =
    <[Py.join dest [n +:+ "." +:+ e] := data]> (sdcard w).
Proof.
  intros Hunread Htrans Hsize Hplain Hdata Hfile.
  pose proof (keeps_sdcard_book_exists_and_unread cfg fs p n e w) as Hsd.
  unfold transfer_one.
  destruct (book_exists_and_unread cfg fs p n e w) as [r w1] eqn:Hrun.
  cbn [fst snd] in Hunread, Hsd. subst r.
  mstep Hrun. cbv iota.
  assert (Hgt : (get_book_size fs p n e >? avail) = false) by lia.
  rewrite Hgt, Htrans. cbn [negb].
  pose proof (transfer_book_plain fs p n e dest w1 data Hplain Hdata Hfile) as Hcopy.
  mstep Hcopy. cbv iota.
  mstep_refl.
  match goal with
  | |- context [get_available_space cfg ?w2] =>
      pose proof (keeps_sdcard_get_available_space cfg w2) as Hk
  end.
  rewrite Hk. cbn [sdcard with_lib with_sdcard logging snd]. now rewrite Hsd.
Qed.

Lemma mark_book_as_read_in_kobo_removes cfg fs p n e w root rel st :
  kobo_ready (kobo w) ->
  find_library_path cfg fs p = Some root ->
  Py.relative_to (Py.Path p) root = Some rel ->
  content (kobo w) !! content_id_of rel n e = Some st ->
  st <> 0 ->
  remove_ok fs (Py.join (sdcard_path cfg) [Py.path_str rel; n +:+ "." +:+ e]) = true ->
  sdcard (snd (mark_book_as_read_in_kobo cfg fs p n e w)) =
    delete (Py.join (sdcard_path cfg) [Py.path_str rel; n +:+ "." +:+ e]) (sdcard w).
Proof.
  intros Hk Hroot Hrel Hrow Hst Hrm.
  destruct (mark_book_as_read_in_kobo_row_read cfg fs p n e w root rel st
              Hk Hroot Hrel Hrow Hst) as (w' & Hrun & _ & _ & Hs & _).
  rewrite Hrun. cbn [snd]. rewrite Hs, Hrm. reflexivity.
Qed.

Section QuietDevice.

Variable k0 : KoboState.
Hypothesis k0_conn : kconn k0 = true.
Hypothesis k0_faults : kfaults k0 = [].

Let I (w : World) : Prop := kobo w = k0.

Lemma quiet_kobo_select cid : mstable I (kobo_select_read_status cid).
Proof.
  intros w H. unfold I in *. unfold kobo_select_read_status. rewrite H, k0_conn, k0_faults.
  cbn. exact H.
Qed.

Lemma quiet_keeps {A} (m : M A) : keeps kobo m -> mstable I m.
Proof. apply (mstable_keeps kobo (fun k => k = k0)). Qed.

Lemma keeps_kobo_logging lv msg strs nums : keeps kobo (logging lv msg strs nums).
Proof. intros w. reflexivity. Qed.

Lemma keeps_kobo_sleep z : keeps kobo (sleep z).
Proof. intros w. reflexivity. Qed.

Lemma keeps_kobo_get_available_space cfg : keeps kobo (get_available_space cfg).
Proof. intros w. unfold get_available_space. destruct (readings w) as [|[v|] rest]; reflexivity. Qed.

Lemma keeps_kobo_write_file p d : keeps kobo (write_file p d).
Proof. intros w. unfold write_file. destruct (Py.endswith p "/"); reflexivity. Qed.

(** With the connection open and no failure due, the per-book body of
    the transfer leaves the device database and its connection as they
    are. *)
Lemma quiet_transfer_one cfg fs dest avail b : mstable I (transfer_one cfg fs dest avail b).
Proof.
  unfold transfer_one, book_exists_and_unread, transfer_book, extract_archive, extract_all,
    extract_member, copy2.
  repeat stable_step
    ltac:(first [ apply quiet_kobo_select
                | apply quiet_keeps;
                  first [ apply keeps_kobo_logging | apply keeps_kobo_sleep
                        | apply keeps_kobo_get_available_space | apply keeps_kobo_write_file
                        | apply keeps_relative_path_of ] ]).
Qed.

End QuietDevice.



(** ** [transfer_books] without a listing *)

(** X22. When the listing statement cannot be executed (no connection to
    the catalog, or [sqlite3.Error]), [get_all_books_with_details] hands
    out an empty list; [transfer_books] then measures the capacity,
    copies nothing and returns normally. *)
Theorem transfer_books_without_listing cfg fs w :
  conn (lib w) = false \/ hd false (faults (lib w)) = true ->
  fst (transfer_books cfg fs w) = Returned tt /\
  sdcard (snd (transfer_books cfg fs w)) = sdcard w.
Proof.
  intros Hl.
  destruct (execute_query_not_ready (sql_select_details true) (lib w) Hl) as [Hnone _].
  assert (Hrun : exists w', transfer_books cfg fs w = (Returned tt, w') /\ sdcard w' = sdcard w).
  2:{ destruct Hrun as (w' & -> & Hs). auto. }
  unfold transfer_books.
  assert (Hlist : exists s1, get_all_books_with_details true (lib w) = ([], s1)).
  { unfold get_all_books_with_details, lbind.
    destruct (execute_query (sql_select_details true) (lib w)) as [r s1]. cbn [fst] in Hnone.
    subst r. eexists. reflexivity. }
  destruct Hlist as (s1 & Hlist).
  rewrite (mbind_returned _ _ _ _ _ (lift_run _ _ _ _ Hlist)).
  pose proof (keeps_sdcard_get_available_space cfg (with_lib s1 w)) as Hk.
  destruct (returns_get_available_space cfg (with_lib s1 w)) as (avail & w2 & Hav).
  rewrite Hav in Hk. cbn [snd] in Hk.
  rewrite (mbind_returned _ _ _ _ _ Hav). cbn [mfold].
  eexists. split; [reflexivity|]. cbn. exact Hk.
Qed.

Lemma transfer_books_without_listing_witness :
  let w := with_lib (Sample.store [Sample.row "/lib/comics" "comic" "cbz" false false true] [true])
             comic_world in
  fst (transfer_books (Sample.config ["epub"; "cbz"]) comic_host w) = Returned tt /\
  sdcard (snd (transfer_books (Sample.config ["epub"; "cbz"]) comic_host w)) = sdcard w.
Proof.
  cbv zeta.
  apply (transfer_books_without_listing (Sample.config ["epub"; "cbz"]) comic_host).
  right. reflexivity.
Defined.

(** ** The path the scan tests for a file *)

Lemma string_app_cons a x y : String a x +:+ y = String a (x +:+ y).
Proof. reflexivity. Qed.

Lemma substring_over s m : (String.length s <= m)%nat -> String.substring 0 m s = s.
Proof.
  revert m. induction s as [|a s IH]; intros m Hm.
  - destruct m; reflexivity.
  - destruct m as [|m]; [cbn in Hm; lia|]. cbn [String.substring].
    f_equal. apply IH. cbn in Hm. lia.
Qed.

Lemma substring_split_dot n s m :
  String.get n s = Some "."%char -> (String.length s <= m)%nat ->
  String.substring 0 n s +:+ "." +:+ Py.tail (String.substring n m s) = s.
Proof.
  revert s m. induction n as [|n IH]; intros s m Hget Hm.
  - destruct s as [|a s]; [discriminate|]. cbn in Hget. injection Hget as ->.
    destruct m as [|m]; [cbn in Hm; lia|].
    cbn [String.substring Py.tail]. rewrite (substring_over s m) by (cbn in Hm; lia).
    reflexivity.
  - destruct s as [|a s]; [discriminate|]. cbn in Hget. cbn [String.substring].
    rewrite string_app_cons. f_equal. apply IH; [exact Hget|]. cbn in Hm. lia.
Qed.

Lemma rfind_from_spec c s i last :
  Py.rfind_from c s i last = last \/
  (i <= Py.rfind_from c s i last /\
   String.get (Z.to_nat (Py.rfind_from c s i last - i)) s = Some c).
Proof.
  revert i last. induction s as [|a s IH]; intros i last; cbn [Py.rfind_from].
  - now left.
  - destruct (IH (i + 1) (if Ascii.eqb a c then i else last)) as [Heq|[Hle Hget]].
    + rewrite Heq. destruct (Ascii.eqb_spec a c) as [->|_]; [|now left].
      right. split; [lia|]. rewrite Z.sub_diag. reflexivity.
    + right. split; [lia|].
      replace (Z.to_nat (Py.rfind_from c s (i + 1) (if Ascii.eqb a c then i else last) - i))
        with (S (Z.to_nat (Py.rfind_from c s (i + 1) (if Ascii.eqb a c then i else last) - (i + 1))))
        by lia.
      exact Hget.
Qed.

Lemma rfind_spec c s :
  Py.rfind c s = -1 \/ (0 <= Py.rfind c s /\ String.get (Z.to_nat (Py.rfind c s)) s = Some c).
Proof.
  unfold Py.rfind. destruct (rfind_from_spec c s 0 (-1)) as [H|[Hle Hget]]; [now left|].
  right. split; [exact Hle|]. now rewrite Z.sub_0_r in Hget.
Qed.

Lemma splitext_rejoin p :
  snd (Py.splitext p) <> "" ->
  fst (Py.splitext p) +:+ "." +:+ Py.tail (snd (Py.splitext p)) = p.
Proof.
  unfold Py.splitext.
  destruct (Z.gtb_spec (Py.rfind "." p) (Py.rfind "/" p)) as [Hgt|_]; [|now intros []].
  destruct (Py.all_dots _); [now intros []|]. intros _. cbn [fst snd].
  destruct (rfind_spec "/" p) as [Hs|[Hs _]];
    (destruct (rfind_spec "." p) as [Hd|[Hd Hget]]; [lia|]);
    unfold Py.slice, Py.slice_from; rewrite Z.sub_0_r;
    change (Z.to_nat 0) with 0%nat; now apply substring_split_dot.
Qed.

(** X23. The path whose existence the scan tests for a file it meets,
    [root/(file_name + "." + file_extension)], is the path of that file
    when [os.path.splitext] finds an extension in its name; when it finds
    none (a name such as [.epub]), it is the path of the file followed by
    a dot. *)
Theorem scan_tested_path v :
  v_name v +:+ "." +:+ v_ext v =
    if String.eqb (snd (Py.splitext (snd v))) "" then snd v +:+ "." else snd v.
Proof.
  unfold v_name, v_ext.
  destruct (String.eqb_spec (snd (Py.splitext (snd v))) "") as [He|Hne].
  - rewrite He. cbn [Py.tail].
    assert (Hfst : fst (Py.splitext (snd v)) = snd v).
    { revert He. unfold Py.splitext.
      destruct (Z.gtb_spec (Py.rfind "." (snd v)) (Py.rfind "/" (snd v))) as [Hgt|_];
        [|reflexivity].
      destruct (Py.all_dots _); [reflexivity|].
      cbn [fst snd]. intros He. exfalso.
      destruct (rfind_spec "." (snd v)) as [Hd|[Hd Hget]].
      - destruct (rfind_spec "/" (snd v)) as [Hs|[Hs _]]; lia.
      - revert He Hget. unfold Py.slice_from.
        generalize (Z.to_nat (Py.rfind "." (snd v))). intros n He Hget.
        assert (Hsub : forall s m k c, String.get k s = Some c -> (String.length s <= m)%nat ->
                                       String.substring k m s <> "").
        { clear. intros s m k. revert s m. induction k as [|k IH]; intros s m c Hg Hm.
          - destruct s; [discriminate|]. destruct m; [cbn in Hm; lia | discriminate].
          - destruct s as [|a s]; [discriminate|]. cbn [String.substring].
            apply (IH s m c); [exact Hg | cbn in Hm; lia]. }
        exact (Hsub _ _ _ _ Hget (le_n _) He). }
    rewrite Hfst. reflexivity.
  - apply splitext_rejoin. exact Hne.
Qed.

(** * The transfer of a container that is not expanded, end to end *)

Lemma book_exists_and_unread_device cfg fs p n e w1 w2 :
  kobo w1 = kobo w2 ->
  fst (book_exists_and_unread cfg fs p n e w1) = fst (book_exists_and_unread cfg fs p n e w2).
Proof.
  intros H. unfold book_exists_and_unread.
  destruct (find_library_path cfg fs p) as [root|]; [|reflexivity].
  unfold relative_path_of. destruct (Py.relative_to (Py.Path p) root) as [rel|]; [|reflexivity].
  unfold mbind, mret, kobo_select_read_status, logging. rewrite H.
  destruct (kconn (kobo w2)); cbn [negb fst snd]; [|reflexivity].
  destruct (kfaults (kobo w2)) as [|[] l]; cbn [fst snd]; try reflexivity;
    destruct (content (kobo w2) !! _); reflexivity.
Qed.

Lemma get_available_space_reads cfg w a rest :
  readings w = Some a :: rest ->
  exists w', get_available_space cfg w = (Returned a, w') /\
             readings w' = rest /\ sdcard w' = sdcard w /\ kobo w' = kobo w.
Proof.
  intros H. unfold get_available_space. rewrite H. eexists. split; [reflexivity|].
  repeat split.
Qed.


